(** * Bayesian optimisation in the latent space of a VAE (vae_mnist.py)

    A shallow embedding of the tutorial script [vae_mnist.py]: the frozen
    classifier and decoder, the scoring function, the objective
    [score_image (decode x)], the initial random batch and the qEI loop.

    Tensors of [torch.double] are modelled as a shape together with the
    row-major list of their entries, the entries being real numbers (the
    idealisation of double precision: no rounding, no overflow, no NaN).
    Python exceptions are modelled by the result type [Res]; the script's
    globals, torch's default random generator and a ghost log of every
    argument of [decode] form the [World] that is threaded through the
    script. *)

From Stdlib Require Import List String Ascii ZArith Arith Bool Lia.
From Stdlib Require Import Reals Lra.
Import ListNotations.

Open Scope R_scope.

(** ** Exceptions and results *)

Inductive Exc : Type :=
| FileNotFoundError (msg : string)
| RuntimeError (msg : string)
| IndexError (msg : string)
| NameError (name : string)
| LibraryError (msg : string).

Inductive Res (A : Type) : Type :=
| Ok (a : A)
| Raise (e : Exc).

Arguments Ok {A} a.
Arguments Raise {A} e.

Definition res_bind {A B} (r : Res A) (f : A -> Res B) : Res B :=
  match r with
  | Ok a => f a
  | Raise e => Raise e
  end.

Declare Scope res_scope.
Delimit Scope res_scope with res.
Notation "x <-- r ;; k" := (res_bind r (fun x => k))
  (at level 61, r at next level, right associativity) : res_scope.

(** ** Tensors *)

Record Tensor : Type := mkTensor { shape : list nat; data : list R }.

Definition numel (s : list nat) : nat := fold_right Nat.mul 1%nat s.

Fixpoint shape_eqb (s t : list nat) : bool :=
  match s, t with
  | [], [] => true
  | a :: s', b :: t' => Nat.eqb a b && shape_eqb s' t'
  | _, _ => false
  end.

(** [tabulate2 b c g] is the row-major storage of the [b x c] matrix whose
    entry in row [r] and column [k] is [g r k]. *)
Definition tabulate2 (b c : nat) (g : nat -> nat -> R) : list R :=
  flat_map (fun r => map (g r) (seq 0 c)) (seq 0 b).

(** Entry [(r, k)] of a row-major matrix with [c] columns. *)
Definition get2 (c : nat) (l : list R) (r k : nat) : R := nth (r * c + k) l 0.

Definition sum_list (l : list R) : R := fold_right Rplus 0 l.

(** [x.shape[0]] *)
Definition size0 (x : Tensor) : Res nat :=
  match shape x with
  | n :: _ => Ok n
  | [] => Raise (IndexError "tuple index out of range")
  end.

(** [len(x)]: the number of rows, [0] for a scalar (where Python raises). *)
Definition len (x : Tensor) : nat := hd 0%nat (shape x).

(** [torch.Tensor.view]: at most one entry of the requested shape is [-1]
    and is inferred from the number of elements. *)
Fixpoint known_size (s : list Z) : option nat :=
  match s with
  | [] => Some 1%nat
  | z :: s' =>
      match known_size s' with
      | None => None
      | Some n =>
          if (z =? -1)%Z then Some n
          else if (z <? 0)%Z then None
          else Some (Z.to_nat z * n)%nat
      end
  end.

Definition count_infer (s : list Z) : nat :=
  List.length (filter (fun z => (z =? -1)%Z) s).

Definition fill_infer (q : nat) (s : list Z) : list nat :=
  map (fun z => if (z =? -1)%Z then q else Z.to_nat z) s.

Definition infer_size (s : list Z) (n : nat) : Res (list nat) :=
  match known_size s with
  | None => Raise (RuntimeError "invalid shape dimension")
  | Some newsize =>
      match count_infer s with
      | O =>
          if Nat.eqb n newsize then Ok (fill_infer 0 s)
          else Raise (RuntimeError "shape is invalid for input size")
      | S O =>
          if Nat.eqb newsize 0
          then Raise (RuntimeError "the unspecified dimension size -1 can be any value and is ambiguous")
          else if Nat.eqb (n mod newsize) 0 then Ok (fill_infer (n / newsize) s)
          else Raise (RuntimeError "shape is invalid for input size")
      | _ => Raise (RuntimeError "only one dimension can be inferred")
      end
  end.

Definition view (x : Tensor) (s : list Z) : Res Tensor :=
  (s' <-- infer_size s (numel (shape x)) ;;
   Ok (mkTensor s' (data x)))%res.

(** [torch.arange(n)] *)
Definition arange (n : nat) : Tensor := mkTensor [n] (map INR (seq 0 n)).

(** Pointwise operations. *)
Definition tensor_map (f : R -> R) (x : Tensor) : Tensor :=
  mkTensor (shape x) (map f (data x)).

Definition torch_exp : Tensor -> Tensor := tensor_map exp.
Definition relu : Tensor -> Tensor := tensor_map (Rmax 0).
Definition sigmoid : Tensor -> Tensor := tensor_map (fun v => / (1 + exp (- v))).

Fixpoint zip_with (f : R -> R -> R) (l m : list R) : list R :=
  match l, m with
  | a :: l', b :: m' => f a b :: zip_with f l' m'
  | _, _ => []
  end.

(** [x * y] for tensors of one shape. *)
Definition tensor_mul (x y : Tensor) : Res Tensor :=
  if shape_eqb (shape x) (shape y)
  then Ok (mkTensor (shape x) (zip_with Rmult (data x) (data y)))
  else Raise (RuntimeError "The size of tensor a must match the size of tensor b").

(** [v.expand(s)] for a vector [v] and a matrix shape [s]. *)
Definition expand (v : Tensor) (s : list nat) : Res Tensor :=
  match shape v, s with
  | [c], [b; c'] =>
      if Nat.eqb c c'
      then Ok (mkTensor s (tabulate2 b c (fun _ k => nth k (data v) 0)))
      else if Nat.eqb c 1
      then Ok (mkTensor s (tabulate2 b c' (fun _ _ => nth 0 (data v) 0)))
      else Raise (RuntimeError "The expanded size of the tensor must match the existing size")
  | _, _ => Raise (RuntimeError "expand: unsupported rank")
  end.

(** [x.sum(dim=1)] for a matrix. *)
Definition sum_dim1 (x : Tensor) : Res Tensor :=
  match shape x with
  | [b; c] =>
      Ok (mkTensor [b] (map (fun r => sum_list (map (get2 c (data x) r) (seq 0 c))) (seq 0 b)))
  | _ => Raise (IndexError "Dimension out of range")
  end.

(** [F.log_softmax(x, dim=1)] for a matrix. *)
Definition log_softmax (x : Tensor) : Res Tensor :=
  match shape x with
  | [b; c] =>
      Ok (mkTensor [b; c]
            (tabulate2 b c (fun r k =>
               get2 c (data x) r k
               - ln (sum_list (map (fun j => exp (get2 c (data x) r j)) (seq 0 c))))))
  | _ => Raise (IndexError "Dimension out of range")
  end.

(** [x.unsqueeze(-1)] *)
Definition unsqueeze_last (x : Tensor) : Tensor :=
  mkTensor (shape x ++ [1%nat]) (data x).

(** [x.max()] followed by [.item()] *)
Definition tensor_max (x : Tensor) : Res R :=
  match data x with
  | [] => Raise (RuntimeError "max(): Expected reduction dim to be specified for input.numel() == 0")
  | v :: l => Ok (fold_left Rmax l v)
  end.

(** [torch.cat((x, y))] along dimension 0. *)
Definition cat (x y : Tensor) : Res Tensor :=
  match shape x, shape y with
  | n :: s, m :: t =>
      if shape_eqb s t
      then Ok (mkTensor ((n + m)%nat :: s) (data x ++ data y))
      else Raise (RuntimeError "Sizes of tensors must match except in dimension 0")
  | _, _ => Raise (RuntimeError "zero-dimensional tensor cannot be concatenated")
  end.

(** ** The scoring function (In[7]) *)

(** [score(y) = torch.exp(-2 * (y - 3) ** 2)] *)
Definition score (y : Tensor) : Tensor :=
  tensor_map (fun v => exp (-2 * (v - 3) ^ 2)) y.

(** The last three lines of [score_image]: from the class probabilities
    [probs] (one row per image) to [(probs * scores).sum(dim=1)]. *)
Definition expected_score (probs : Tensor) : Res Tensor :=
  (scores <-- expand (score (arange 10)) (shape probs) ;;
   weighted <-- tensor_mul probs scores ;;
   sum_dim1 weighted)%res.

(** A classifier output that puts all the probability on label [k]. *)
Definition one_hot (k : nat) : Tensor :=
  mkTensor [1%nat; 10%nat] (map (fun j => if Nat.eqb j k then 1 else 0) (seq 0 10)).

(** ** Modules of [torch.nn] and objects of botorch *)

Record Conv2d : Type := mkConv2d {
  in_channels : nat;
  out_channels : nat;
  kernel_size : nat;
  stride : nat;
  conv_weight : Tensor;
  conv_bias : Tensor
}.

Record Linear : Type := mkLinear {
  in_features : nat;
  out_features : nat;
  weight : Tensor;
  bias : Tensor
}.

(** [class Net(nn.Module)] (In[2]) *)
Record Net : Type := mkNet {
  conv1 : Conv2d;
  conv2 : Conv2d;
  fc1 : Linear;
  fc2 : Linear
}.

(** [class VAE(nn.Module)] (In[6]) *)
Record VAE : Type := mkVAE {
  vfc1 : Linear;
  vfc21 : Linear;
  vfc22 : Linear;
  vfc3 : Linear;
  vfc4 : Linear
}.

Definition StateDict : Type := list (string * Tensor).

Fixpoint lookup (sd : StateDict) (k : string) : option Tensor :=
  match sd with
  | [] => None
  | (k', t) :: sd' => if String.eqb k k' then Some t else lookup sd' k
  end.

(** The [sampler] argument of an MC acquisition function. *)
Record Sampler : Type := SobolQMCNormalSampler {
  sample_shape : nat;
  sampler_seed : option Z
}.

(** The arguments [qExpectedImprovement(model, best_f, sampler=None)] keeps. *)
Record qEI (GP : Type) : Type := qExpectedImprovement {
  acq_model : GP;
  acq_best_f : R;
  acq_sampler : option Sampler
}.

Arguments qExpectedImprovement {GP} _ _ _.
Arguments acq_model {GP} _.
Arguments acq_best_f {GP} _.
Arguments acq_sampler {GP} _.

(** ** The libraries the script runs on

    What torch, gpytorch and botorch compute numerically is a parameter of
    the development: the random generator, the numerical kernels of the
    network layers (their shape rules are modelled below), the Gaussian
    process and the optimiser of the acquisition function. *)
Record Runtime : Type := mkRuntime {
  Gen : Type;
  GP : Type;
  (** [torch.manual_seed]: the state of the default generator after seeding *)
  manual_seed : Z -> Gen;
  (** [torch.rand]: that many uniform draws *)
  uniform : nat -> Gen -> list R * Gen;
  (** [reset_parameters] of a fresh layer: the initial entries of a parameter *)
  reset_parameters : list nat -> Gen -> list R * Gen;
  conv2d_kernel : Conv2d -> Tensor -> list R;
  max_pool2d_kernel : nat -> nat -> Tensor -> list R;
  linear_kernel : Linear -> Tensor -> list R;
  (** [SingleTaskGP(train_X, train_Y, outcome_transform=Standardize(m=1))] *)
  SingleTaskGP : Tensor -> Tensor -> Res GP;
  gp_load_state_dict : GP -> StateDict -> Res GP;
  gp_state_dict : GP -> StateDict;
  (** [fit_gpytorch_mll] on the marginal log likelihood of a model *)
  fit_gpytorch_mll : GP -> Gen -> Res GP * Gen;
  (** [optimize_acqf(acq_function, bounds, q, num_restarts, raw_samples)] *)
  optimize_acqf : qEI GP -> Tensor -> nat -> nat -> nat -> Gen -> Res (Tensor * R) * Gen
}.

(** ** The process environment *)

Record Env : Type := mkEnv {
  (** [os.environ] *)
  environ : string -> option string;
  (** [os.getcwd()] *)
  getcwd : string;
  (** the state dicts [torch.load] finds, by path *)
  files : string -> option StateDict
}.

(** [os.path.basename(p)]: what follows the last slash. *)
Fixpoint basename_from (acc p : string) : string :=
  match p with
  | EmptyString => acc
  | String c p' =>
      if Ascii.eqb c "/"%char then basename_from EmptyString p'
      else basename_from (acc ++ String c EmptyString) p'
  end.

Definition basename (p : string) : string := basename_from EmptyString p.

Fixpoint ends_with_sep (p : string) : bool :=
  match p with
  | EmptyString => false
  | String c EmptyString => Ascii.eqb c "/"%char
  | String _ p' => ends_with_sep p'
  end.

Definition starts_with_sep (p : string) : bool :=
  match p with
  | String c _ => Ascii.eqb c "/"%char
  | EmptyString => false
  end.

(** [os.path.join(a, b)] *)
Definition path_join (a b : string) : string :=
  if starts_with_sep b then b
  else if String.eqb a EmptyString || ends_with_sep a then (a ++ b)%string
  else (a ++ "/" ++ b)%string.

(** [get_pretrained_dir()] (In[4]) *)
Definition get_pretrained_dir (env : Env) : Res string :=
  match environ env "PRETRAINED_LOCATION" with
  | Some loc => Ok loc
  | None =>
      let cwd := getcwd env in
      let folder := basename cwd in
      if String.eqb folder "botorch" then Ok (path_join cwd "tutorials/pretrained_models/")
      else if String.eqb folder "tutorials" then Ok (path_join cwd "pretrained_models/")
      else Raise (FileNotFoundError "Could not figure out location of pretrained models.")
  end.

(** [torch.load(path, map_location=device, weights_only=True)] *)
Definition torch_load (env : Env) (path : string) : Res StateDict :=
  match files env path with
  | Some sd => Ok sd
  | None => Raise (FileNotFoundError path)
  end.

(** [SMOKE_TEST = os.environ.get("SMOKE_TEST", False)], as a truth value. *)
Definition SMOKE_TEST (env : Env) : bool :=
  match environ env "SMOKE_TEST" with
  | Some v => negb (String.eqb v EmptyString)
  | None => false
  end.

(** The constants of a run. *)
Record Config : Type := mkConfig {
  n_init : nat;
  BATCH_SIZE : nat;
  NUM_RESTARTS : nat;
  RAW_SAMPLES : nat;
  N_BATCH : nat;
  seed : Z
}.

(** The values the script gives them (In[11], In[12]). *)
Definition script_config (env : Env) : Config :=
  let smoke := SMOKE_TEST env in
  {| n_init := 5;
     BATCH_SIZE := if negb smoke then 3 else 2;
     NUM_RESTARTS := if negb smoke then 10 else 2;
     RAW_SAMPLES := if negb smoke then 256 else 4;
     N_BATCH := if negb smoke then 25 else 3;
     seed := 1 |}.

(** [d = 20] and [bounds = torch.tensor([[-6.0] * d, [6.0] * d])] (In[10]) *)
Definition d : nat := 20.
Definition bounds : Tensor := mkTensor [2%nat; d] (repeat (-6) d ++ repeat 6 d).

(** [torch.stack([torch.zeros(d), torch.ones(d)])] *)
Definition unit_cube : Tensor := mkTensor [2%nat; d] (repeat 0 d ++ repeat 1 d).

(** Apply [f k] to every entry, [k] being the entry's column in a row-major
    tensor whose last dimension is [c]. *)
Definition map_columns (c : nat) (f : nat -> R -> R) (l : list R) : list R :=
  map (fun p => f (fst p mod c)%nat (snd p)) (combine (seq 0 (List.length l)) l).

Definition lower (b : Tensor) (k : nat) : R := nth k (data b) 0.
Definition upper (b : Tensor) (k : nat) : R := nth (last (shape b) 0%nat + k) (data b) 0.

(** Modelled from the spec: [botorch.utils.transforms.unnormalize] is not
    among the sources; the spec describes it as the affine transform that
    maps the unit cube onto the box [bounds], that is
    [X * (bounds[1] - bounds[0]) + bounds[0]]. *)
Definition unnormalize (X b : Tensor) : Res Tensor :=
  match shape b, shape X with
  | [2%nat; c], _ :: _ =>
      if Nat.eqb (last (shape X) 0%nat) c
      then Ok (mkTensor (shape X)
                 (map_columns c (fun k v => v * (upper b k - lower b k) + lower b k) (data X)))
      else Raise (RuntimeError "The size of tensor a must match the size of tensor b")
  | _, _ => Raise (RuntimeError "bounds must be a 2 x d tensor")
  end.

(** Modelled from the spec: [botorch.utils.transforms.normalize] is not
    among the sources; it is the inverse affine transform,
    [(X - bounds[0]) / (bounds[1] - bounds[0])]. *)
Definition normalize (X b : Tensor) : Res Tensor :=
  match shape b, shape X with
  | [2%nat; c], _ :: _ =>
      if Nat.eqb (last (shape X) 0%nat) c
      then Ok (mkTensor (shape X)
                 (map_columns c (fun k v => (v - lower b k) / (upper b k - lower b k)) (data X)))
      else Raise (RuntimeError "The size of tensor a must match the size of tensor b")
  | _, _ => Raise (RuntimeError "bounds must be a 2 x d tensor")
  end.

(** ** The script *)

Section Script.

Variable rt : Runtime.
Variable env : Env.

(** The state the script runs in: the default random generator, the ghost
    log [decoded] of the arguments [decode] was called with (oldest
    first), and the globals the script binds ([None]: not bound yet). *)
Record World : Type := mkWorld {
  gen : Gen rt;
  decoded : list Tensor;
  cnn_model : option Net;
  vae_model : option VAE;
  train_x : option Tensor;
  train_obj : option Tensor;
  best_observed : option (list R);
  state_dict : option (option StateDict)
}.

Definition set_gen (g : Gen rt) (w : World) : World :=
  mkWorld g (decoded w) (cnn_model w) (vae_model w) (train_x w) (train_obj w)
    (best_observed w) (state_dict w).
Definition set_decoded (l : list Tensor) (w : World) : World :=
  mkWorld (gen w) l (cnn_model w) (vae_model w) (train_x w) (train_obj w)
    (best_observed w) (state_dict w).
Definition set_cnn_model (n : Net) (w : World) : World :=
  mkWorld (gen w) (decoded w) (Some n) (vae_model w) (train_x w) (train_obj w)
    (best_observed w) (state_dict w).
Definition set_vae_model (v : VAE) (w : World) : World :=
  mkWorld (gen w) (decoded w) (cnn_model w) (Some v) (train_x w) (train_obj w)
    (best_observed w) (state_dict w).
Definition set_train_x (t : Tensor) (w : World) : World :=
  mkWorld (gen w) (decoded w) (cnn_model w) (vae_model w) (Some t) (train_obj w)
    (best_observed w) (state_dict w).
Definition set_train_obj (t : Tensor) (w : World) : World :=
  mkWorld (gen w) (decoded w) (cnn_model w) (vae_model w) (train_x w) (Some t)
    (best_observed w) (state_dict w).
Definition set_best_observed (l : list R) (w : World) : World :=
  mkWorld (gen w) (decoded w) (cnn_model w) (vae_model w) (train_x w) (train_obj w)
    (Some l) (state_dict w).
Definition set_state_dict (s : option StateDict) (w : World) : World :=
  mkWorld (gen w) (decoded w) (cnn_model w) (vae_model w) (train_x w) (train_obj w)
    (best_observed w) (Some s).

(** The interpreter at start-up: nothing bound, nothing decoded. *)
Definition initial_world (g : Gen rt) : World :=
  mkWorld g [] None None None None None None.

(** Computations of the script: a result or an exception, and the world
    they leave behind in both cases. *)
Definition M (A : Type) : Type := World -> Res A * World.

Definition ret {A} (a : A) : M A := fun w => (Ok a, w).

Definition bind {A B} (m : M A) (f : A -> M B) : M B :=
  fun w =>
    match m w with
    | (Ok a, w') => f a w'
    | (Raise e, w') => (Raise e, w')
    end.

Definition lift {A} (r : Res A) : M A := fun w => (r, w).

Definition modify (f : World -> World) : M unit := fun w => (Ok tt, f w).

(** Reading a global: a [NameError] while it is not bound. *)
Definition global {A} (name : string) (field : World -> option A) : M A :=
  fun w =>
    match field w with
    | Some a => (Ok a, w)
    | None => (Raise (NameError name), w)
    end.

(** A library call that draws from the default generator. *)
Definition sample {A} (f : Gen rt -> A * Gen rt) : M A :=
  fun w => (Ok (fst (f (gen w))), set_gen (snd (f (gen w))) w).

Definition call {A} (f : Gen rt -> Res A * Gen rt) : M A :=
  fun w => (fst (f (gen w)), set_gen (snd (f (gen w))) w).

Notation "x <- m ;; k" := (bind m (fun x => k))
  (at level 61, m at next level, right associativity).
Notation "m ;;; k" := (bind m (fun _ => k))
  (at level 61, right associativity).

(** *** Layers *)

(** [nn.Conv2d(cin, cout, k, s)]: a layer with freshly drawn parameters. *)
Definition Conv2d_new (cin cout k s : nat) : M Conv2d :=
  w <- sample (reset_parameters rt [cout; cin; k; k]) ;;
  b <- sample (reset_parameters rt [cout]) ;;
  ret (mkConv2d cin cout k s (mkTensor [cout; cin; k; k] w) (mkTensor [cout] b)).

(** [nn.Linear(i, o)] *)
Definition Linear_new (i o : nat) : M Linear :=
  w <- sample (reset_parameters rt [o; i]) ;;
  b <- sample (reset_parameters rt [o]) ;;
  ret (mkLinear i o (mkTensor [o; i] w) (mkTensor [o] b)).

(** [Net.__init__] *)
Definition Net_new : M Net :=
  c1 <- Conv2d_new 1 20 5 1 ;;
  c2 <- Conv2d_new 20 50 5 1 ;;
  f1 <- Linear_new (4 * 4 * 50) 500 ;;
  f2 <- Linear_new 500 10 ;;
  ret (mkNet c1 c2 f1 f2).

(** [VAE.__init__] *)
Definition VAE_new : M VAE :=
  f1 <- Linear_new 784 400 ;;
  f21 <- Linear_new 400 20 ;;
  f22 <- Linear_new 400 20 ;;
  f3 <- Linear_new 20 400 ;;
  f4 <- Linear_new 400 784 ;;
  ret (mkVAE f1 f21 f22 f3 f4).

(** A convolution without padding on a batch [b x c x h x w]. *)
Definition conv2d (l : Conv2d) (x : Tensor) : Res Tensor :=
  match shape x with
  | [b; c; h; w] =>
      if Nat.eqb c (in_channels l) && Nat.leb (kernel_size l) h
         && Nat.leb (kernel_size l) w && Nat.leb 1 (stride l)
      then Ok (mkTensor [b; out_channels l;
                         (h - kernel_size l) / stride l + 1;
                         (w - kernel_size l) / stride l + 1]%nat
                 (conv2d_kernel rt l x))
      else Raise (RuntimeError "conv2d: input does not fit the layer")
  | _ => Raise (RuntimeError "conv2d: expected a 4D input")
  end.

(** [F.max_pool2d(x, k, s)] on a batch [b x c x h x w]. *)
Definition max_pool2d (x : Tensor) (k s : nat) : Res Tensor :=
  match shape x with
  | [b; c; h; w] =>
      if Nat.leb k h && Nat.leb k w && Nat.leb 1 s
      then Ok (mkTensor [b; c; (h - k) / s + 1; (w - k) / s + 1]%nat
                 (max_pool2d_kernel rt k s x))
      else Raise (RuntimeError "max_pool2d: input too small")
  | _ => Raise (RuntimeError "max_pool2d: expected a 4D input")
  end.

(** A linear layer on the last dimension. *)
Definition linear (l : Linear) (x : Tensor) : Res Tensor :=
  match shape x with
  | [] => Raise (RuntimeError "linear: expected at least a 1D input")
  | _ :: _ =>
      if Nat.eqb (last (shape x) 0%nat) (in_features l)
      then Ok (mkTensor (removelast (shape x) ++ [out_features l]) (linear_kernel rt l x))
      else Raise (RuntimeError "mat1 and mat2 shapes cannot be multiplied")
  end.

(** [Net.forward] *)
Definition Net_forward (self : Net) (x : Tensor) : Res Tensor :=
  (x <-- conv2d (conv1 self) x ;;
   let x := relu x in
   x <-- max_pool2d x 2 2 ;;
   x <-- conv2d (conv2 self) x ;;
   let x := relu x in
   x <-- max_pool2d x 2 2 ;;
   x <-- view x [(-1)%Z; (4 * 4 * 50)%Z] ;;
   x <-- linear (fc1 self) x ;;
   let x := relu x in
   x <-- linear (fc2 self) x ;;
   log_softmax x)%res.

(** [VAE.decode] *)
Definition VAE_decode (self : VAE) (z : Tensor) : Res Tensor :=
  (h3 <-- linear (vfc3 self) z ;;
   let h3 := relu h3 in
   h4 <-- linear (vfc4 self) h3 ;;
   Ok (sigmoid h4))%res.

(** *** [load_state_dict] (strict) *)

Definition state_dict_error {A} : Res A :=
  Raise (RuntimeError "Error(s) in loading state_dict").

Definition load_param (sd : StateDict) (name : string) (p : Tensor) : Res Tensor :=
  match lookup sd name with
  | Some t => if shape_eqb (shape t) (shape p) then Ok t else state_dict_error
  | None => state_dict_error
  end.

Definition load_Conv2d (sd : StateDict) (prefix : string) (l : Conv2d) : Res Conv2d :=
  (w <-- load_param sd (prefix ++ ".weight") (conv_weight l) ;;
   b <-- load_param sd (prefix ++ ".bias") (conv_bias l) ;;
   Ok (mkConv2d (in_channels l) (out_channels l) (kernel_size l) (stride l) w b))%res.

Definition load_Linear (sd : StateDict) (prefix : string) (l : Linear) : Res Linear :=
  (w <-- load_param sd (prefix ++ ".weight") (weight l) ;;
   b <-- load_param sd (prefix ++ ".bias") (bias l) ;;
   Ok (mkLinear (in_features l) (out_features l) w b))%res.

Definition expected_keys (prefixes : list string) : list string :=
  flat_map (fun p => [p ++ ".weight"; p ++ ".bias"]%string) prefixes.

Definition no_unexpected_keys (sd : StateDict) (keys : list string) : bool :=
  forallb (fun kv => existsb (String.eqb (fst kv)) keys) sd.

Definition Net_load_state_dict (self : Net) (sd : StateDict) : Res Net :=
  if no_unexpected_keys sd (expected_keys ["conv1"; "conv2"; "fc1"; "fc2"]%string)
  then
    (c1 <-- load_Conv2d sd "conv1" (conv1 self) ;;
     c2 <-- load_Conv2d sd "conv2" (conv2 self) ;;
     f1 <-- load_Linear sd "fc1" (fc1 self) ;;
     f2 <-- load_Linear sd "fc2" (fc2 self) ;;
     Ok (mkNet c1 c2 f1 f2))%res
  else state_dict_error.

Definition VAE_load_state_dict (self : VAE) (sd : StateDict) : Res VAE :=
  if no_unexpected_keys sd (expected_keys ["fc1"; "fc21"; "fc22"; "fc3"; "fc4"]%string)
  then
    (f1 <-- load_Linear sd "fc1" (vfc1 self) ;;
     f21 <-- load_Linear sd "fc21" (vfc21 self) ;;
     f22 <-- load_Linear sd "fc22" (vfc22 self) ;;
     f3 <-- load_Linear sd "fc3" (vfc3 self) ;;
     f4 <-- load_Linear sd "fc4" (vfc4 self) ;;
     Ok (mkVAE f1 f21 f22 f3 f4))%res
  else state_dict_error.

(** *** Loading the pretrained models (In[5], In[6]) *)

Definition load_cnn_model : M unit :=
  dir <- lift (get_pretrained_dir env) ;;
  let cnn_weights_path := path_join dir "mnist_cnn.pt" in
  net <- Net_new ;;
  modify (set_cnn_model net) ;;;
  cnn_state_dict <- lift (torch_load env cnn_weights_path) ;;
  net <- lift (Net_load_state_dict net cnn_state_dict) ;;
  modify (set_cnn_model net).

Definition load_vae_model : M unit :=
  dir <- lift (get_pretrained_dir env) ;;
  let vae_weights_path := path_join dir "mnist_vae.pt" in
  vae <- VAE_new ;;
  modify (set_vae_model vae) ;;;
  vae_state_dict <- lift (torch_load env vae_weights_path) ;;
  vae <- lift (VAE_load_state_dict vae vae_state_dict) ;;
  modify (set_vae_model vae).

(** *** The objective (In[8], In[9]) *)

(** [score_image(x)] *)
Definition score_image (x : Tensor) : M Tensor :=
  cnn <- global "cnn_model" cnn_model ;;
  logp <- lift (Net_forward cnn x) ;;
  let probs := torch_exp logp in
  lift (expected_score probs).

(** [decode(train_x)]; its argument goes to the ghost log first. *)
Definition decode (x : Tensor) : M Tensor :=
  modify (fun w => set_decoded (decoded w ++ [x]) w) ;;;
  vae <- global "vae_model" vae_model ;;
  dec <- lift (VAE_decode vae x) ;;
  n <- lift (size0 x) ;;
  lift (view dec [Z.of_nat n; 1%Z; 28%Z; 28%Z]).

(** The objective [score_image(decode(x))], as lines 189 and 243 call it. *)
Definition evaluate (x : Tensor) : M Tensor :=
  img <- decode x ;;
  score_image img.

(** *** Initial data and model fitting (In[10]) *)

(** [torch.rand(n, d)] *)
Definition torch_rand (n c : nat) : M Tensor :=
  v <- sample (uniform rt (n * c)) ;;
  ret (mkTensor [n; c] v).

(** [gen_initial_data(n)] *)
Definition gen_initial_data (n : nat) : M (Tensor * Tensor * R) :=
  u <- torch_rand n d ;;
  x <- lift (unnormalize u bounds) ;;
  s <- evaluate x ;;
  let obj := unsqueeze_last s in
  best_observed_value <- lift (tensor_max obj) ;;
  ret (x, obj, best_observed_value).

(** [get_fitted_model(train_x, train_obj, state_dict)] *)
Definition get_fitted_model (x obj : Tensor) (sd : option StateDict) : M (GP rt) :=
  nx <- lift (normalize x bounds) ;;
  model <- lift (SingleTaskGP rt nx obj) ;;
  model <- match sd with
           | Some s => lift (gp_load_state_dict rt model s)
           | None => ret model
           end ;;
  call (fit_gpytorch_mll rt model).

(** *** The BO step (In[11]) *)

(** [optimize_acqf_and_get_observation(acq_func)] *)
Definition optimize_acqf_and_get_observation (cfg : Config) (acq_func : qEI (GP rt))
  : M (Tensor * Tensor) :=
  res <- call (optimize_acqf rt acq_func unit_cube
                 (BATCH_SIZE cfg) (NUM_RESTARTS cfg) (RAW_SAMPLES cfg)) ;;
  let candidates := fst res in
  new_x <- lift (unnormalize candidates bounds) ;;
  s <- evaluate new_x ;;
  ret (new_x, unsqueeze_last s).

(** *** The loop (In[12], In[13]) *)

(** [qExpectedImprovement(model=model, best_f=train_obj.max())] *)
Definition make_qEI (model : GP rt) (obj : Tensor) : Res (qEI (GP rt)) :=
  (best_f <-- tensor_max obj ;;
   Ok (qExpectedImprovement model best_f None))%res.

(** In[12]: seed the generator and draw the initial batch. *)
Definition bo_init (cfg : Config) : M unit :=
  modify (set_gen (manual_seed rt (seed cfg))) ;;;
  modify (set_best_observed []) ;;;
  r <- gen_initial_data (n_init cfg) ;;
  modify (set_train_x (fst (fst r))) ;;;
  modify (set_train_obj (snd (fst r))) ;;;
  h <- global "best_observed" best_observed ;;
  modify (set_best_observed (h ++ [snd r])).

(** The body of the loop of In[13]. *)
Definition bo_iteration (cfg : Config) : M unit :=
  x <- global "train_x" train_x ;;
  obj <- global "train_obj" train_obj ;;
  sd <- global "state_dict" state_dict ;;
  model <- get_fitted_model x obj sd ;;
  acq <- lift (make_qEI model obj) ;;
  new <- optimize_acqf_and_get_observation cfg acq ;;
  x' <- lift (cat x (fst new)) ;;
  modify (set_train_x x') ;;;
  obj' <- lift (cat obj (snd new)) ;;
  modify (set_train_obj obj') ;;;
  best_value <- lift (tensor_max obj') ;;
  h <- global "best_observed" best_observed ;;
  modify (set_best_observed (h ++ [best_value])) ;;;
  modify (set_state_dict (Some (gp_state_dict rt model))).

(** [for iteration in range(k)] *)
Fixpoint bo_loop (cfg : Config) (k : nat) : M unit :=
  match k with
  | O => ret tt
  | S k' => bo_iteration cfg ;;; bo_loop cfg k'
  end.

(** In[12] and the first [k] rounds of the loop of In[13]. *)
Definition bo_run (cfg : Config) (k : nat) : M unit :=
  bo_init cfg ;;;
  modify (set_state_dict None) ;;;
  bo_loop cfg k.

(** In[1] to In[12] and the first [k] rounds of the loop, for any
    constants [cfg]. *)
Definition script_upto (cfg : Config) (k : nat) : M unit :=
  load_cnn_model ;;;
  load_vae_model ;;;
  bo_run cfg k.

(** The script from In[1] to In[13]. *)
Definition script : M unit :=
  script_upto (script_config env) (N_BATCH (script_config env)).

End Script.

Arguments gen {rt} _.
Arguments decoded {rt} _.
Arguments cnn_model {rt} _.
Arguments vae_model {rt} _.
Arguments train_x {rt} _.
Arguments train_obj {rt} _.
Arguments best_observed {rt} _.
Arguments state_dict {rt} _.
Arguments set_gen {rt} _ _.
Arguments set_decoded {rt} _ _.
Arguments set_cnn_model {rt} _ _.
Arguments set_vae_model {rt} _ _.
Arguments set_train_x {rt} _ _.
Arguments set_train_obj {rt} _ _.
Arguments set_best_observed {rt} _ _.
Arguments set_state_dict {rt} _ _.
Arguments ret {rt A} _ _.
Arguments bind {rt A B} _ _ _.
Arguments lift {rt A} _ _.
Arguments modify {rt} _ _.
Arguments global {rt A} _ _ _.
Arguments sample {rt A} _ _.
Arguments call {rt A} _ _.

Notation "x <- m ;; k" := (bind m (fun x => k))
  (at level 61, m at next level, right associativity).
Notation "m ;;; k" := (bind m (fun _ => k))
  (at level 61, right associativity).

(** ** The properties the claims speak of *)

(** A score: a real in the interval (0, 1]. *)
Definition is_score (v : R) : Prop := 0 < v <= 1.

(** [x] is a batch of points of the box [b], componentwise. *)
Definition within (b x : Tensor) : Prop :=
  (exists n, shape x = [n; last (shape b) 0%nat]) /\
  forall i, (i < List.length (data x))%nat ->
    lower b (i mod last (shape b) 0%nat) <= nth i (data x) 0
    <= upper b (i mod last (shape b) 0%nat).

(** Every entry lies between [lo] and [hi]. *)
Definition entries_between (lo hi : R) (x : Tensor) : Prop :=
  Forall (fun v => lo <= v <= hi) (data x).

Definition nondecreasing (h : list R) : Prop :=
  forall i, (S i < List.length h)%nat -> nth i h 0 <= nth (S i) h 0.

Definition is_max (m : R) (l : list R) : Prop :=
  In m l /\ Forall (fun v => v <= m) l.

(** [data y] continues [data x]: the rows of [x] are the first rows of [y]. *)
Definition extends (x y : Tensor) : Prop :=
  exists rows, data y = data x ++ rows.

(** What the script relies on from the libraries.  [torch.rand] draws from
    [0, 1); [optimize_acqf] returns [q] candidates of the dimension of its
    bounds; run on the unit cube, it returns points of the unit cube. *)
Definition uniform_in_unit_interval (rt : Runtime) : Prop :=
  forall n g, Forall (fun v => 0 <= v < 1) (fst (uniform rt n g)).

Definition optimizer_returns_batch (rt : Runtime) : Prop :=
  forall acq b q r s g cand v g',
    optimize_acqf rt acq b q r s g = (Ok (cand, v), g') ->
    shape cand = [q; last (shape b) 0%nat].

Definition optimizer_within_bounds (rt : Runtime) : Prop :=
  forall acq q r s g cand v g',
    optimize_acqf rt acq unit_cube q r s g = (Ok (cand, v), g') ->
    within unit_cube cand.

(** The architecture [Net.__init__] and [VAE.__init__] fix. *)
Definition conv_dims (l : Conv2d) : nat * nat * nat * nat :=
  (in_channels l, out_channels l, kernel_size l, stride l).

Definition linear_dims (l : Linear) : nat * nat := (in_features l, out_features l).

Definition Net_architecture (n : Net) : Prop :=
  conv_dims (conv1 n) = (1, 20, 5, 1)%nat /\
  conv_dims (conv2 n) = (20, 50, 5, 1)%nat /\
  linear_dims (fc1 n) = (800, 500)%nat /\
  linear_dims (fc2 n) = (500, 10)%nat.

Definition VAE_architecture (v : VAE) : Prop :=
  linear_dims (vfc3 v) = (20, 400)%nat /\
  linear_dims (vfc4 v) = (400, 784)%nat.

Definition models_loaded {rt} (w : World rt) : Prop :=
  (exists n, cnn_model w = Some n /\ Net_architecture n) /\
  (exists v, vae_model w = Some v /\ VAE_architecture v).

(** "Approximately [ref]": within a tenth of [ref]. *)
Definition approximately (ref v : R) : Prop := Rabs (v - ref) <= Rabs ref / 10.

(** ** A small instance of the libraries and of the environment *)

Module Toy.

Definition zeros (s : list nat) : Tensor := mkTensor s (repeat 0 (numel s)).

Definition rt : Runtime :=
  {| Gen := nat;
     GP := unit;
     manual_seed := fun s => Z.to_nat s;
     uniform := fun n g => (repeat (1 / 2) n, S g);
     reset_parameters := fun s g => (repeat 0 (numel s), S g);
     conv2d_kernel := fun _ _ => [];
     max_pool2d_kernel := fun _ _ _ => [];
     linear_kernel := fun _ _ => [];
     SingleTaskGP := fun _ _ => Ok tt;
     gp_load_state_dict := fun m _ => Ok m;
     gp_state_dict := fun _ => [];
     fit_gpytorch_mll := fun m g => (Ok m, g);
     optimize_acqf := fun _ b q _ _ g =>
       (Ok (mkTensor [q; last (shape b) 0%nat] (repeat (1 / 4) (q * last (shape b) 0%nat)), 0), S g)
  |}.

Definition cnn_state_dict : StateDict :=
  [ ("conv1.weight", zeros [20; 1; 5; 5]); ("conv1.bias", zeros [20]);
    ("conv2.weight", zeros [50; 20; 5; 5]); ("conv2.bias", zeros [50]);
    ("fc1.weight", zeros [500; 800]); ("fc1.bias", zeros [500]);
    ("fc2.weight", zeros [10; 500]); ("fc2.bias", zeros [10]) ]%string%nat.

Definition vae_state_dict : StateDict :=
  [ ("fc1.weight", zeros [400; 784]); ("fc1.bias", zeros [400]);
    ("fc21.weight", zeros [20; 400]); ("fc21.bias", zeros [20]);
    ("fc22.weight", zeros [20; 400]); ("fc22.bias", zeros [20]);
    ("fc3.weight", zeros [400; 20]); ("fc3.bias", zeros [400]);
    ("fc4.weight", zeros [784; 400]); ("fc4.bias", zeros [784]) ]%string%nat.

(** Run from the folder [tutorials], with both weight files in place. *)
Definition env : Env :=
  {| environ := fun _ => None;
     getcwd := "/home/user/botorch/tutorials";
     files := fun p =>
       if String.eqb p "/home/user/botorch/tutorials/pretrained_models/mnist_cnn.pt"
       then Some cnn_state_dict
       else if String.eqb p "/home/user/botorch/tutorials/pretrained_models/mnist_vae.pt"
       then Some vae_state_dict
       else None |}.

(** Run from a folder the script does not know, no variable set. *)
Definition env_elsewhere : Env :=
  {| environ := fun _ => None;
     getcwd := "/home/user";
     files := fun _ => None |}.

Definition cfg : Config :=
  {| n_init := 5; BATCH_SIZE := 3; NUM_RESTARTS := 10; RAW_SAMPLES := 256;
     N_BATCH := 2; seed := 1 |}.

End Toy.

(** The reward of a label, as [score] computes it on [torch.arange(10)]. *)
Definition reward (label : nat) : R := exp (-2 * (INR label - 3) ^ 2).

(** The expectation of [reward] under row [r] of the probabilities [p]. *)
Definition expectation (p : list R) (r : nat) : R :=
  sum_list (map (fun k => get2 10 p r k * reward k) (seq 0 10)).

(** ** Fixed-point enclosures, to bound values of [exp] *)

(** [(l, u)] encloses [v] when [l / fx_one <= v <= u / fx_one]. *)
Definition fx_one : Z := (10 ^ 24)%Z.

Definition encloses (p : Z * Z) (v : R) : Prop :=
  (0 <= fst p)%Z /\ IZR (fst p) / IZR fx_one <= v <= IZR (snd p) / IZR fx_one.

Definition fx_square (p : Z * Z) : Z * Z :=
  ((fst p * fst p) / fx_one, (snd p * snd p) / fx_one + 1)%Z.

Fixpoint fx_iter_square (k : nat) (p : Z * Z) : Z * Z :=
  match k with
  | O => p
  | S k' => fx_iter_square k' (fx_square p)
  end.

(** An enclosure of [exp (- 18 / 2 ^ 20)], from [1 + x <= exp x]. *)
Definition fx_base : Z * Z :=
  (fx_one - (18 * fx_one) / 2 ^ 20 - 1, (fx_one * 2 ^ 20) / (2 ^ 20 + 18) + 1)%Z.

(** ** Relations between worlds *)

(** The results of the run (the log, the dataset, the history and the
    carried model state) are the same in both worlds. *)
Definition same_results {rt} (w w' : World rt) : Prop :=
  decoded w' = decoded w /\ train_x w' = train_x w /\ train_obj w' = train_obj w /\
  best_observed w' = best_observed w /\ state_dict w' = state_dict w.

(** The interpreter has bound none of the results and decoded nothing. *)
Definition no_results {rt} (w : World rt) : Prop :=
  decoded w = [] /\ train_x w = None /\ train_obj w = None /\
  best_observed w = None /\ state_dict w = None.

(** The exceptions of the set-up: the location or a file of the pretrained
    models is not found, or a state dict does not fit its model. *)
Definition configuration_error (e : Exc) : Prop :=
  (exists msg, e = FileNotFoundError msg) \/
  e = RuntimeError "Error(s) in loading state_dict".

(** The parameter shapes of models as [Net()] and [VAE()] build them. *)
Definition conv_layout (l : Conv2d) : list nat * list nat :=
  (shape (conv_weight l), shape (conv_bias l)).

Definition linear_layout (l : Linear) : list nat * list nat :=
  (shape (weight l), shape (bias l)).

Definition Net_layout (n : Net) : Prop :=
  conv_layout (conv1 n) = ([20; 1; 5; 5], [20])%nat /\
  conv_layout (conv2 n) = ([50; 20; 5; 5], [50])%nat /\
  linear_layout (fc1 n) = ([500; 800], [500])%nat /\
  linear_layout (fc2 n) = ([10; 500], [10])%nat.

Definition VAE_layout (v : VAE) : Prop :=
  linear_layout (vfc1 v) = ([400; 784], [400])%nat /\
  linear_layout (vfc21 v) = ([20; 400], [20])%nat /\
  linear_layout (vfc22 v) = ([20; 400], [20])%nat /\
  linear_layout (vfc3 v) = ([400; 20], [400])%nat /\
  linear_layout (vfc4 v) = ([784; 400], [784])%nat.

Definition VAE_dims (v : VAE) : Prop :=
  linear_dims (vfc1 v) = (784, 400)%nat /\
  linear_dims (vfc21 v) = (400, 20)%nat /\
  linear_dims (vfc22 v) = (400, 20)%nat /\
  VAE_architecture v.

(** ** The pretrained models, as the files determine them *)

Definition blank (s : list nat) : Tensor := mkTensor s [].

(** Models with the parameter shapes of [Net()] and [VAE()], and no values. *)
Definition blank_Net : Net :=
  mkNet (mkConv2d 1 20 5 1 (blank [20; 1; 5; 5]%nat) (blank [20%nat]))
        (mkConv2d 20 50 5 1 (blank [50; 20; 5; 5]%nat) (blank [50%nat]))
        (mkLinear (4 * 4 * 50) 500 (blank [500; 4 * 4 * 50]%nat) (blank [500%nat]))
        (mkLinear 500 10 (blank [10; 500]%nat) (blank [10%nat])).

Definition blank_VAE : VAE :=
  mkVAE (mkLinear 784 400 (blank [400; 784]%nat) (blank [400%nat]))
        (mkLinear 400 20 (blank [20; 400]%nat) (blank [20%nat]))
        (mkLinear 400 20 (blank [20; 400]%nat) (blank [20%nat]))
        (mkLinear 20 400 (blank [400; 20]%nat) (blank [400%nat]))
        (mkLinear 400 784 (blank [784; 400]%nat) (blank [784%nat])).

(** The classifier and the decoder the script ends up with: a function of
    the environment alone. *)
Definition pretrained_cnn (env : Env) : Res Net :=
  (dir <-- get_pretrained_dir env ;;
   sd <-- torch_load env (path_join dir "mnist_cnn.pt") ;;
   Net_load_state_dict blank_Net sd)%res.

Definition pretrained_vae (env : Env) : Res VAE :=
  (dir <-- get_pretrained_dir env ;;
   sd <-- torch_load env (path_join dir "mnist_vae.pt") ;;
   VAE_load_state_dict blank_VAE sd)%res.

(** ** When the set-up cannot succeed *)

(** Neither the environment variable nor the working-directory convention
    gives the location of the pretrained models. *)
Definition location_unresolved (env : Env) : Prop :=
  environ env "PRETRAINED_LOCATION" = None /\
  basename (getcwd env) <> "botorch"%string /\
  basename (getcwd env) <> "tutorials"%string.

(** The location is resolved, but a weights file is not there. *)
Definition weights_missing (env : Env) : Prop :=
  exists dir, get_pretrained_dir env = Ok dir /\
    (files env (path_join dir "mnist_cnn.pt") = None \/
     files env (path_join dir "mnist_vae.pt") = None).

(** ** Concrete worlds for the small instance *)

(** A world in which both models are bound. *)
Definition toy_loaded_world : World Toy.rt :=
  mkWorld Toy.rt 0%nat [] (Some blank_Net) (Some blank_VAE) None None None None.

(** The world two rounds of the loop leave behind. *)
Definition toy_final_world : World Toy.rt :=
  snd (script_upto Toy.rt Toy.env Toy.cfg 2 (initial_world Toy.rt 0%nat)).

(** An empty batch of latent vectors. *)
Definition empty_batch : Tensor := mkTensor [0%nat; d] [].

(** Two outcomes of the script agree: the same result or exception, the
    same log, dataset and history. *)
Definition outcomes_agree {rt} (o1 o2 : Res unit * World rt) : Prop :=
  fst o1 = fst o2 /\
  decoded (snd o1) = decoded (snd o2) /\
  train_x (snd o1) = train_x (snd o2) /\
  train_obj (snd o1) = train_obj (snd o2) /\
  best_observed (snd o1) = best_observed (snd o2).

(** What holds of the scores and of the history at every point of a run:
    the scores are scores, the history does not decrease, and its last
    entry is attained or exceeded in the dataset. *)
Definition history_sound {rt} (w : World rt) : Prop :=
  (forall obj, train_obj w = Some obj -> Forall is_score (data obj)) /\
  (forall h, best_observed w = Some h ->
     nondecreasing h /\ Forall is_score h /\
     (h = [] \/ exists obj v, train_obj w = Some obj /\ In v (data obj) /\ last h 0 <= v)).

(** ** Rounds of the loop *)

(** The exception [e] comes from one of the calls into gpytorch and
    botorch: building the model, restoring its state, fitting it, or
    optimising the acquisition function. *)
Definition library_raises (rt : Runtime) (e : Exc) : Prop :=
  (exists x y, SingleTaskGP rt x y = Raise e) \/
  (exists m sd, gp_load_state_dict rt m sd = Raise e) \/
  (exists m g, fst (fit_gpytorch_mll rt m g) = Raise e) \/
  (exists acq b q r s g, fst (optimize_acqf rt acq b q r s g) = Raise e).

(** None of these calls ever raises. *)
Definition library_succeeds (rt : Runtime) : Prop := forall e, ~ library_raises rt e.

(** What a round of the loop finds when In[12] and the rounds before it
    went through: both models, a dataset of [n] latent vectors and [n]
    scores, not empty, a history and a carried model state. *)
Definition round_ready {rt} (w : World rt) : Prop :=
  models_loaded w /\
  (exists x obj n, train_x w = Some x /\ train_obj w = Some obj /\
     shape x = [n; d] /\ shape obj = [n; 1%nat] /\ data obj <> []) /\
  (exists h, best_observed w = Some h) /\
  (exists sd, state_dict w = Some sd).

(** The small instance, with an optimiser of the acquisition function
    that gives up. *)
Definition stalled_rt : Runtime :=
  {| Gen := nat;
     GP := unit;
     manual_seed := fun s => Z.to_nat s;
     uniform := fun n g => (repeat (1 / 2) n, S g);
     reset_parameters := fun s g => (repeat 0 (numel s), S g);
     conv2d_kernel := fun _ _ => [];
     max_pool2d_kernel := fun _ _ _ => [];
     linear_kernel := fun _ _ => [];
     SingleTaskGP := fun _ _ => Ok tt;
     gp_load_state_dict := fun m _ => Ok m;
     gp_state_dict := fun _ => [];
     fit_gpytorch_mll := fun m g => (Ok m, g);
     optimize_acqf := fun _ _ _ _ _ g => (Raise (LibraryError "optimize_acqf gave up"), S g)
  |}.

Definition stalled_world : World stalled_rt :=
  mkWorld stalled_rt 0%nat [] (Some blank_Net) (Some blank_VAE) None None None None.

(** ** The encoder side of the VAE (In[6])

    [VAE.encode], [VAE.reparameterize] and [VAE.forward] are defined by
    the script and never called by it. *)

(** [x + y] for tensors of one shape. *)
Definition tensor_add (x y : Tensor) : Res Tensor :=
  if shape_eqb (shape x) (shape y)
  then Ok (mkTensor (shape x) (zip_with Rplus (data x) (data y)))
  else Raise (RuntimeError "The size of tensor a must match the size of tensor b").

Section Encoder.

Variable rt : Runtime.

(** [torch.randn]: that many standard normal draws from the default
    generator. *)
Variable randn : nat -> Gen rt -> list R * Gen rt.

(** [VAE.encode] *)
Definition VAE_encode (self : VAE) (x : Tensor) : Res (Tensor * Tensor) :=
  (h1 <-- linear rt (vfc1 self) x ;;
   let h1 := relu h1 in
   mu <-- linear rt (vfc21 self) h1 ;;
   logvar <-- linear rt (vfc22 self) h1 ;;
   Ok (mu, logvar))%res.

(** [torch.randn_like(t)] *)
Definition randn_like (t : Tensor) : M rt Tensor :=
  v <- sample (randn (numel (shape t))) ;;
  ret (mkTensor (shape t) v).

(** [VAE.reparameterize] *)
Definition VAE_reparameterize (mu logvar : Tensor) : M rt Tensor :=
  let std := torch_exp (tensor_map (Rmult (1 / 2)) logvar) in
  eps <- randn_like std ;;
  scaled <- lift (tensor_mul eps std) ;;
  lift (tensor_add mu scaled).

(** [VAE.forward] *)
Definition VAE_forward (self : VAE) (x : Tensor) : M rt (Tensor * Tensor * Tensor) :=
  flat <- lift (view x [(-1)%Z; 784%Z]) ;;
  enc <- lift (VAE_encode self flat) ;;
  let mu := fst enc in
  let logvar := snd enc in
  z <- VAE_reparameterize mu logvar ;;
  dec <- lift (VAE_decode rt self z) ;;
  ret (dec, mu, logvar).

End Encoder.

(** A computation that leaves the classifier and the decoder as they are,
    whatever its outcome. *)
Definition keeps_models {rt A} (m : M rt A) : Prop :=
  forall (w : World rt) (r : Res A) (w' : World rt),
    m w = (r, w') -> cnn_model w' = cnn_model w /\ vae_model w' = vae_model w.

(** ** The progress panels (In[14]) *)

(** [percentages = np.array([0, 10, 25, 50, 75, 100], dtype=np.float32)] *)
Definition percentages : list nat := [0; 10; 25; 50; 75; 100]%nat.

(** [inds = (N_BATCH * BATCH_SIZE * percentages / 100 + 4).astype(int)].
    numpy computes in float32 and [astype(int)] drops the fraction.  With
    the constants of the script the products are integers below 7501,
    their hundredths are at least a hundredth away from the next integer
    unless they are integers, and float32 rounds by less than a
    hundred-thousandth there: the result is the integer quotient, plus 4. *)
Definition inds (cfg : Config) : list nat :=
  map (fun p => (N_BATCH cfg * BATCH_SIZE cfg * p / 100 + 4)%nat) percentages.

(** [x[: m, :]] for a matrix. *)
Definition slice_rows (m : nat) (x : Tensor) : Res Tensor :=
  match shape x with
  | [n; c] => Ok (mkTensor [Nat.min m n; c] (firstn (Nat.min m n * c) (data x)))
  | _ => Raise (IndexError "too many indices for tensor")
  end.

(** The index of the first largest entry of [l], [best] at index [ibest]
    being the largest entry before index [i]. *)
Fixpoint argmax_from (best : R) (ibest i : nat) (l : list R) : nat :=
  match l with
  | [] => ibest
  | v :: l' =>
      if Rlt_dec best v then argmax_from v i (S i) l'
      else argmax_from best ibest (S i) l'
  end.

(** [torch.argmax(s, dim=0)] for a vector: the index of the first maximal
    value. *)
Definition argmax (s : Tensor) : Res nat :=
  match shape s, data s with
  | [_], v :: l => Ok (argmax_from v 0 1 l)
  | [_], [] => Raise (IndexError "argmax(): Expected reduction dim 0 to have non-zero size.")
  | _, _ => Raise (RuntimeError "argmax: unsupported rank")
  end.

(** [x[b]]: row [b] of [x]. *)
Definition select_row (b : nat) (x : Tensor) : Res Tensor :=
  match shape x with
  | n :: rest =>
      if Nat.ltb b n
      then Ok (mkTensor rest (firstn (numel rest) (skipn (b * numel rest) (data x))))
      else Raise (IndexError "index is out of bounds for dimension 0")
  | [] => Raise (IndexError "invalid index of a 0-dim tensor")
  end.

(** [t.squeeze()]: drop the dimensions of size 1. *)
Definition squeeze (t : Tensor) : Tensor :=
  mkTensor (filter (fun k => negb (Nat.eqb k 1)) (shape t)) (data t).

Section Panels.

Variable rt : Runtime.

(** The body of the loop of In[14] for the index [m = inds[i]]: the image
    that [imshow] is given. *)
Definition plot_panel (m : nat) : M rt Tensor :=
  x <- global "train_x" train_x ;;
  sub <- lift (slice_rows m x) ;;
  s <- evaluate rt sub ;;
  b <- lift (argmax s) ;;
  x <- global "train_x" train_x ;;
  row <- lift (select_row b x) ;;
  row <- lift (view row [1%Z; (-1)%Z]) ;;
  img <- decode rt row ;;
  ret (squeeze img).

(** [for i, ax in enumerate(ax.flat)] *)
Fixpoint plot_panels (ms : list nat) : M rt (list Tensor) :=
  match ms with
  | [] => ret []
  | m :: ms' =>
      img <- plot_panel m ;;
      imgs <- plot_panels ms' ;;
      ret (img :: imgs)
  end.

(** In[14] *)
Definition plot_cell (cfg : Config) : M rt (list Tensor) := plot_panels (inds cfg).

End Panels.

(** A latent batch of the search space: 20 columns, entries in [-6, 6]. *)
Definition in_domain (x : Tensor) : Prop :=
  (exists n, shape x = [n; 20%nat]) /\ Forall (fun v => -6 <= v <= 6) (data x).

(** ** Well-formed tensors *)

(** A tensor holds as many entries as its shape says. *)
Definition well_formed (t : Tensor) : Prop := List.length (data t) = numel (shape t).

(** What torch and botorch hand back is well formed: [torch.rand] returns
    as many draws as it is asked for, and the candidates of
    [optimize_acqf] hold the entries of their shape. *)
Definition library_tensors_well_formed (rt : Runtime) : Prop :=
  (forall n g, List.length (fst (uniform rt n g)) = n) /\
  (forall acq b q r s g cand v g',
     optimize_acqf rt acq b q r s g = (Ok (cand, v), g') -> well_formed cand).

(** ** Bounds on [exp (-18)] *)

Lemma fx_one_pos : 0 < IZR fx_one.
Proof. apply IZR_lt. reflexivity. Qed.

Lemma fx_square_sound (p : Z * Z) (v : R) :
  encloses p v -> encloses (fx_square p) (v * v).
Proof.
  destruct p as [l u]. unfold encloses, fx_square. cbn [fst snd].
  intros [Hl [Hlo Hhi]].
  pose proof fx_one_pos as HS.
  assert (Hz : (0 < fx_one)%Z) by reflexivity.
  assert (H0 : 0 <= IZR l) by (apply IZR_le; exact Hl).
  assert (Hdown : IZR (l * l / fx_one) * IZR fx_one <= IZR l * IZR l).
  { rewrite <- !mult_IZR. apply IZR_le.
    rewrite Z.mul_comm. apply Z.mul_div_le. exact Hz. }
  assert (Hup : IZR u * IZR u <= IZR (u * u / fx_one + 1) * IZR fx_one).
  { rewrite <- !mult_IZR. apply IZR_le.
    pose proof (Z.mul_succ_div_gt (u * u) fx_one Hz) as G.
    unfold Z.succ in G. rewrite (Z.mul_comm _ fx_one). lia. }
  set (s := IZR fx_one) in *.
  set (a := IZR (l * l / fx_one)) in *.
  set (b := IZR (u * u / fx_one + 1)) in *.
  assert (Hl' : 0 <= IZR l / s) by (apply Rmult_le_pos; [exact H0 | left; apply Rinv_0_lt_compat; exact HS]).
  assert (El : IZR l / s * (IZR l / s) = IZR l * IZR l / (s * s)) by (field; lra).
  assert (Eu : IZR u / s * (IZR u / s) = IZR u * IZR u / (s * s)) by (field; lra).
  assert (Ea : a / s = a * s / (s * s)) by (field; lra).
  assert (Eb : b / s = b * s / (s * s)) by (field; lra).
  assert (Hss : 0 < / (s * s)) by (apply Rinv_0_lt_compat; nra).
  split; [apply Z.div_pos; [apply Z.mul_nonneg_nonneg; exact Hl | exact Hz] |].
  split.
  - rewrite Ea. apply Rle_trans with (IZR l / s * (IZR l / s)).
    + rewrite El. unfold Rdiv. apply Rmult_le_compat_r; [lra | exact Hdown].
    + apply Rmult_le_compat; lra.
  - rewrite Eb. apply Rle_trans with (IZR u / s * (IZR u / s)).
    + apply Rmult_le_compat; lra.
    + rewrite Eu. unfold Rdiv. apply Rmult_le_compat_r; [lra | exact Hup].
Qed.

Lemma fx_iter_square_sound (k : nat) :
  forall (p : Z * Z) (x : R),
    encloses p (exp x) -> encloses (fx_iter_square k p) (exp (x * 2 ^ k)).
Proof.
  induction k as [|k IH]; intros p x H.
  - simpl. replace (x * 1) with x by ring. exact H.
  - simpl fx_iter_square.
    replace (x * 2 ^ S k) with ((x + x) * 2 ^ k) by (simpl; ring).
    apply IH. rewrite exp_plus. apply fx_square_sound. exact H.
Qed.

Lemma fx_base_sound : encloses fx_base (exp (- (18 / 2 ^ 20))).
Proof.
  unfold encloses. split; [vm_compute; discriminate |].
  pose proof (exp_ineq1_le (- (18 / 2 ^ 20))) as Hlo.
  pose proof (exp_ineq1_le (18 / 2 ^ 20)) as Hhi.
  pose proof (exp_pos (18 / 2 ^ 20)) as Hpos.
  rewrite exp_Ropp.
  assert (Hinv : / exp (18 / 2 ^ 20) <= / (1 + 18 / 2 ^ 20)).
  { apply Rinv_le_contravar; lra. }
  rewrite exp_Ropp in Hlo.
  split.
  - eapply Rle_trans; [| exact Hlo].
    let v := eval vm_compute in (fst fx_base) in change (fst fx_base) with v.
    let v := eval vm_compute in fx_one in change fx_one with v.
    lra.
  - eapply Rle_trans; [exact Hinv |].
    let v := eval vm_compute in (snd fx_base) in change (snd fx_base) with v.
    let v := eval vm_compute in fx_one in change fx_one with v.
    apply Rmult_le_reg_r with (1 + 18 / 2 ^ 20); [lra |].
    rewrite Rinv_l by lra. lra.
Qed.

Lemma exp_m18_bounds : 1.52e-8 < exp (-18) < 1.53e-8.
Proof.
  pose proof (fx_iter_square_sound 20 _ _ fx_base_sound) as [_ H].
  replace (- (18 / 2 ^ 20) * 2 ^ 20) with (-18) in H by (simpl; field).
  revert H.
  let v := eval vm_compute in (fx_iter_square 20 fx_base) in
    change (fx_iter_square 20 fx_base) with v.
  let v := eval vm_compute in fx_one in change fx_one with v.
  cbn [fst snd]. lra.
Qed.

(** ** Lists and tables *)

Lemma length_tabulate_from (c : nat) (g : nat -> nat -> R) (b s : nat) :
  List.length (flat_map (fun r => map (g r) (seq 0 c)) (seq s b)) = (b * c)%nat.
Proof.
  revert s. induction b as [|b IH]; intros s; simpl; [reflexivity |].
  rewrite length_app, length_map, length_seq, IH. reflexivity.
Qed.

Lemma length_tabulate2 (b c : nat) (g : nat -> nat -> R) :
  List.length (tabulate2 b c g) = (b * c)%nat.
Proof. apply length_tabulate_from. Qed.

Lemma nth_tabulate_from (c : nat) (g : nat -> nat -> R) (b : nat) :
  forall s r k, (r < b)%nat -> (k < c)%nat ->
    nth (r * c + k) (flat_map (fun r => map (g r) (seq 0 c)) (seq s b)) 0 = g (s + r)%nat k.
Proof.
  induction b as [|b IH]; intros s r k Hr Hk; [lia |].
  simpl. destruct r as [|r].
  - simpl. rewrite app_nth1 by (rewrite length_map, length_seq; exact Hk).
    rewrite (nth_indep _ 0 (g s 0%nat)) by (rewrite length_map, length_seq; exact Hk).
    rewrite map_nth, seq_nth by exact Hk. rewrite Nat.add_0_r. reflexivity.
  - rewrite app_nth2 by (rewrite length_map, length_seq; simpl; lia).
    rewrite length_map, length_seq.
    replace (S r * c + k - c)%nat with (r * c + k)%nat by (simpl; lia).
    rewrite IH by lia. f_equal. lia.
Qed.

Lemma get2_tabulate2 (b c : nat) (g : nat -> nat -> R) (r k : nat) :
  (r < b)%nat -> (k < c)%nat -> get2 c (tabulate2 b c g) r k = g r k.
Proof. intros Hr Hk. unfold get2, tabulate2. apply nth_tabulate_from; assumption. Qed.

Lemma nth_zip_mult (l m : list R) :
  forall i, nth i (zip_with Rmult l m) 0 = nth i l 0 * nth i m 0.
Proof.
  revert m. induction l as [|a l IH]; intros m i.
  - simpl. destruct i; ring.
  - destruct m as [|b m]; simpl.
    + destruct i; ring.
    + destruct i; [reflexivity | apply IH].
Qed.

Lemma map_seq_ext {A} (f g : nat -> A) (s n : nat) :
  (forall i, (s <= i < s + n)%nat -> f i = g i) -> map f (seq s n) = map g (seq s n).
Proof. intros H. apply map_ext_in. intros i Hi. apply H. apply in_seq. exact Hi. Qed.

Lemma Forall_map_seq {A} (P : A -> Prop) (f : nat -> A) (s n : nat) :
  (forall i, (s <= i < s + n)%nat -> P (f i)) -> Forall P (map f (seq s n)).
Proof.
  intros H. apply Forall_forall. intros v Hv. apply in_map_iff in Hv.
  destruct Hv as [i [<- Hi]]. apply H. apply in_seq. exact Hi.
Qed.

Lemma shape_eqb_eq (s t : list nat) : shape_eqb s t = true <-> s = t.
Proof.
  revert t. induction s as [|a s IH]; intros [|b t]; simpl; split; intros H;
    try reflexivity; try discriminate.
  - apply andb_true_iff in H. destruct H as [Hab Hst].
    apply Nat.eqb_eq in Hab. apply IH in Hst. congruence.
  - inversion H; subst. rewrite Nat.eqb_refl. simpl. apply IH. reflexivity.
Qed.

Lemma shape_eqb_refl (s : list nat) : shape_eqb s s = true.
Proof. apply shape_eqb_eq. reflexivity. Qed.

(** ** The scoring function *)

Lemma reward_range (k : nat) : is_score (reward k).
Proof.
  unfold is_score, reward. split; [apply exp_pos |].
  rewrite <- exp_0.
  assert (H : -2 * (INR k - 3) ^ 2 <= 0) by (pose proof (pow2_ge_0 (INR k - 3)); lra).
  destruct H as [H | H]; [left; apply exp_increasing; exact H | rewrite H; right; reflexivity].
Qed.

Lemma nth_score_arange (k : nat) :
  (k < 10)%nat -> nth k (data (score (arange 10))) 0 = reward k.
Proof.
  intros Hk. unfold score, arange, tensor_map, reward. cbn [data].
  rewrite map_map.
  rewrite (nth_indep _ 0 (exp (-2 * (INR 0 - 3) ^ 2))) by (rewrite length_map, length_seq; exact Hk).
  rewrite (map_nth (fun x => exp (-2 * (INR x - 3) ^ 2))), seq_nth by exact Hk.
  reflexivity.
Qed.

(** On [b] rows of ten probabilities, [expected_score] returns the [b]
    expectations of the reward. *)
Lemma expected_score_rows (probs : Tensor) (b : nat) :
  shape probs = [b; 10%nat] ->
  expected_score probs = Ok (mkTensor [b] (map (expectation (data probs)) (seq 0 b))).
Proof.
  intros Hs. unfold expected_score, expand. rewrite Hs.
  change (shape (score (arange 10))) with [10%nat].
  cbn [Nat.eqb res_bind]. unfold tensor_mul. cbn [shape]. rewrite Hs, shape_eqb_refl.
  cbn [res_bind]. unfold sum_dim1. cbn [shape data]. rewrite ?Hs.
  do 2 f_equal. apply map_seq_ext. intros r Hr.
  unfold expectation. f_equal. apply map_seq_ext. intros k Hk.
  unfold get2 at 1. rewrite nth_zip_mult. fold (get2 10 (data probs) r k).
  f_equal. fold (get2 10 (tabulate2 b 10 (fun _ k0 => nth k0 (data (score (arange 10))) 0)) r k).
  rewrite get2_tabulate2 by lia. apply nth_score_arange. lia.
Qed.

(** [expected_score] accepts nothing but rows of ten probabilities. *)
Lemma expected_score_shape (probs s : Tensor) :
  expected_score probs = Ok s -> exists b, shape probs = [b; 10%nat].
Proof.
  unfold expected_score, expand. change (shape (score (arange 10))) with [10%nat].
  destruct (shape probs) as [|b [|c [|e t]]]; cbn [res_bind]; try discriminate.
  destruct (Nat.eqb 10 c) eqn:E.
  - apply Nat.eqb_eq in E. subst c. intros _. exists b. reflexivity.
  - cbn [Nat.eqb]. discriminate.
Qed.

Lemma expected_score_one_hot (k : nat) :
  (k < 10)%nat -> expected_score (one_hot k) = Ok (mkTensor [1%nat] [reward k]).
Proof.
  intros Hk. rewrite (expected_score_rows _ 1) by reflexivity.
  do 10 (destruct k as [|k]; [cbn -[reward]; do 3 f_equal; ring |]). lia.
Qed.

(** C8, as stated, fails: on a classifier output that is one-hot on label 0
    the score is not approximately 1.23e-8 (it is exp(-18), more than
    1.52e-8). *)
Lemma one_hot_0_score_is_not_1_23e_8 :
  ~ (exists v, expected_score (one_hot 0) = Ok (mkTensor [1%nat] [v])
               /\ approximately 1.23e-8 v).
Proof.
  intros [v [H Ha]]. rewrite expected_score_one_hot in H by lia.
  injection H as <-.
  assert (E : reward 0 = exp (-18)) by (unfold reward; f_equal; simpl; ring).
  rewrite E in Ha. pose proof exp_m18_bounds as [Hlo _].
  unfold approximately in Ha. revert Ha.
  unfold Rabs. destruct (Rcase_abs (exp (-18) - 1.23e-8)); destruct (Rcase_abs 1.23e-8); lra.
Qed.

(** C8 (amended): the scoring oracle returns, for every row of class
    probabilities, the expectation of the per-label reward
    exp(-2*(label-3)^2); on a one-hot output on label 3 it returns 1, and on
    a one-hot output on label 0 it returns exp(-18), which lies between
    1.52e-8 and 1.53e-8. *)
Theorem score_oracle_expectation :
  (forall (b : nat) (p : list R),
      expected_score (mkTensor [b; 10%nat] p)
      = Ok (mkTensor [b] (map (expectation p) (seq 0 b)))) /\
  (forall r p, expectation p r
               = sum_list (map (fun k => get2 10 p r k * exp (-2 * (INR k - 3) ^ 2)) (seq 0 10))) /\
  expected_score (one_hot 3) = Ok (mkTensor [1%nat] [1]) /\
  expected_score (one_hot 0) = Ok (mkTensor [1%nat] [exp (-18)]) /\
  1.52e-8 < exp (-18) < 1.53e-8.
Proof.
  split; [intros b p; apply expected_score_rows; reflexivity |].
  split; [reflexivity |].
  split; [| split; [| exact exp_m18_bounds]].
  - rewrite expected_score_one_hot by lia. do 3 f_equal.
    unfold reward. replace (-2 * (INR 3 - 3) ^ 2) with 0 by (simpl; ring). apply exp_0.
  - rewrite expected_score_one_hot by lia. do 3 f_equal.
    unfold reward. f_equal. simpl. ring.
Qed.

(** ** Softmax probabilities and the range of the scores *)

Lemma weighted_sum_nonneg (a rw : nat -> R) (l : list nat) :
  (forall k, 0 < a k) -> (forall k, is_score (rw k)) ->
  0 <= sum_list (map (fun k => a k * rw k) l) <= sum_list (map a l).
Proof.
  intros Ha Hr. induction l as [|x l IH]; simpl; [lra |].
  pose proof (Ha x) as Hx. destruct (Hr x) as [Hr0 Hr1]. nra.
Qed.

Lemma weighted_sum_bounds (a rw : nat -> R) (x : nat) (l : list nat) :
  (forall k, 0 < a k) -> (forall k, is_score (rw k)) ->
  0 < sum_list (map (fun k => a k * rw k) (x :: l)) <= sum_list (map a (x :: l)).
Proof.
  intros Ha Hr. pose proof (weighted_sum_nonneg a rw l Ha Hr) as H.
  simpl. pose proof (Ha x) as Hx. destruct (Hr x) as [Hr0 Hr1]. nra.
Qed.

Lemma sum_list_scale (f : nat -> R) (c : R) (l : list nat) :
  sum_list (map (fun k => f k * c) l) = sum_list (map f l) * c.
Proof. induction l as [|x l IH]; simpl; [ring | rewrite IH; ring]. Qed.

(** The expectation of the reward under softmax probabilities is a score. *)
Lemma softmax_expectation_range (y : nat -> R) (c : nat) :
  (0 < c)%nat ->
  is_score (sum_list (map (fun k =>
     exp (y k - ln (sum_list (map (fun j => exp (y j)) (seq 0 c)))) * reward k) (seq 0 c))).
Proof.
  intros Hc. set (total := sum_list (map (fun j => exp (y j)) (seq 0 c))).
  destruct c as [|c]; [lia |].
  assert (Hone : forall k : nat, is_score 1) by (intros _; unfold is_score; lra).
  pose proof (weighted_sum_bounds (fun j => exp (y j)) (fun _ => 1) 0 (seq 1 c)
                (fun k => exp_pos (y k)) Hone) as [Hpos _].
  assert (Htotal : 0 < total).
  { unfold total. change (seq 0 (S c)) with (0%nat :: seq 1 c).
    erewrite map_ext in Hpos; [exact Hpos |]. intros k. simpl. ring. }
  pose proof (weighted_sum_bounds (fun j => exp (y j)) reward 0 (seq 1 c)
                (fun k => exp_pos (y k)) reward_range) as [Hlo Hhi].
  change (0%nat :: seq 1 c) with (seq 0 (S c)) in Hlo, Hhi. fold total in Hhi.
  erewrite map_ext with (g := fun k => exp (y k) * reward k * / total).
  2:{ intros k. unfold Rminus. rewrite exp_plus, exp_Ropp, exp_ln by exact Htotal. ring. }
  rewrite (sum_list_scale (fun k => exp (y k) * reward k)).
  set (t := sum_list (map (fun k => exp (y k) * reward k) (seq 0 (S c)))) in *.
  assert (Hinv : 0 < / total) by (apply Rinv_0_lt_compat; exact Htotal).
  unfold is_score. split; [apply Rmult_lt_0_compat; assumption |].
  apply Rmult_le_reg_r with total; [exact Htotal |].
  rewrite Rmult_assoc, Rinv_l by lra. lra.
Qed.

(** What [log_softmax] returns. *)
Lemma log_softmax_ok (y logp : Tensor) :
  log_softmax y = Ok logp ->
  exists b c, shape y = [b; c] /\
    logp = mkTensor [b; c]
             (tabulate2 b c (fun r k =>
                get2 c (data y) r k
                - ln (sum_list (map (fun j => exp (get2 c (data y) r j)) (seq 0 c))))).
Proof.
  unfold log_softmax. destruct (shape y) as [|b [|c [|e t]]]; try discriminate.
  intros H. injection H as <-. exists b, c. split; reflexivity.
Qed.

(** The scores of a batch of log-softmax rows are scores. *)
Lemma expected_score_softmax (y logp s : Tensor) :
  log_softmax y = Ok logp ->
  expected_score (torch_exp logp) = Ok s ->
  exists b, shape logp = [b; 10%nat] /\ shape s = [b] /\
            List.length (data s) = b /\ Forall is_score (data s).
Proof.
  intros Hl Hs. apply log_softmax_ok in Hl. destruct Hl as (b & c & Hy & ->).
  destruct (expected_score_shape _ _ Hs) as [b' Hb']. cbn in Hb'.
  injection Hb' as -> ->.
  rewrite (expected_score_rows _ b') in Hs by reflexivity.
  injection Hs as <-. exists b'. cbn [shape data].
  split; [reflexivity |]. split; [reflexivity |].
  split; [rewrite length_map, length_seq; reflexivity |].
  apply Forall_map_seq. intros r Hr. unfold expectation.
  erewrite map_seq_ext.
  - apply (softmax_expectation_range (fun k => get2 10 (data y) r k) 10). lia.
  - intros k Hk. cbv beta. f_equal. unfold get2 at 1.
    rewrite (nth_indep _ 0 (exp 0)) by (rewrite length_map, length_tabulate2; nia).
    rewrite map_nth. unfold tabulate2. rewrite nth_tabulate_from by lia. reflexivity.
Qed.

(** ** Reasoning about computations of the script *)

Section Facts.

Variable rt : Runtime.
Variable env : Env.

Implicit Types w : World rt.

Lemma bind_inv {A B} (m : M rt A) (f : A -> M rt B) w (r : Res B) w' :
  bind m f w = (r, w') ->
  (exists e, m w = (Raise e, w') /\ r = Raise e) \/
  (exists a w1, m w = (Ok a, w1) /\ f a w1 = (r, w')).
Proof.
  unfold bind. destruct (m w) as [[a | e] w1]; intros H.
  - right. exists a, w1. split; [reflexivity | exact H].
  - left. exists e. injection H as <- <-. split; reflexivity.
Qed.

Lemma bind_ok {A B} (m : M rt A) (f : A -> M rt B) w (b : B) w' :
  bind m f w = (Ok b, w') ->
  exists a w1, m w = (Ok a, w1) /\ f a w1 = (Ok b, w').
Proof.
  intros H. apply bind_inv in H. destruct H as [(e & _ & He) | H]; [discriminate | exact H].
Qed.

Lemma lift_inv {A} (r r' : Res A) w w' : lift r w = (r', w') -> r = r' /\ w' = w.
Proof. unfold lift. intros H. injection H as <- <-. split; reflexivity. Qed.

Lemma ret_inv {A} (a : A) (r : Res A) w w' : ret a w = (r, w') -> r = Ok a /\ w' = w.
Proof. unfold ret. intros H. injection H as <- <-. split; reflexivity. Qed.

Lemma modify_inv (f : World rt -> World rt) (r : Res unit) w w' :
  modify f w = (r, w') -> r = Ok tt /\ w' = f w.
Proof. unfold modify. intros H. injection H as <- <-. split; reflexivity. Qed.

Lemma global_inv {A} (name : string) (field : World rt -> option A) (r : Res A) w w' :
  global name field w = (r, w') ->
  w' = w /\ match field w with Some a => r = Ok a | None => r = Raise (NameError name) end.
Proof.
  unfold global. destruct (field w); intros H; injection H as <- <-; split; reflexivity.
Qed.

Lemma global_ok {A} (name : string) (field : World rt -> option A) (a : A) w w' :
  global name field w = (Ok a, w') -> field w = Some a /\ w' = w.
Proof.
  intros H. apply global_inv in H. destruct H as [-> H].
  destruct (field w); [injection H as -> | discriminate]. split; reflexivity.
Qed.

Lemma sample_inv {A} (f : Gen rt -> A * Gen rt) (r : Res A) w w' :
  sample f w = (r, w') -> r = Ok (fst (f (gen w))) /\ w' = set_gen (snd (f (gen w))) w.
Proof. unfold sample. intros H. injection H as <- <-. split; reflexivity. Qed.

Lemma call_inv {A} (f : Gen rt -> Res A * Gen rt) (r : Res A) w w' :
  call f w = (r, w') -> r = fst (f (gen w)) /\ w' = set_gen (snd (f (gen w))) w.
Proof. unfold call. intros H. injection H as <- <-. split; reflexivity. Qed.

Lemma ret_ok {A} (a b : A) w w' : ret a w = (Ok b, w') -> b = a /\ w' = w.
Proof. intros H. apply ret_inv in H. destruct H as [E ->]. injection E as ->. split; reflexivity. Qed.

Lemma sample_ok {A} (f : Gen rt -> A * Gen rt) (a : A) w w' :
  sample f w = (Ok a, w') -> a = fst (f (gen w)) /\ w' = set_gen (snd (f (gen w))) w.
Proof. intros H. apply sample_inv in H. destruct H as [E ->]. injection E as ->. split; reflexivity. Qed.

Lemma call_ok {A} (f : Gen rt -> Res A * Gen rt) (a : A) w w' :
  call f w = (Ok a, w') -> fst (f (gen w)) = Ok a /\ w' = set_gen (snd (f (gen w))) w.
Proof. intros H. apply call_inv in H. destruct H as [E ->]. split; [symmetry; exact E | reflexivity]. Qed.

Lemma modify_ok (f : World rt -> World rt) (u : unit) w w' :
  modify f w = (Ok u, w') -> w' = f w.
Proof. intros H. apply modify_inv in H. apply H. Qed.

Lemma lift_ok {A} (r : Res A) (a : A) w w' : lift r w = (Ok a, w') -> r = Ok a /\ w' = w.
Proof. apply lift_inv. Qed.

(** Take a successful computation apart, step by step. *)
Ltac step_ok :=
  match goal with
  | H : bind _ _ _ = (Ok _, _) |- _ =>
      apply bind_ok in H;
      let a := fresh "a" in let w1 := fresh "w" in let Ha := fresh "Ha" in
      destruct H as (a & w1 & Ha & H)
  | H : lift _ _ = (Ok _, _) |- _ =>
      apply lift_ok in H; let E := fresh "E" in destruct H as [E ->]
  | H : ret _ _ = (Ok _, _) |- _ => apply ret_ok in H; destruct H as [? ?]; subst
  | H : modify _ _ = (Ok _, _) |- _ => apply modify_ok in H; subst
  | H : global _ _ _ = (Ok _, _) |- _ =>
      apply global_ok in H; let E := fresh "E" in destruct H as [E ->]
  | H : sample _ _ = (Ok _, _) |- _ => apply sample_ok in H; destruct H as [-> ->]
  | H : call _ _ = (Ok _, _) |- _ =>
      apply call_ok in H; let E := fresh "E" in destruct H as [E ->]
  end.

Ltac steps_ok := repeat step_ok.

(** Take a computation apart, whatever its outcome. *)
Ltac step_all :=
  match goal with
  | H : bind _ _ _ = (_, _) |- _ =>
      apply bind_inv in H;
      let e := fresh "e" in let a := fresh "a" in
      let w1 := fresh "w" in let Ha := fresh "Ha" in
      destruct H as [(e & H & ?) | (a & w1 & Ha & H)]
  | H : lift _ _ = (_, _) |- _ => apply lift_inv in H; destruct H as [? ?]
  | H : ret _ _ = (_, _) |- _ => apply ret_inv in H; destruct H as [? ?]
  | H : modify _ _ = (_, _) |- _ => apply modify_inv in H; destruct H as [? ?]
  | H : global _ _ _ = (_, _) |- _ => apply global_inv in H; destruct H as [? ?]
  | H : sample _ _ = (_, _) |- _ => apply sample_inv in H; destruct H as [? ?]
  | H : call _ _ = (_, _) |- _ => apply call_inv in H; destruct H as [? ?]
  end; subst.

(** *** The classifier and the objective *)

Lemma Net_forward_log_softmax (net : Net) (x logp : Tensor) :
  Net_forward rt net x = Ok logp -> exists y, log_softmax y = Ok logp.
Proof.
  unfold Net_forward.
  destruct (conv2d rt (conv1 net) x) as [x1 |]; cbn [res_bind]; [| discriminate].
  destruct (max_pool2d rt (relu x1) 2 2) as [x2 |]; cbn [res_bind]; [| discriminate].
  destruct (conv2d rt (conv2 net) x2) as [x3 |]; cbn [res_bind]; [| discriminate].
  destruct (max_pool2d rt (relu x3) 2 2) as [x4 |]; cbn [res_bind]; [| discriminate].
  destruct (view x4 _) as [x5 |]; cbn [res_bind]; [| discriminate].
  destruct (linear rt (fc1 net) x5) as [x6 |]; cbn [res_bind]; [| discriminate].
  destruct (linear rt (fc2 net) (relu x6)) as [x7 |]; cbn [res_bind]; [| discriminate].
  intros H. exists x7. exact H.
Qed.

Lemma score_image_ok (x s : Tensor) w w' :
  score_image rt x w = (Ok s, w') ->
  w' = w /\ exists b, shape s = [b] /\ List.length (data s) = b /\ Forall is_score (data s).
Proof.
  unfold score_image. intros H. steps_ok. split; [reflexivity |].
  match goal with
  | F : Net_forward _ _ _ = Ok _, G : expected_score _ = Ok _ |- _ =>
      apply Net_forward_log_softmax in F; destruct F as [y Hy];
      destruct (expected_score_softmax _ _ _ Hy G) as (b & _ & H1 & H2 & H3)
  end.
  exists b. auto.
Qed.

(** *** Shapes through the decoder and the classifier *)

Lemma of_nat_not_infer (n : nat) :
  (Z.of_nat n =? -1)%Z = false /\ (Z.of_nat n <? 0)%Z = false.
Proof. split; [apply Z.eqb_neq | apply Z.ltb_ge]; lia. Qed.

Lemma view_images (t : Tensor) (n : nat) :
  shape t = [n; 784%nat] ->
  view t [Z.of_nat n; 1%Z; 28%Z; 28%Z] = Ok (mkTensor [n; 1; 28; 28]%nat (data t)).
Proof.
  intros Hs. unfold view, infer_size, count_infer, fill_infer. rewrite Hs.
  destruct (of_nat_not_infer n) as [E1 E2].
  cbn [known_size filter map]. rewrite E1, E2.
  change (1 =? -1)%Z with false. change (28 =? -1)%Z with false.
  change (1 <? 0)%Z with false. change (28 <? 0)%Z with false.
  cbn [List.length]. rewrite Nat2Z.id.
  replace (Nat.eqb (numel [n; 784%nat]) _) with true
    by (symmetry; apply Nat.eqb_eq; reflexivity).
  reflexivity.
Qed.

Lemma view_flatten (t : Tensor) (n : nat) :
  shape t = [n; 50; 4; 4]%nat ->
  view t [(-1)%Z; (4 * 4 * 50)%Z] = Ok (mkTensor [n; 800%nat] (data t)).
Proof.
  intros Hs. unfold view, infer_size, count_infer, fill_infer. rewrite Hs.
  change (4 * 4 * 50)%Z with 800%Z.
  cbn [known_size filter map]. change (-1 =? -1)%Z with true.
  change (800 =? -1)%Z with false. change (800 <? 0)%Z with false.
  cbn [List.length]. change (Z.to_nat 800 * 1)%nat with 800%nat.
  change (Nat.eqb 800 0) with false.
  replace (numel [n; 50; 4; 4]%nat) with (n * 800)%nat by (unfold numel; simpl; lia).
  rewrite Nat.Div0.mod_mul, Nat.div_mul by discriminate.
  reflexivity.
Qed.

Lemma linear_shape (l : Linear) (x : Tensor) (n i o : nat) :
  shape x = [n; i] -> linear_dims l = (i, o) ->
  linear rt l x = Ok (mkTensor [n; o] (linear_kernel rt l x)).
Proof.
  intros Hs Hd. unfold linear_dims in Hd. injection Hd as Hi Ho.
  unfold linear. rewrite Hs. cbn [last removelast app]. rewrite Hi, Ho, Nat.eqb_refl.
  reflexivity.
Qed.

Lemma VAE_decode_shape (vae : VAE) (z : Tensor) (n : nat) :
  VAE_architecture vae -> shape z = [n; 20%nat] ->
  exists dec, VAE_decode rt vae z = Ok dec /\ shape dec = [n; 784%nat].
Proof.
  intros [H3 H4] Hz. unfold VAE_decode.
  rewrite (linear_shape _ _ _ _ _ Hz H3). cbn [res_bind].
  rewrite (linear_shape _ _ n 400 784) by (reflexivity || exact H4).
  cbn [res_bind]. eexists. split; reflexivity.
Qed.

Lemma conv2d_shape (l : Conv2d) (x : Tensor) (b c o k h v : nat) :
  shape x = [b; c; h; v] -> conv_dims l = (c, o, k, 1%nat) ->
  (k <= h)%nat -> (k <= v)%nat ->
  conv2d rt l x = Ok (mkTensor [b; o; h - k + 1; v - k + 1]%nat (conv2d_kernel rt l x)).
Proof.
  intros Hs Hd Hh Hv. unfold conv_dims in Hd. injection Hd as Hc Ho Hk Hst.
  unfold conv2d. rewrite Hs, Hc, Ho, Hk, Hst, Nat.eqb_refl.
  rewrite (proj2 (Nat.leb_le k h) Hh), (proj2 (Nat.leb_le k v) Hv).
  cbn [andb Nat.leb]. rewrite !Nat.div_1_r. reflexivity.
Qed.

Lemma max_pool2d_shape (x : Tensor) (b c h v k s : nat) :
  shape x = [b; c; h; v] -> (k <= h)%nat -> (k <= v)%nat -> (1 <= s)%nat ->
  max_pool2d rt x k s
  = Ok (mkTensor [b; c; (h - k) / s + 1; (v - k) / s + 1]%nat (max_pool2d_kernel rt k s x)).
Proof.
  intros Hs Hh Hv Hst. unfold max_pool2d. rewrite Hs.
  rewrite (proj2 (Nat.leb_le k h) Hh), (proj2 (Nat.leb_le k v) Hv),
    (proj2 (Nat.leb_le 1 s) Hst).
  reflexivity.
Qed.

Lemma Net_forward_shape (net : Net) (x : Tensor) (n : nat) :
  Net_architecture net -> shape x = [n; 1; 28; 28]%nat ->
  exists logp, Net_forward rt net x = Ok logp /\ shape logp = [n; 10%nat].
Proof.
  intros (H1 & H2 & H3 & H4) Hx. unfold Net_forward.
  rewrite (conv2d_shape _ _ _ _ _ _ _ _ Hx H1) by lia. cbn [res_bind].
  rewrite (max_pool2d_shape _ n 20 24 24 2 2) by (reflexivity || lia). cbn [res_bind].
  rewrite (conv2d_shape _ _ n 20 50 5 12 12) by (reflexivity || exact H2 || lia).
  cbn [res_bind].
  rewrite (max_pool2d_shape _ n 50 8 8 2 2) by (reflexivity || lia). cbn [res_bind].
  rewrite (view_flatten _ n) by reflexivity. cbn [res_bind].
  rewrite (linear_shape _ _ n 800 500) by (reflexivity || exact H3). cbn [res_bind].
  rewrite (linear_shape _ _ n 500 10) by (reflexivity || exact H4). cbn [res_bind].
  unfold log_softmax. cbn [shape]. eexists. split; reflexivity.
Qed.

(** With both models loaded, the objective returns one score for each of
    the [n] rows of a batch of latent vectors, and logs the batch. *)
Lemma evaluate_total (x : Tensor) (n : nat) w :
  models_loaded w -> shape x = [n; d] ->
  exists s, evaluate rt x w = (Ok s, set_decoded (decoded w ++ [x]) w)
            /\ shape s = [n].
Proof.
  intros [(net & Hnet & Hna) (vae & Hvae & Hva)] Hx.
  destruct (VAE_decode_shape vae x n Hva Hx) as (dec & Hdec & Hds).
  destruct (Net_forward_shape net (mkTensor [n; 1; 28; 28]%nat (data dec)) n Hna eq_refl)
    as (logp & Hlogp & Hls).
  pose proof (expected_score_rows (torch_exp logp) n Hls) as Hes.
  eexists. split.
  - unfold evaluate, decode, score_image, bind, modify, global, lift.
    cbn [vae_model cnn_model set_decoded]. rewrite Hvae, Hdec.
    unfold size0. rewrite Hx. rewrite (view_images _ n Hds).
    cbn [cnn_model set_decoded]. rewrite Hnet, Hlogp, Hes. reflexivity.
  - reflexivity.
Qed.

(** Whatever the outcome, the objective leaves the world as it was, but
    for the log. *)
Lemma evaluate_world (x : Tensor) (r : Res Tensor) w w' :
  evaluate rt x w = (r, w') -> w' = set_decoded (decoded w ++ [x]) w.
Proof.
  unfold evaluate, decode, score_image. intros H. repeat step_all; reflexivity.
Qed.

Lemma evaluate_ok (x s : Tensor) w w' :
  evaluate rt x w = (Ok s, w') ->
  exists b, shape s = [b] /\ List.length (data s) = b /\ Forall is_score (data s).
Proof.
  unfold evaluate. intros H. step_ok.
  apply score_image_ok in H. destruct H as [_ H]. exact H.
Qed.

(** *** Loading the pretrained models *)


Lemma same_results_trans w1 w2 w3 :
  same_results w1 w2 -> same_results w2 w3 -> same_results w1 w3.
Proof.
  unfold same_results. intros (A1 & A2 & A3 & A4 & A5) (B1 & B2 & B3 & B4 & B5).
  repeat split; congruence.
Qed.

Lemma Net_new_ok w :
  exists net, Net_new rt w = (Ok net, set_gen (gen (snd (Net_new rt w))) w)
              /\ Net_architecture net /\ Net_layout net.
Proof.
  eexists. split; [| split].
  - unfold Net_new, Conv2d_new, Linear_new, bind, sample, ret. cbn. reflexivity.
  - repeat split.
  - repeat split.
Qed.

Lemma VAE_new_ok w :
  exists vae, VAE_new rt w = (Ok vae, set_gen (gen (snd (VAE_new rt w))) w)
              /\ VAE_dims vae /\ VAE_layout vae.
Proof.
  eexists. split; [| split].
  - unfold VAE_new, Linear_new, bind, sample, ret. cbn. reflexivity.
  - repeat split.
  - repeat split.
Qed.

Lemma load_param_shape (sd : StateDict) (name : string) (p q : Tensor) :
  shape p = shape q -> load_param sd name p = load_param sd name q.
Proof. intros H. unfold load_param. rewrite H. reflexivity. Qed.

Lemma load_Conv2d_indep (sd : StateDict) (prefix : string) (l m : Conv2d) :
  conv_dims l = conv_dims m -> conv_layout l = conv_layout m ->
  load_Conv2d sd prefix l = load_Conv2d sd prefix m.
Proof.
  unfold conv_dims, conv_layout, load_Conv2d. intros Hd Hl.
  injection Hd as -> -> -> ->. injection Hl as Hw Hb.
  rewrite (load_param_shape _ _ _ _ Hw), (load_param_shape _ _ _ _ Hb). reflexivity.
Qed.

Lemma load_Linear_indep (sd : StateDict) (prefix : string) (l m : Linear) :
  linear_dims l = linear_dims m -> linear_layout l = linear_layout m ->
  load_Linear sd prefix l = load_Linear sd prefix m.
Proof.
  unfold linear_dims, linear_layout, load_Linear. intros Hd Hl.
  injection Hd as -> ->. injection Hl as Hw Hb.
  rewrite (load_param_shape _ _ _ _ Hw), (load_param_shape _ _ _ _ Hb). reflexivity.
Qed.

Lemma load_Conv2d_dims (sd : StateDict) (prefix : string) (l l' : Conv2d) :
  load_Conv2d sd prefix l = Ok l' -> conv_dims l' = conv_dims l.
Proof.
  unfold load_Conv2d.
  destruct (load_param sd _ (conv_weight l)); cbn [res_bind]; [| discriminate].
  destruct (load_param sd _ (conv_bias l)); cbn [res_bind]; [| discriminate].
  intros H. injection H as <-. reflexivity.
Qed.

Lemma load_Linear_dims (sd : StateDict) (prefix : string) (l l' : Linear) :
  load_Linear sd prefix l = Ok l' -> linear_dims l' = linear_dims l.
Proof.
  unfold load_Linear.
  destruct (load_param sd _ (weight l)); cbn [res_bind]; [| discriminate].
  destruct (load_param sd _ (bias l)); cbn [res_bind]; [| discriminate].
  intros H. injection H as <-. reflexivity.
Qed.

(** Loading a state dict overwrites every parameter: the outcome does not
    depend on the values the model held before. *)
Lemma Net_load_state_dict_indep (sd : StateDict) (n m : Net) :
  Net_architecture n -> Net_architecture m -> Net_layout n -> Net_layout m ->
  Net_load_state_dict n sd = Net_load_state_dict m sd.
Proof.
  intros (A1 & A2 & A3 & A4) (B1 & B2 & B3 & B4) (C1 & C2 & C3 & C4) (D1 & D2 & D3 & D4).
  unfold Net_load_state_dict.
  rewrite (load_Conv2d_indep sd _ (conv1 n) (conv1 m)) by congruence.
  rewrite (load_Conv2d_indep sd _ (conv2 n) (conv2 m)) by congruence.
  rewrite (load_Linear_indep sd _ (fc1 n) (fc1 m)) by congruence.
  rewrite (load_Linear_indep sd _ (fc2 n) (fc2 m)) by congruence.
  reflexivity.
Qed.

Lemma VAE_load_state_dict_indep (sd : StateDict) (n m : VAE) :
  VAE_dims n -> VAE_dims m -> VAE_layout n -> VAE_layout m ->
  VAE_load_state_dict n sd = VAE_load_state_dict m sd.
Proof.
  intros (A1 & A2 & A3 & A4 & A5) (B1 & B2 & B3 & B4 & B5)
         (C1 & C2 & C3 & C4 & C5) (D1 & D2 & D3 & D4 & D5).
  unfold VAE_load_state_dict.
  rewrite (load_Linear_indep sd _ (vfc1 n) (vfc1 m)) by congruence.
  rewrite (load_Linear_indep sd _ (vfc21 n) (vfc21 m)) by congruence.
  rewrite (load_Linear_indep sd _ (vfc22 n) (vfc22 m)) by congruence.
  rewrite (load_Linear_indep sd _ (vfc3 n) (vfc3 m)) by congruence.
  rewrite (load_Linear_indep sd _ (vfc4 n) (vfc4 m)) by congruence.
  reflexivity.
Qed.

Lemma Net_load_state_dict_architecture (sd : StateDict) (n n' : Net) :
  Net_load_state_dict n sd = Ok n' -> Net_architecture n -> Net_architecture n'.
Proof.
  unfold Net_load_state_dict. destruct (no_unexpected_keys sd _); [| discriminate].
  destruct (load_Conv2d sd "conv1" (conv1 n)) as [c1 |] eqn:E1; cbn [res_bind]; [| discriminate].
  destruct (load_Conv2d sd "conv2" (conv2 n)) as [c2 |] eqn:E2; cbn [res_bind]; [| discriminate].
  destruct (load_Linear sd "fc1" (fc1 n)) as [f1 |] eqn:E3; cbn [res_bind]; [| discriminate].
  destruct (load_Linear sd "fc2" (fc2 n)) as [f2 |] eqn:E4; cbn [res_bind]; [| discriminate].
  intros H (A1 & A2 & A3 & A4). injection H as <-.
  apply load_Conv2d_dims in E1, E2. apply load_Linear_dims in E3, E4.
  unfold Net_architecture. cbn [conv1 conv2 fc1 fc2]. repeat split; congruence.
Qed.

Lemma VAE_load_state_dict_architecture (sd : StateDict) (v v' : VAE) :
  VAE_load_state_dict v sd = Ok v' -> VAE_architecture v -> VAE_architecture v'.
Proof.
  unfold VAE_load_state_dict. destruct (no_unexpected_keys sd _); [| discriminate].
  destruct (load_Linear sd "fc1" (vfc1 v)) as [f1 |] eqn:E1; cbn [res_bind]; [| discriminate].
  destruct (load_Linear sd "fc21" (vfc21 v)) as [f21 |] eqn:E2; cbn [res_bind]; [| discriminate].
  destruct (load_Linear sd "fc22" (vfc22 v)) as [f22 |] eqn:E3; cbn [res_bind]; [| discriminate].
  destruct (load_Linear sd "fc3" (vfc3 v)) as [f3 |] eqn:E4; cbn [res_bind]; [| discriminate].
  destruct (load_Linear sd "fc4" (vfc4 v)) as [f4 |] eqn:E5; cbn [res_bind]; [| discriminate].
  intros H (A1 & A2). injection H as <-.
  apply load_Linear_dims in E4, E5.
  unfold VAE_architecture. cbn [vfc3 vfc4]. split; congruence.
Qed.

(** The exceptions of [load_state_dict]. *)
Lemma Net_load_state_dict_error (sd : StateDict) (n : Net) (e : Exc) :
  Net_load_state_dict n sd = Raise e -> configuration_error e.
Proof.
  unfold Net_load_state_dict, load_Conv2d, load_Linear, load_param, state_dict_error.
  intros H. right.
  repeat match type of H with
         | context [match ?t with _ => _ end] => destruct t; cbn [res_bind] in H
         | context [if ?t then _ else _] => destruct t; cbn [res_bind] in H
         end; congruence.
Qed.

Lemma VAE_load_state_dict_error (sd : StateDict) (v : VAE) (e : Exc) :
  VAE_load_state_dict v sd = Raise e -> configuration_error e.
Proof.
  unfold VAE_load_state_dict, load_Linear, load_param, state_dict_error.
  intros H. right.
  repeat match type of H with
         | context [match ?t with _ => _ end] => destruct t; cbn [res_bind] in H
         | context [if ?t then _ else _] => destruct t; cbn [res_bind] in H
         end; congruence.
Qed.

Lemma torch_load_error (path : string) (e : Exc) :
  torch_load env path = Raise e -> configuration_error e.
Proof.
  unfold torch_load. destruct (files env path); [discriminate |].
  intros H. injection H as <-. left. eexists. reflexivity.
Qed.

Lemma get_pretrained_dir_error (e : Exc) :
  get_pretrained_dir env = Raise e -> configuration_error e.
Proof.
  unfold get_pretrained_dir. destruct (environ env _); [discriminate |].
  destruct (String.eqb _ "botorch"); [discriminate |].
  destruct (String.eqb _ "tutorials"); [discriminate |].
  intros H. injection H as <-. left. eexists. reflexivity.
Qed.


Lemma blank_Net_ok : Net_architecture blank_Net /\ Net_layout blank_Net.
Proof. split; repeat split. Qed.

Lemma blank_VAE_ok : VAE_dims blank_VAE /\ VAE_layout blank_VAE.
Proof. split; repeat split. Qed.

Lemma pretrained_cnn_architecture (net : Net) :
  pretrained_cnn env = Ok net -> Net_architecture net.
Proof.
  unfold pretrained_cnn.
  destruct (get_pretrained_dir env) as [dir |]; cbn [res_bind]; [| discriminate].
  destruct (torch_load env _) as [sd |]; cbn [res_bind]; [| discriminate].
  intros H. apply (Net_load_state_dict_architecture _ _ _ H). apply blank_Net_ok.
Qed.

Lemma pretrained_vae_architecture (vae : VAE) :
  pretrained_vae env = Ok vae -> VAE_architecture vae.
Proof.
  unfold pretrained_vae.
  destruct (get_pretrained_dir env) as [dir |]; cbn [res_bind]; [| discriminate].
  destruct (torch_load env _) as [sd |]; cbn [res_bind]; [| discriminate].
  intros H. apply (VAE_load_state_dict_architecture _ _ _ H). apply blank_VAE_ok.
Qed.

Lemma pretrained_cnn_error (e : Exc) :
  pretrained_cnn env = Raise e -> configuration_error e.
Proof.
  unfold pretrained_cnn.
  destruct (get_pretrained_dir env) as [dir |] eqn:Ed; cbn [res_bind].
  - destruct (torch_load env _) as [sd |] eqn:El; cbn [res_bind].
    + apply Net_load_state_dict_error.
    + intros H. injection H as <-. apply (torch_load_error _ _ El).
  - intros H. injection H as <-. apply (get_pretrained_dir_error _ Ed).
Qed.

Lemma pretrained_vae_error (e : Exc) :
  pretrained_vae env = Raise e -> configuration_error e.
Proof.
  unfold pretrained_vae.
  destruct (get_pretrained_dir env) as [dir |] eqn:Ed; cbn [res_bind].
  - destruct (torch_load env _) as [sd |] eqn:El; cbn [res_bind].
    + apply VAE_load_state_dict_error.
    + intros H. injection H as <-. apply (torch_load_error _ _ El).
  - intros H. injection H as <-. apply (get_pretrained_dir_error _ Ed).
Qed.

(** In[5]: the outcome is that of [pretrained_cnn]; the results and the
    decoder are untouched. *)
Lemma load_cnn_model_spec w (r : Res unit) w' :
  load_cnn_model rt env w = (r, w') ->
  same_results w w' /\ vae_model w' = vae_model w /\
  match pretrained_cnn env with
  | Ok net => r = Ok tt /\ cnn_model w' = Some net
  | Raise e => r = Raise e
  end.
Proof.
  unfold load_cnn_model, pretrained_cnn. intros H.
  apply bind_inv in H. destruct H as [(e & H & ->) | (dir & w1 & Hd & H)];
    apply lift_inv in H || apply lift_inv in Hd.
  { destruct H as [-> ->]. cbn [res_bind]. repeat split. }
  destruct Hd as [-> ->]. cbn [res_bind].
  destruct (Net_new_ok w) as (n & En & An & Ln).
  unfold bind at 1 in H. rewrite En in H.
  unfold bind at 1, modify at 1 in H.
  unfold bind at 1, lift at 1 in H.
  destruct (torch_load env (path_join dir "mnist_cnn.pt")) as [sd | e]; cbn [res_bind].
  2:{ injection H as <- <-. repeat split. }
  unfold bind at 1, lift at 1 in H.
  rewrite (Net_load_state_dict_indep sd blank_Net n) by (assumption || apply blank_Net_ok).
  destruct (Net_load_state_dict n sd) as [net | e].
  - unfold modify in H. injection H as <- <-. repeat split.
  - injection H as <- <-. repeat split.
Qed.

Lemma load_vae_model_spec w (r : Res unit) w' :
  load_vae_model rt env w = (r, w') ->
  same_results w w' /\ cnn_model w' = cnn_model w /\
  match pretrained_vae env with
  | Ok vae => r = Ok tt /\ vae_model w' = Some vae
  | Raise e => r = Raise e
  end.
Proof.
  unfold load_vae_model, pretrained_vae. intros H.
  apply bind_inv in H. destruct H as [(e & H & ->) | (dir & w1 & Hd & H)];
    apply lift_inv in H || apply lift_inv in Hd.
  { destruct H as [-> ->]. cbn [res_bind]. repeat split. }
  destruct Hd as [-> ->]. cbn [res_bind].
  destruct (VAE_new_ok w) as (n & En & An & Ln).
  unfold bind at 1 in H. rewrite En in H.
  unfold bind at 1, modify at 1 in H.
  unfold bind at 1, lift at 1 in H.
  destruct (torch_load env (path_join dir "mnist_vae.pt")) as [sd | e]; cbn [res_bind].
  2:{ injection H as <- <-. repeat split. }
  unfold bind at 1, lift at 1 in H.
  rewrite (VAE_load_state_dict_indep sd blank_VAE n) by (assumption || apply blank_VAE_ok).
  destruct (VAE_load_state_dict n sd) as [vae | e].
  - unfold modify in H. injection H as <- <-. repeat split.
  - injection H as <- <-. repeat split.
Qed.

(** *** The initial batch and one round of the loop *)

Lemma unnormalize_shape (u b x : Tensor) : unnormalize u b = Ok x -> shape x = shape u.
Proof.
  unfold unnormalize. destruct (shape b) as [|[|[|[|?]]] [|c [|? ?]]]; try discriminate.
  destruct (shape u) as [|n t] eqn:E; [discriminate |].
  destruct (Nat.eqb _ c); [| discriminate].
  intros H. injection H as <-. reflexivity.
Qed.

Lemma get_fitted_model_world (x obj : Tensor) (sd : option StateDict) (r : Res (GP rt)) w w' :
  get_fitted_model rt x obj sd w = (r, w') -> exists g, w' = set_gen g w.
Proof.
  assert (Hid : w = set_gen (gen w) w) by (destruct w; reflexivity).
  unfold get_fitted_model. intros H. destruct sd; repeat step_all;
    solve [ eexists; reflexivity | exists (gen w); exact Hid ].
Qed.

(** The world after In[12]. *)
Lemma bo_init_ok (cfg : Config) w w' :
  bo_init rt cfg w = (Ok tt, w') ->
  exists x s m,
    unnormalize
      (mkTensor [n_init cfg; d]
         (fst (uniform rt (n_init cfg * d) (manual_seed rt (seed cfg))))) bounds = Ok x /\
    (exists w1, cnn_model w1 = cnn_model w /\ vae_model w1 = vae_model w /\
                fst (evaluate rt x w1) = Ok s) /\
    tensor_max (unsqueeze_last s) = Ok m /\
    w' = mkWorld rt (snd (uniform rt (n_init cfg * d) (manual_seed rt (seed cfg))))
           (decoded w ++ [x]) (cnn_model w) (vae_model w)
           (Some x) (Some (unsqueeze_last s)) (Some [m]) (state_dict w).
Proof.
  unfold bo_init, gen_initial_data, torch_rand. intros H. steps_ok.
  cbn [fst snd] in *.
  match goal with
  | F : evaluate _ _ _ = _ |- _ => pose proof (evaluate_world _ _ _ _ F) as ->; rename F into Hev
  end.
  cbn in E1. injection E1 as <-.
  do 3 eexists. split; [eassumption |]. split; [| split; [eassumption |]].
  - eexists. split; [| split; [| rewrite Hev; reflexivity]]; reflexivity.
  - reflexivity.
Qed.

(** The world after one round of the loop. *)
Lemma bo_iteration_ok (cfg : Config) w w' :
  bo_iteration rt cfg w = (Ok tt, w') ->
  exists x obj sd h model acq g1 res g2 new_x s x' obj' m,
    train_x w = Some x /\ train_obj w = Some obj /\
    state_dict w = Some sd /\ best_observed w = Some h /\
    make_qEI rt model obj = Ok acq /\
    optimize_acqf rt acq unit_cube (BATCH_SIZE cfg) (NUM_RESTARTS cfg) (RAW_SAMPLES cfg) g1
    = (Ok res, g2) /\
    unnormalize (fst res) bounds = Ok new_x /\
    (exists w1, cnn_model w1 = cnn_model w /\ vae_model w1 = vae_model w /\
                fst (evaluate rt new_x w1) = Ok s) /\
    cat x new_x = Ok x' /\ cat obj (unsqueeze_last s) = Ok obj' /\
    tensor_max obj' = Ok m /\
    w' = mkWorld rt g2 (decoded w ++ [new_x]) (cnn_model w) (vae_model w)
           (Some x') (Some obj') (Some (h ++ [m])) (Some (Some (gp_state_dict rt model))).
Proof.
  unfold bo_iteration, optimize_acqf_and_get_observation. intros H.
  do 4 step_ok.
  match goal with
  | F : get_fitted_model _ _ _ _ _ = _ |- _ =>
      destruct (get_fitted_model_world _ _ _ _ _ _ F) as [g0 ->]; clear F
  end.
  steps_ok. cbn [fst snd] in *.
  match goal with
  | F : evaluate _ _ _ = _ |- _ => pose proof (evaluate_world _ _ _ _ F) as ->; rename F into Hev
  end.
  match goal with
  | F : fst (optimize_acqf _ _ _ _ _ _ _) = Ok ?r |- _ => rename F into Hopt
  end.
  match goal with
  | F : best_observed _ = Some ?l |- _ => cbn in F; rename F into Hh
  end.
  do 14 eexists.
  split; [eassumption |]. split; [eassumption |]. split; [eassumption |].
  split; [exact Hh |]. split; [eassumption |].
  split; [rewrite <- Hopt; apply surjective_pairing |].
  split; [eassumption |].
  split; [eexists; split; [| split; [| rewrite Hev; reflexivity]]; reflexivity |].
  split; [eassumption |]. split; [eassumption |]. split; [eassumption |].
  reflexivity.
Qed.

(** *** Maxima and histories *)

Lemma fold_left_Rmax_ge (l : list R) :
  forall v, v <= fold_left Rmax l v /\ Forall (fun a => a <= fold_left Rmax l v) l.
Proof.
  induction l as [|a l IH]; intros v; simpl; [split; [lra | constructor] |].
  destruct (IH (Rmax v a)) as [H1 H2].
  pose proof (Rmax_l v a). pose proof (Rmax_r v a).
  split; [lra |]. constructor; [lra | exact H2].
Qed.

Lemma fold_left_Rmax_in (l : list R) :
  forall v, fold_left Rmax l v = v \/ In (fold_left Rmax l v) l.
Proof.
  induction l as [|a l IH]; intros v; simpl; [left; reflexivity |].
  destruct (IH (Rmax v a)) as [H | H].
  - rewrite H. unfold Rmax. destruct (Rle_dec v a); [right; left; reflexivity | left; reflexivity].
  - right. right. exact H.
Qed.

Lemma tensor_max_is_max (t : Tensor) (m : R) : tensor_max t = Ok m -> is_max m (data t).
Proof.
  unfold tensor_max. destruct (data t) as [|v l]; [discriminate |].
  intros H. injection H as <-. split.
  - destruct (fold_left_Rmax_in l v) as [-> | H]; [left; reflexivity | right; exact H].
  - destruct (fold_left_Rmax_ge l v) as [H1 H2]. constructor; assumption.
Qed.

Lemma is_max_app_le (m m' : R) (l l' : list R) :
  is_max m l -> is_max m' (l ++ l') -> m <= m'.
Proof.
  intros [Hin _] [_ Hall]. rewrite Forall_forall in Hall.
  apply Hall. apply in_or_app. left. exact Hin.
Qed.

Lemma is_max_score (m : R) (l : list R) : Forall is_score l -> is_max m l -> is_score m.
Proof. intros Hall [Hin _]. rewrite Forall_forall in Hall. apply Hall. exact Hin. Qed.

Lemma nondecreasing_snoc (h : list R) (m m' : R) :
  nondecreasing (h ++ [m]) -> m <= m' -> nondecreasing ((h ++ [m]) ++ [m']).
Proof.
  intros Hn Hle i Hi. rewrite !length_app in Hi. simpl in Hi.
  destruct (Nat.eq_dec i (List.length h)) as [-> | Hne].
  - rewrite app_nth1 by (rewrite length_app; simpl; lia).
    rewrite nth_middle.
    rewrite app_nth2 by (rewrite length_app; simpl; lia).
    rewrite length_app. cbn [List.length].
    replace (S (List.length h) - (List.length h + 1))%nat with 0%nat by lia.
    exact Hle.
  - rewrite !app_nth1 with (l' := [m']) by (rewrite length_app; simpl; lia).
    apply Hn. rewrite length_app. simpl. lia.
Qed.

Lemma cat_ok (x y z : Tensor) :
  cat x y = Ok z ->
  data z = data x ++ data y /\
  exists n m s, shape x = n :: s /\ shape y = m :: s /\ shape z = (n + m)%nat :: s.
Proof.
  unfold cat. destruct (shape x) as [|n s]; [discriminate |].
  destruct (shape y) as [|m t]; [discriminate |].
  destruct (shape_eqb s t) eqn:E; [| discriminate].
  apply shape_eqb_eq in E. subst t. intros H. injection H as <-.
  split; [reflexivity |]. exists n, m, s. repeat split.
Qed.

(** *** The loop *)

Lemma bo_loop_invariant (cfg : Config) (I : nat -> World rt -> Prop) :
  (forall j w w', I j w -> bo_iteration rt cfg w = (Ok tt, w') -> I (S j) w') ->
  forall k j w w', I j w -> bo_loop rt cfg k w = (Ok tt, w') -> I (k + j)%nat w'.
Proof.
  intros Hstep. induction k as [|k IH]; intros j w w' Hj H.
  - cbn [bo_loop] in H. step_ok. exact Hj.
  - cbn [bo_loop] in H. step_ok. destruct a.
    replace (S k + j)%nat with (k + S j)%nat by lia.
    apply (IH _ w0); [eapply Hstep; eassumption | exact H].
Qed.

Lemma bo_loop_split (cfg : Config) (j i : nat) w w' :
  bo_loop rt cfg (j + i) w = (Ok tt, w') ->
  exists w1, bo_loop rt cfg j w = (Ok tt, w1) /\ bo_loop rt cfg i w1 = (Ok tt, w').
Proof.
  revert w. induction j as [|j IH]; intros w H.
  - exists w. split; [reflexivity | exact H].
  - change (S j + i)%nat with (S (j + i)) in H. cbn [bo_loop] in H. step_ok. destruct a.
    destruct (IH _ H) as (w1 & H1 & H2). exists w1. split; [| exact H2].
    cbn [bo_loop]. unfold bind at 1. rewrite Ha. exact H1.
Qed.

Lemma bo_run_ok (cfg : Config) (k : nat) w w' :
  bo_run rt cfg k w = (Ok tt, w') ->
  exists w0, bo_init rt cfg w = (Ok tt, w0) /\
             bo_loop rt cfg k (set_state_dict None w0) = (Ok tt, w').
Proof.
  unfold bo_run. intros H. do 2 step_ok. destruct a. step_ok.
  eexists. split; eassumption.
Qed.

(** In[1] to In[6] either stop the script with a configuration error, the
    results untouched, or leave both pretrained models in place. *)
Lemma script_upto_inv (cfg : Config) (k : nat) w (r : Res unit) w' :
  script_upto rt env cfg k w = (r, w') ->
  match pretrained_cnn env, pretrained_vae env with
  | Ok net, Ok vae =>
      exists w1, same_results w w1 /\ cnn_model w1 = Some net /\ vae_model w1 = Some vae
                 /\ bo_run rt cfg k w1 = (r, w')
                 /\ forall cfg' j, script_upto rt env cfg' j w = bo_run rt cfg' j w1
  | Raise e, _ => r = Raise e /\ same_results w w'
  | Ok _, Raise e => r = Raise e /\ same_results w w'
  end.
Proof.
  unfold script_upto. intros H.
  apply bind_inv in H. destruct H as [(e & H & ->) | (u & w1 & H1 & H)].
  { apply load_cnn_model_spec in H. destruct H as (Hs & _ & H).
    destruct (pretrained_cnn env); [destruct H; discriminate |]. split; assumption. }
  pose proof H1 as H1'.
  apply load_cnn_model_spec in H1. destruct H1 as (Hs1 & _ & H1).
  destruct (pretrained_cnn env) as [net | e]; [| discriminate].
  destruct H1 as [_ Hnet].
  apply bind_inv in H. destruct H as [(e & H & ->) | (u' & w2 & H2 & H)].
  { apply load_vae_model_spec in H. destruct H as (Hs & _ & H).
    destruct (pretrained_vae env); [destruct H; discriminate |].
    split; [assumption | eapply same_results_trans; eassumption]. }
  pose proof H2 as H2'.
  apply load_vae_model_spec in H2. destruct H2 as (Hs2 & Hc & H2).
  destruct (pretrained_vae env) as [vae | e]; [| discriminate].
  destruct H2 as [_ Hvae].
  exists w2. split; [eapply same_results_trans; eassumption |].
  split; [congruence |]. split; [assumption |]. split; [assumption |].
  intros cfg' j. unfold bind at 1. rewrite H1'. unfold bind at 1. rewrite H2'. reflexivity.
Qed.

Lemma script_upto_ok (cfg : Config) (k : nat) w w' :
  script_upto rt env cfg k w = (Ok tt, w') ->
  exists w1, same_results w w1 /\ models_loaded w1 /\ bo_run rt cfg k w1 = (Ok tt, w')
             /\ forall cfg' j, script_upto rt env cfg' j w = bo_run rt cfg' j w1.
Proof.
  intros H. apply script_upto_inv in H.
  destruct (pretrained_cnn env) as [net | e] eqn:En; [| destruct H; discriminate].
  destruct (pretrained_vae env) as [vae | e] eqn:Ev; [| destruct H; discriminate].
  destruct H as (w1 & Hs & Hc & Hv & H & Hall). exists w1. split; [exact Hs |].
  split; [| split; [exact H | exact Hall]]. split.
  - exists net. split; [exact Hc | apply pretrained_cnn_architecture; exact En].
  - exists vae. split; [exact Hv | apply pretrained_vae_architecture; exact Ev].
Qed.

(** *** The history of the best value *)

Lemma best_history_invariant (cfg : Config) (k : nat) w w' :
  bo_run rt cfg k w = (Ok tt, w') ->
  exists obj h m,
    train_obj w' = Some obj /\ best_observed w' = Some (h ++ [m]) /\
    is_max m (data obj) /\ nondecreasing (h ++ [m]) /\ List.length h = k.
Proof.
  intros H. apply bo_run_ok in H. destruct H as (w0 & Hinit & Hloop).
  apply bo_init_ok in Hinit. destruct Hinit as (x & s & m & _ & _ & Hm & ->).
  rewrite <- (Nat.add_0_r k).
  revert Hloop.
  apply (bo_loop_invariant cfg (fun j w1 =>
    exists obj h m,
      train_obj w1 = Some obj /\ best_observed w1 = Some (h ++ [m]) /\
      is_max m (data obj) /\ nondecreasing (h ++ [m]) /\ List.length h = j)).
  - clear. intros j w w' (obj & h & m & Hobj & Hh & Hmax & Hnd & Hlen) H.
    apply bo_iteration_ok in H.
    destruct H as (x0 & obj0 & sd & h0 & model & acq & g1 & res & g2 & new_x & s & x' & obj'
                   & m' & _ & Hobj0 & _ & Hh0 & _ & _ & _ & _ & _ & Hcat & Hm' & ->).
    rewrite Hobj in Hobj0. injection Hobj0 as <-.
    rewrite Hh in Hh0. injection Hh0 as <-.
    apply tensor_max_is_max in Hm'. apply cat_ok in Hcat. destruct Hcat as [Hdata _].
    exists obj', (h ++ [m]), m'. cbn [train_obj best_observed].
    split; [reflexivity |]. split; [reflexivity |]. split; [exact Hm' |].
    split; [| rewrite length_app; simpl; lia].
    apply nondecreasing_snoc; [exact Hnd |].
    rewrite Hdata in Hm'. apply (is_max_app_le _ _ _ _ Hmax Hm').
  - exists (unsqueeze_last s), [], m. cbn.
    split; [reflexivity |]. split; [reflexivity |].
    split; [apply tensor_max_is_max; exact Hm |].
    split; [| reflexivity]. intros i Hi. simpl in Hi. lia.
Qed.

(** *** The box and the unit cube *)

Lemma unit_cube_bounds (k : nat) :
  (k < d)%nat -> lower unit_cube k = 0 /\ upper unit_cube k = 1.
Proof.
  unfold d. intros Hk.
  do 20 (destruct k as [|k]; [split; reflexivity |]). lia.
Qed.

Lemma box_bounds (k : nat) :
  (k < d)%nat -> lower bounds k = -6 /\ upper bounds k = 6.
Proof.
  unfold d. intros Hk.
  do 20 (destruct k as [|k]; [split; reflexivity |]). lia.
Qed.

Lemma length_map_columns (c : nat) (f : nat -> R -> R) (l : list R) :
  List.length (map_columns c f l) = List.length l.
Proof.
  unfold map_columns. rewrite length_map, length_combine, length_seq. apply Nat.min_id.
Qed.

Lemma nth_map_columns (c : nat) (f : nat -> R -> R) (l : list R) (i : nat) :
  (i < List.length l)%nat -> nth i (map_columns c f l) 0 = f (i mod c)%nat (nth i l 0).
Proof.
  intros Hi. unfold map_columns.
  rewrite (nth_indep _ 0 ((fun p => f (fst p mod c)%nat (snd p)) (0%nat, 0)))
    by (rewrite length_map, length_combine, length_seq, Nat.min_id; exact Hi).
  rewrite (map_nth (fun p => f (fst p mod c)%nat (snd p))).
  rewrite combine_nth by (rewrite length_seq; reflexivity).
  rewrite seq_nth by exact Hi. reflexivity.
Qed.

Lemma unnormalize_eq (u : Tensor) (n : nat) :
  shape u = [n; d] ->
  unnormalize u bounds
  = Ok (mkTensor [n; d]
          (map_columns d (fun k v => v * (upper bounds k - lower bounds k) + lower bounds k)
             (data u))).
Proof.
  intros Hs. unfold unnormalize. change (shape bounds) with [2%nat; d].
  rewrite Hs. cbn [last]. rewrite Nat.eqb_refl. reflexivity.
Qed.

(** [unnormalize] maps the unit cube into the box. *)
Lemma unnormalize_within (u x : Tensor) :
  within unit_cube u -> unnormalize u bounds = Ok x -> within bounds x.
Proof.
  unfold within. change (last (shape unit_cube) 0%nat) with d.
  change (last (shape bounds) 0%nat) with d.
  intros [[n Hs] Hu] H. rewrite (unnormalize_eq _ n Hs) in H. injection H as <-.
  cbn [shape data]. split; [exists n; reflexivity |].
  intros i Hi. rewrite length_map_columns in Hi.
  rewrite nth_map_columns by exact Hi.
  specialize (Hu i Hi).
  assert (Hk : (i mod d < d)%nat) by (apply Nat.mod_upper_bound; discriminate).
  destruct (unit_cube_bounds _ Hk) as [L0 U0]. destruct (box_bounds _ Hk) as [L1 U1].
  rewrite L0, U0 in Hu. rewrite L1, U1. lra.
Qed.

Lemma uniform_within (n m : nat) (g : Gen rt) :
  uniform_in_unit_interval rt -> within unit_cube (mkTensor [n; d] (fst (uniform rt m g))).
Proof.
  intros Hu. unfold within. change (last (shape unit_cube) 0%nat) with d.
  cbn [data shape]. split; [exists n; reflexivity |].
  intros i Hi.
  assert (Hk : (i mod d < d)%nat) by (apply Nat.mod_upper_bound; discriminate).
  destruct (unit_cube_bounds _ Hk) as [-> ->].
  specialize (Hu m g). rewrite Forall_forall in Hu.
  specialize (Hu _ (nth_In _ 0 Hi)). lra.
Qed.

(** A batch of the box has twenty columns and entries between -6 and 6. *)
Lemma within_bounds_entries (x : Tensor) :
  within bounds x -> (exists n, shape x = [n; 20%nat]) /\ entries_between (-6) 6 x.
Proof.
  unfold within. change (last (shape bounds) 0%nat) with d.
  intros [Hs Hx]. split; [exact Hs |].
  unfold entries_between. apply Forall_forall. intros v Hv.
  destruct (In_nth _ _ 0 Hv) as (i & Hi & <-).
  specialize (Hx i Hi).
  assert (Hk : (i mod d < d)%nat) by (apply Nat.mod_upper_bound; discriminate).
  destruct (box_bounds _ Hk) as [L U]. rewrite L, U in Hx. exact Hx.
Qed.

(** *** The size of the dataset *)

Lemma models_loaded_eq w w1 :
  cnn_model w1 = cnn_model w -> vae_model w1 = vae_model w ->
  models_loaded w -> models_loaded w1.
Proof. unfold models_loaded. intros -> ->. exact (fun H => H). Qed.

Lemma evaluate_rows (x s : Tensor) (n : nat) w :
  (exists w1, cnn_model w1 = cnn_model w /\ vae_model w1 = vae_model w /\
              fst (evaluate rt x w1) = Ok s) ->
  models_loaded w -> shape x = [n; d] ->
  shape s = [n] /\ List.length (data s) = n /\ Forall is_score (data s).
Proof.
  intros (w1 & Hc & Hv & He) Hm Hx.
  destruct (evaluate_total x n w1 (models_loaded_eq _ _ Hc Hv Hm) Hx) as (s' & He' & Hs').
  pose proof He' as He''. rewrite He' in He. cbn [fst] in He. injection He as ->.
  apply evaluate_ok in He''. destruct He'' as (b & Hb & Hl & Hf).
  rewrite Hs' in Hb. injection Hb as <-. auto.
Qed.


Lemma dataset_size_invariant (cfg : Config) (k : nat) w w' :
  optimizer_returns_batch rt -> models_loaded w ->
  bo_run rt cfg k w = (Ok tt, w') ->
  exists x obj,
    train_x w' = Some x /\ train_obj w' = Some obj /\
    shape x = [(n_init cfg + k * BATCH_SIZE cfg)%nat; d] /\
    shape obj = [(n_init cfg + k * BATCH_SIZE cfg)%nat; 1%nat].
Proof.
  intros Hopt Hm H. apply bo_run_ok in H. destruct H as (w0 & Hinit & Hloop).
  apply bo_init_ok in Hinit. destruct Hinit as (x & s & m & Hun & Hev & _ & ->).
  pose proof (unnormalize_shape _ _ _ Hun) as Hx. cbn [shape] in Hx.
  destruct (evaluate_rows _ _ _ _ Hev Hm Hx) as (Hs & _ & _).
  assert (G : models_loaded w' /\ exists x obj,
    train_x w' = Some x /\ train_obj w' = Some obj /\
    shape x = [(n_init cfg + (k + 0) * BATCH_SIZE cfg)%nat; d] /\
    shape obj = [(n_init cfg + (k + 0) * BATCH_SIZE cfg)%nat; 1%nat]).
  2:{ rewrite Nat.add_0_r in G. apply G. }
  revert Hloop.
  apply (bo_loop_invariant cfg (fun j w1 =>
    models_loaded w1 /\ exists x obj,
      train_x w1 = Some x /\ train_obj w1 = Some obj /\
      shape x = [(n_init cfg + j * BATCH_SIZE cfg)%nat; d] /\
      shape obj = [(n_init cfg + j * BATCH_SIZE cfg)%nat; 1%nat])).
  - clear - Hopt. intros j w w' (Hm & x & obj & Hx & Hobj & Hsx & Hso) H.
    apply bo_iteration_ok in H.
    destruct H as (x0 & obj0 & sd & h0 & model & acq & g1 & res & g2 & new_x & s & x' & obj'
                   & m' & Hx0 & Hobj0 & _ & _ & _ & Hcall & Hun & Hev & Hcx & Hco & _ & ->).
    rewrite Hx in Hx0. injection Hx0 as <-. rewrite Hobj in Hobj0. injection Hobj0 as <-.
    destruct res as [cand v]. apply Hopt in Hcall. cbn [fst] in Hun.
    pose proof (unnormalize_shape _ _ _ Hun) as Hnx. rewrite Hcall in Hnx.
    change (last (shape unit_cube) 0%nat) with d in Hnx.
    destruct (evaluate_rows _ _ _ _ Hev Hm Hnx) as (Hs & _ & _).
    apply cat_ok in Hcx, Hco.
    destruct Hcx as (_ & n1 & m1 & s1 & E1 & E2 & E3).
    destruct Hco as (_ & n2 & m2 & s2 & F1 & F2 & F3).
    rewrite Hsx in E1. injection E1 as <- <-. rewrite Hnx in E2. injection E2 as <-.
    rewrite Hso in F1. injection F1 as <- <-.
    unfold unsqueeze_last in F2. cbn [shape] in F2. rewrite Hs in F2. injection F2 as <-.
    split; [exact Hm |]. exists x', obj'. cbn [train_x train_obj].
    split; [reflexivity |]. split; [reflexivity |].
    rewrite E3, F3. split; f_equal; simpl; lia.
  - split; [exact Hm |]. exists x, (unsqueeze_last s). cbn.
    split; [reflexivity |]. split; [reflexivity |].
    rewrite Hx, Hs, Nat.add_0_r. split; reflexivity.
Qed.

Lemma extends_refl (x : Tensor) : extends x x.
Proof. exists []. rewrite app_nil_r. reflexivity. Qed.

Lemma extends_trans (x y z : Tensor) : extends x y -> extends y z -> extends x z.
Proof. intros [r1 H1] [r2 H2]. exists (r1 ++ r2). rewrite H2, H1, app_assoc. reflexivity. Qed.

(** The loop only appends to the dataset. *)
Lemma bo_loop_extends (cfg : Config) (k : nat) w w' (x obj : Tensor) :
  train_x w = Some x -> train_obj w = Some obj ->
  bo_loop rt cfg k w = (Ok tt, w') ->
  exists x' obj', train_x w' = Some x' /\ train_obj w' = Some obj' /\
                  extends x x' /\ extends obj obj'.
Proof.
  intros Hx Hobj Hloop.
  refine (bo_loop_invariant cfg (fun _ w1 =>
    exists x' obj', train_x w1 = Some x' /\ train_obj w1 = Some obj' /\
                    extends x x' /\ extends obj obj') _ k 0%nat w w' _ Hloop).
  - clear. intros _ w w' (x1 & obj1 & Hx1 & Hobj1 & Ex & Eo) H.
    apply bo_iteration_ok in H.
    destruct H as (x0 & obj0 & sd & h0 & model & acq & g1 & res & g2 & new_x & s & x' & obj'
                   & m' & Hx0 & Hobj0 & _ & _ & _ & _ & _ & _ & Hcx & Hco & _ & ->).
    rewrite Hx1 in Hx0. injection Hx0 as <-. rewrite Hobj1 in Hobj0. injection Hobj0 as <-.
    apply cat_ok in Hcx, Hco. destruct Hcx as [Dx _]. destruct Hco as [Do _].
    exists x', obj'. cbn [train_x train_obj].
    split; [reflexivity |]. split; [reflexivity |].
    split; [apply (extends_trans _ _ _ Ex) | apply (extends_trans _ _ _ Eo)];
      eexists; eassumption.
  - exists x, obj. auto using extends_refl.
Qed.

(** *** The range of the scores *)

Lemma tensor_max_score (m : R) (t : Tensor) :
  tensor_max t = Ok m -> Forall is_score (data t) -> is_score m.
Proof. intros H Hall. apply (is_max_score m (data t) Hall). apply tensor_max_is_max. exact H. Qed.


(** *** The log of the objective's arguments *)

Lemma evaluate_log (x : Tensor) (r : Res Tensor) w w' :
  evaluate rt x w = (r, w') -> decoded w' = decoded w ++ [x].
Proof. intros H. apply evaluate_world in H. subst w'. reflexivity. Qed.

Ltac tidy :=
  repeat match goal with
         | H : Ok _ = Raise _ |- _ => discriminate H
         | H : Raise _ = Ok _ |- _ => discriminate H
         | H : Ok _ = Ok _ |- _ => injection H as H; try subst
         | H : Raise _ = Raise _ |- _ => injection H as H; try subst
         end.

Ltac log_steps :=
  repeat (step_all; tidy);
  repeat match goal with
         | F : evaluate _ _ _ = (_, _) |- _ => apply evaluate_log in F; cbn in F
         end.

Lemma bo_init_log (cfg : Config) (r : Res unit) w w' :
  uniform_in_unit_interval rt ->
  bo_init rt cfg w = (r, w') ->
  Forall (within bounds) (decoded w) -> Forall (within bounds) (decoded w').
Proof.
  intros Hu H Hlog. unfold bo_init, gen_initial_data, torch_rand in H.
  log_steps; cbn; try assumption.
  all: match goal with
       | F : decoded ?v = _ ++ [_], G : unnormalize _ _ = Ok _ |- Forall _ (decoded ?v) =>
           rewrite F; apply Forall_app; split;
           [ assumption
           | constructor;
             [ apply (unnormalize_within _ _ (uniform_within _ _ _ Hu) G) | constructor ] ]
       end.
Qed.

Lemma optimizer_candidates_within (acq : qEI (GP rt)) (q r s : nat)
      (g : Gen rt) (res : Tensor * R) :
  optimizer_within_bounds rt ->
  Ok res = fst (optimize_acqf rt acq unit_cube q r s g) -> within unit_cube (fst res).
Proof.
  intros Hopt H. destruct res as [cand v].
  apply (Hopt acq q r s g cand v (snd (optimize_acqf rt acq unit_cube q r s g))).
  rewrite H. apply surjective_pairing.
Qed.

Lemma bo_iteration_log (cfg : Config) (r : Res unit) w w' :
  optimizer_within_bounds rt ->
  bo_iteration rt cfg w = (r, w') ->
  Forall (within bounds) (decoded w) -> Forall (within bounds) (decoded w').
Proof.
  intros Hopt H Hlog. unfold bo_iteration, optimize_acqf_and_get_observation in H.
  repeat (step_all; tidy);
    repeat match goal with
           | F : get_fitted_model _ _ _ _ _ = (_, _) |- _ =>
               apply get_fitted_model_world in F; destruct F as [? ->]
           end;
    repeat (step_all; tidy);
    repeat match goal with
           | F : evaluate _ _ _ = (_, _) |- _ => apply evaluate_log in F; cbn in F
           end;
    cbn; try assumption.
  all: match goal with
       | F : decoded ?v = _ ++ [_], G : unnormalize _ _ = Ok _, O : Ok _ = fst _
         |- Forall _ (decoded ?v) =>
           rewrite F; apply Forall_app; split;
           [ assumption
           | constructor;
             [ apply (unnormalize_within _ _ (optimizer_candidates_within _ _ _ _ _ _ Hopt O) G)
             | constructor ] ]
       end.
Qed.

Lemma bo_loop_log (cfg : Config) (k : nat) :
  optimizer_within_bounds rt ->
  forall (r : Res unit) w w',
    bo_loop rt cfg k w = (r, w') ->
    Forall (within bounds) (decoded w) -> Forall (within bounds) (decoded w').
Proof.
  intros Hopt. induction k as [|k IH]; intros r w w' H Hlog; cbn [bo_loop] in H.
  - apply ret_inv in H. destruct H as [_ ->]. exact Hlog.
  - apply bind_inv in H. destruct H as [(e & H & _) | (u & w1 & H1 & H)].
    + apply (bo_iteration_log _ _ _ _ Hopt H Hlog).
    + apply (IH _ _ _ H). apply (bo_iteration_log _ _ _ _ Hopt H1 Hlog).
Qed.

Lemma bo_run_log (cfg : Config) (k : nat) (r : Res unit) w w' :
  uniform_in_unit_interval rt -> optimizer_within_bounds rt ->
  bo_run rt cfg k w = (r, w') ->
  Forall (within bounds) (decoded w) -> Forall (within bounds) (decoded w').
Proof.
  intros Hu Hopt H Hlog. unfold bo_run in H.
  apply bind_inv in H. destruct H as [(e & H & _) | (u & w1 & H1 & H)].
  { apply (bo_init_log _ _ _ _ Hu H Hlog). }
  pose proof (bo_init_log _ _ _ _ Hu H1 Hlog) as Hlog1.
  apply bind_inv in H. destruct H as [(e & H & _) | (u' & w2 & H2 & H)].
  { apply modify_inv in H. destruct H as [_ ->]. exact Hlog1. }
  apply modify_inv in H2. destruct H2 as [_ ->].
  apply (bo_loop_log cfg k Hopt _ _ _ H). exact Hlog1.
Qed.

Lemma script_upto_log (cfg : Config) (k : nat) (r : Res unit) w w' :
  uniform_in_unit_interval rt -> optimizer_within_bounds rt ->
  script_upto rt env cfg k w = (r, w') ->
  Forall (within bounds) (decoded w) -> Forall (within bounds) (decoded w').
Proof.
  intros Hu Hopt H Hlog. apply script_upto_inv in H.
  destruct (pretrained_cnn env) as [net | e].
  - destruct (pretrained_vae env) as [vae | e].
    + destruct H as (w1 & Hs & _ & _ & H & _).
      apply (bo_run_log _ _ _ _ _ Hu Hopt H). destruct Hs as [-> _]. exact Hlog.
    + destruct H as [_ [-> _]]. exact Hlog.
  - destruct H as [_ [-> _]]. exact Hlog.
Qed.

(** *** The scores and the history, at every point of a run *)

Lemma nondecreasing_last (h : list R) (m : R) :
  nondecreasing h -> (h = [] \/ last h 0 <= m) -> nondecreasing (h ++ [m]).
Proof.
  intros Hn Hl. destruct h as [|x t].
  - intros i Hi. simpl in Hi. lia.
  - destruct (@exists_last _ (x :: t)) as (h' & a & E); [discriminate |].
    rewrite E in *. apply nondecreasing_snoc; [exact Hn |].
    destruct Hl as [Hl | Hl].
    + apply app_eq_nil in Hl. destruct Hl as [_ Hl]. discriminate.
    + rewrite last_last in Hl. exact Hl.
Qed.

Ltac any_steps :=
  repeat (step_all; tidy);
  repeat match goal with
         | F : get_fitted_model _ _ _ _ _ = (_, _) |- _ =>
             apply get_fitted_model_world in F; destruct F as [? ->]
         end;
  repeat (step_all; tidy);
  repeat match goal with
         | F : evaluate _ _ _ = (Ok _, _) |- _ =>
             let S := fresh "Hscores" in
             pose proof (evaluate_ok _ _ _ _ F) as (? & _ & _ & S);
             apply evaluate_world in F; subst
         | F : evaluate _ _ _ = (_, _) |- _ => apply evaluate_world in F; subst
         end;
  cbn [fst snd train_x train_obj best_observed state_dict set_gen set_decoded set_train_x
       set_train_obj set_best_observed set_state_dict] in *;
  tidy;
  repeat match goal with
         | F : match ?t with Some _ => _ | None => _ end |- _ =>
             destruct t eqn:?; tidy
         end.

(** Where In[12] can stop, and what it has bound by then. *)
Lemma bo_init_any (cfg : Config) (r : Res unit) w w' :
  bo_init rt cfg w = (r, w') ->
  (best_observed w' = Some [] /\
   (train_obj w' = train_obj w \/
    exists s, Forall is_score (data s) /\ train_obj w' = Some (unsqueeze_last s))) \/
  (exists s m, Forall is_score (data s) /\ tensor_max (unsqueeze_last s) = Ok m /\
               train_obj w' = Some (unsqueeze_last s) /\ best_observed w' = Some [m]).
Proof.
  intros H. unfold bo_init, gen_initial_data, torch_rand in H.
  any_steps;
    solve [ left; split; [reflexivity | left; reflexivity]
          | left; split; [reflexivity | right; eauto]
          | right; do 2 eexists; repeat split; eauto ].
Qed.

(** Where a round of the loop can stop, and what it has updated by then. *)
Lemma bo_iteration_any (cfg : Config) (r : Res unit) w w' :
  bo_iteration rt cfg w = (r, w') ->
  (best_observed w' = best_observed w /\
   (train_obj w' = train_obj w \/
    exists obj s obj', train_obj w = Some obj /\ Forall is_score (data s) /\
                       cat obj (unsqueeze_last s) = Ok obj' /\ train_obj w' = Some obj')) \/
  (exists obj h s obj' m,
      train_obj w = Some obj /\ best_observed w = Some h /\ Forall is_score (data s) /\
      cat obj (unsqueeze_last s) = Ok obj' /\ tensor_max obj' = Ok m /\
      train_obj w' = Some obj' /\ best_observed w' = Some (h ++ [m])).
Proof.
  intros H. unfold bo_iteration, optimize_acqf_and_get_observation in H.
  any_steps;
    solve [ left; split; [reflexivity | left; reflexivity]
          | left; split; [reflexivity | right; eauto 10]
          | right; do 5 eexists; repeat split; eauto ].
Qed.

Lemma nondecreasing_nil : nondecreasing [].
Proof. intros i Hi. simpl in Hi. lia. Qed.

Lemma bo_init_sound (cfg : Config) (r : Res unit) w w' :
  history_sound w -> bo_init rt cfg w = (r, w') -> history_sound w'.
Proof.
  intros [KT KB] H.
  destruct (bo_init_any _ _ _ _ H) as [[Hb [Ht | (s & Hs & Ht)]] | (s & m & Hs & Hm & Ht & Hb)].
  - split.
    + intros obj Ho. rewrite Ht in Ho. apply (KT _ Ho).
    + intros h Hh. rewrite Hb in Hh. injection Hh as <-.
      split; [apply nondecreasing_nil |]. split; [constructor | left; reflexivity].
  - split.
    + intros obj Ho. rewrite Ht in Ho. injection Ho as <-. exact Hs.
    + intros h Hh. rewrite Hb in Hh. injection Hh as <-.
      split; [apply nondecreasing_nil |]. split; [constructor | left; reflexivity].
  - pose proof (tensor_max_is_max _ _ Hm) as [Hin _].
    split.
    + intros obj Ho. rewrite Ht in Ho. injection Ho as <-. exact Hs.
    + intros h Hh. rewrite Hb in Hh. injection Hh as <-.
      split; [apply (nondecreasing_last [] m nondecreasing_nil); left; reflexivity |].
      split; [constructor; [apply (tensor_max_score _ _ Hm Hs) | constructor] |].
      right. exists (unsqueeze_last s), m. cbn [last]. split; [exact Ht |].
      split; [exact Hin | lra].
Qed.

Lemma bo_iteration_sound (cfg : Config) (r : Res unit) w w' :
  history_sound w -> bo_iteration rt cfg w = (r, w') -> history_sound w'.
Proof.
  intros [KT KB] H.
  destruct (bo_iteration_any _ _ _ _ H)
    as [[Hb [Ht | (obj & s & obj' & Ho & Hs & Hc & Ht)]]
       | (obj & h & s & obj' & m & Ho & Hh & Hs & Hc & Hm & Ht & Hb)].
  - split.
    + intros o Hobj. rewrite Ht in Hobj. apply (KT _ Hobj).
    + intros h Hh. rewrite Hb in Hh. destruct (KB _ Hh) as (K1 & K2 & K3).
      split; [exact K1 |]. split; [exact K2 |]. rewrite Ht. exact K3.
  - apply cat_ok in Hc. destruct Hc as [Hd _].
    assert (Fo : Forall is_score (data obj')).
    { rewrite Hd. apply Forall_app. split; [apply (KT _ Ho) | exact Hs]. }
    split.
    + intros o Hobj. rewrite Ht in Hobj. injection Hobj as <-. exact Fo.
    + intros h Hh. rewrite Hb in Hh. destruct (KB _ Hh) as (K1 & K2 & K3).
      split; [exact K1 |]. split; [exact K2 |].
      destruct K3 as [K3 | (o & v & Hov & Hin & Hle)]; [left; exact K3 |].
      right. rewrite Ho in Hov. injection Hov as <-. exists obj', v.
      split; [exact Ht |]. split; [rewrite Hd; apply in_or_app; left; exact Hin | exact Hle].
  - apply cat_ok in Hc. destruct Hc as [Hd _].
    assert (Fo : Forall is_score (data obj')).
    { rewrite Hd. apply Forall_app. split; [apply (KT _ Ho) | exact Hs]. }
    pose proof (tensor_max_is_max _ _ Hm) as [Hin Hall].
    destruct (KB _ Hh) as (K1 & K2 & K3).
    split.
    + intros o Hobj. rewrite Ht in Hobj. injection Hobj as <-. exact Fo.
    + intros h' Hh'. rewrite Hb in Hh'. injection Hh' as <-.
      split; [| split].
      * apply nondecreasing_last; [exact K1 |].
        destruct K3 as [K3 | (o & v & Hov & Hv & Hle)]; [left; exact K3 | right].
        rewrite Ho in Hov. injection Hov as <-.
        rewrite Forall_forall in Hall.
        assert (Hvm : v <= m) by (apply Hall; rewrite Hd; apply in_or_app; left; exact Hv).
        lra.
      * apply Forall_app. split; [exact K2 |].
        constructor; [apply (tensor_max_score _ _ Hm Fo) | constructor].
      * right. exists obj', m. rewrite last_last.
        split; [exact Ht |]. split; [exact Hin | lra].
Qed.

Lemma bo_loop_sound (cfg : Config) (k : nat) :
  forall (r : Res unit) w w',
    history_sound w -> bo_loop rt cfg k w = (r, w') -> history_sound w'.
Proof.
  induction k as [|k IH]; intros r w w' HK H; cbn [bo_loop] in H.
  - apply ret_inv in H. destruct H as [_ ->]. exact HK.
  - apply bind_inv in H. destruct H as [(e & H & _) | (u & w1 & H1 & H)].
    + apply (bo_iteration_sound _ _ _ _ HK H).
    + apply (IH _ _ _ (bo_iteration_sound _ _ _ _ HK H1) H).
Qed.

Lemma history_sound_state_dict (sd : option StateDict) w :
  history_sound w -> history_sound (set_state_dict sd w).
Proof. intros HK. exact HK. Qed.

Lemma bo_run_sound (cfg : Config) (k : nat) (r : Res unit) w w' :
  history_sound w -> bo_run rt cfg k w = (r, w') -> history_sound w'.
Proof.
  intros HK H. unfold bo_run in H.
  apply bind_inv in H. destruct H as [(e & H & _) | (u & w1 & H1 & H)].
  { apply (bo_init_sound _ _ _ _ HK H). }
  pose proof (bo_init_sound _ _ _ _ HK H1) as HK1.
  apply bind_inv in H. destruct H as [(e & H & _) | (u' & w2 & H2 & H)].
  { apply modify_inv in H. destruct H as [_ ->]. exact HK1. }
  apply modify_inv in H2. destruct H2 as [_ ->].
  apply (bo_loop_sound cfg k _ _ _ (history_sound_state_dict _ _ HK1) H).
Qed.

Lemma history_sound_same w w' : same_results w w' -> history_sound w -> history_sound w'.
Proof.
  intros (_ & _ & Ht & Hb & _) [KT KB]. unfold history_sound. rewrite Ht, Hb.
  split; assumption.
Qed.

Lemma script_upto_sound (cfg : Config) (k : nat) (r : Res unit) w w' :
  history_sound w -> script_upto rt env cfg k w = (r, w') -> history_sound w'.
Proof.
  intros HK H. apply script_upto_inv in H.
  destruct (pretrained_cnn env) as [net | e].
  - destruct (pretrained_vae env) as [vae | e].
    + destruct H as (w1 & Hs & _ & _ & H & _).
      apply (bo_run_sound _ _ _ _ _ (history_sound_same _ _ Hs HK) H).
    + destruct H as [_ Hs]. apply (history_sound_same _ _ Hs HK).
  - destruct H as [_ Hs]. apply (history_sound_same _ _ Hs HK).
Qed.

Lemma initial_world_sound (g : Gen rt) : history_sound (initial_world rt g).
Proof. split; intros x H; discriminate. Qed.

(** *** Two runs *)

(** In[12] starts by seeding the generator: what the generator held before
    does not matter. *)
Lemma bo_run_seeded (cfg : Config) (k : nat) w1 w2 :
  same_results w1 w2 -> cnn_model w2 = cnn_model w1 -> vae_model w2 = vae_model w1 ->
  bo_run rt cfg k w1 = bo_run rt cfg k w2.
Proof.
  intros (H1 & H2 & H3 & H4 & H5) Hc Hv.
  unfold bo_run, bo_init. unfold bind at 1 2 3. unfold modify at 1.
  symmetry. unfold bind at 1 2 3. unfold modify at 1.
  replace (set_gen (manual_seed rt (seed cfg)) w2)
    with (set_gen (manual_seed rt (seed cfg)) w1); [reflexivity |].
  destruct w1, w2. cbn in *. subst. reflexivity.
Qed.

(** *** What a round can do *)

Lemma normalize_ok (x : Tensor) (n : nat) :
  shape x = [n; d] -> exists nx, normalize x bounds = Ok nx.
Proof.
  intros Hx. unfold normalize. rewrite Hx. cbn [shape bounds last].
  rewrite Nat.eqb_refl. eexists. reflexivity.
Qed.

Lemma unnormalize_ok (u : Tensor) (n : nat) :
  shape u = [n; d] -> exists x, unnormalize u bounds = Ok x /\ shape x = [n; d].
Proof.
  intros Hu. unfold unnormalize. rewrite Hu. cbn [shape bounds last].
  rewrite Nat.eqb_refl. eexists. split; reflexivity.
Qed.

Lemma cat_shape (x y : Tensor) (n m : nat) (s : list nat) :
  shape x = n :: s -> shape y = m :: s ->
  cat x y = Ok (mkTensor ((n + m)%nat :: s) (data x ++ data y)).
Proof. intros Hx Hy. unfold cat. rewrite Hx, Hy, shape_eqb_refl. reflexivity. Qed.

Lemma tensor_max_nonempty (t : Tensor) :
  data t <> [] -> exists m, tensor_max t = Ok m.
Proof.
  intros H. unfold tensor_max. destruct (data t); [contradiction |]. eexists. reflexivity.
Qed.

Lemma tensor_max_data (t : Tensor) (m : R) : tensor_max t = Ok m -> data t <> [].
Proof. unfold tensor_max. destruct (data t); [discriminate |]. intros _. discriminate. Qed.

Lemma same_results_gen (g : Gen rt) w : same_results w (set_gen g w).
Proof. repeat split. Qed.

Lemma models_loaded_gen (g : Gen rt) w : models_loaded w -> models_loaded (set_gen g w).
Proof. apply models_loaded_eq; reflexivity. Qed.

(** Fitting the model fails only where a library call fails. *)
Lemma get_fitted_model_outcome (x obj : Tensor) (sd : option StateDict) (n : nat)
      (r : Res (GP rt)) w w' :
  shape x = [n; d] ->
  get_fitted_model rt x obj sd w = (r, w') ->
  (exists model, r = Ok model) \/ (exists e, r = Raise e /\ library_raises rt e).
Proof.
  intros Hx. destruct (normalize_ok x n Hx) as [nx Hn].
  unfold get_fitted_model, bind, lift, call, ret. rewrite Hn.
  destruct (SingleTaskGP rt nx obj) as [m | e] eqn:E1.
  2:{ intros H. injection H as <- _. right. exists e. split; [reflexivity |].
      left. exists nx, obj. exact E1. }
  assert (Hfit : forall m0 w0 r0 w0',
             (fst (fit_gpytorch_mll rt m0 (gen w0)),
              set_gen (snd (fit_gpytorch_mll rt m0 (gen w0))) w0) = (r0, w0') ->
             (exists model, r0 = Ok model) \/ (exists e, r0 = Raise e /\ library_raises rt e)).
  { intros m0 w0 r0 w0' H. injection H as <- _.
    destruct (fst (fit_gpytorch_mll rt m0 (gen w0))) as [m1 | e] eqn:E3.
    - left. exists m1. reflexivity.
    - right. exists e. split; [reflexivity |]. right. right. left.
      exists m0, (gen w0). exact E3. }
  destruct sd as [s |].
  - destruct (gp_load_state_dict rt m s) as [m' | e] eqn:E2.
    + apply Hfit.
    + intros H. injection H as <- _. right. exists e. split; [reflexivity |].
      right. left. exists m, s. exact E2.
  - apply Hfit.
Qed.

(** The BO step fails only where [optimize_acqf] fails, before anything
    is decoded; otherwise it returns [BATCH_SIZE] points and their scores. *)
Lemma observation_outcome (cfg : Config) (acq : qEI (GP rt)) (r : Res (Tensor * Tensor)) w w' :
  models_loaded w -> optimizer_returns_batch rt ->
  optimize_acqf_and_get_observation rt cfg acq w = (r, w') ->
  (exists e g, r = Raise e /\ library_raises rt e /\ w' = set_gen g w) \/
  (exists new_x s g,
     r = Ok (new_x, unsqueeze_last s) /\
     shape new_x = [BATCH_SIZE cfg; d] /\ shape s = [BATCH_SIZE cfg] /\
     List.length (data s) = BATCH_SIZE cfg /\ Forall is_score (data s) /\
     w' = set_decoded (decoded w ++ [new_x]) (set_gen g w)).
Proof.
  intros Hm Hbatch. unfold optimize_acqf_and_get_observation.
  unfold bind at 1. unfold call.
  destruct (optimize_acqf rt acq unit_cube (BATCH_SIZE cfg) (NUM_RESTARTS cfg)
              (RAW_SAMPLES cfg) (gen w)) as [[[cand v] | e] g] eqn:E; cbn [fst snd].
  - pose proof (Hbatch _ _ _ _ _ _ _ _ _ E) as Hc.
    change (last (shape unit_cube) 0%nat) with d in Hc.
    destruct (unnormalize_ok cand _ Hc) as (x & Hx & Hxs).
    unfold bind at 1. unfold lift at 1. rewrite Hx.
    destruct (evaluate_total x _ (set_gen g w) (models_loaded_gen g w Hm) Hxs)
      as (s & Hev & Hs).
    unfold bind at 1. rewrite Hev. unfold ret. intros H. injection H as <- <-.
    destruct (evaluate_ok _ _ _ _ Hev) as (b & Hb & Hl & Hf).
    rewrite Hs in Hb. injection Hb as <-.
    right. exists x, s, g. repeat split; assumption.
  - intros H. injection H as <- <-. left. exists e, g. split; [reflexivity |].
    split; [| reflexivity].
    right. right. right.
    exists acq, unit_cube, (BATCH_SIZE cfg), (NUM_RESTARTS cfg), (RAW_SAMPLES cfg), (gen w).
    rewrite E. reflexivity.
Qed.

Lemma bind_global {A B} (name : string) (field : World rt -> option A) (a : A)
      (f : A -> M rt B) w :
  field w = Some a -> bind (global name field) f w = f a w.
Proof. intros H. unfold bind, global. rewrite H. reflexivity. Qed.

Lemma bind_lift {A B} (r : Res A) (a : A) (f : A -> M rt B) w :
  r = Ok a -> bind (lift r) f w = f a w.
Proof. intros ->. reflexivity. Qed.

Lemma bind_modify {B} (g : World rt -> World rt) (f : unit -> M rt B) w :
  bind (modify g) f w = f tt (g w).
Proof. reflexivity. Qed.

(** A round either goes through, and leaves the next round what it
    needs, or fails in a library call and leaves the results as they
    were. *)
Lemma bo_iteration_outcome (cfg : Config) (r : Res unit) w w' :
  round_ready w -> optimizer_returns_batch rt ->
  bo_iteration rt cfg w = (r, w') ->
  (exists e, r = Raise e /\ library_raises rt e /\ same_results w w' /\
             cnn_model w' = cnn_model w /\ vae_model w' = vae_model w) \/
  (r = Ok tt /\ round_ready w').
Proof.
  intros (Hm & (x & obj & n & Hx & Hobj & Hxs & Hos & Hne) & (h & Hh) & (sd & Hsd)) Hbatch.
  unfold bo_iteration.
  rewrite (bind_global _ _ x _ _ Hx), (bind_global _ _ obj _ _ Hobj),
    (bind_global _ _ sd _ _ Hsd).
  intros H. apply bind_inv in H. destruct H as [(e & H & ->) | (model & w1 & H1 & H)].
  { pose proof (get_fitted_model_world _ _ _ _ _ _ H) as [g ->].
    destruct (get_fitted_model_outcome _ _ _ n _ _ _ Hxs H) as [[? ?] | (e' & E & Hlib)];
      [discriminate |].
    injection E as <-. left. exists e. repeat split. exact Hlib. }
  pose proof (get_fitted_model_world _ _ _ _ _ _ H1) as [g ->]. clear H1.
  destruct (tensor_max_nonempty obj Hne) as [bf Hbf].
  rewrite (bind_lift _ (qExpectedImprovement model bf None)) in H
    by (unfold make_qEI; rewrite Hbf; reflexivity).
  apply bind_inv in H. destruct H as [(e & H & ->) | ([new_x new_obj] & w2 & H2 & H)].
  { destruct (observation_outcome _ _ _ _ _ (models_loaded_gen g w Hm) Hbatch H)
      as [(e' & g' & E & Hlib & ->) | (? & ? & ? & E & _)]; [| discriminate].
    injection E as <-. left. exists e. repeat split. exact Hlib. }
  destruct (observation_outcome _ _ _ _ _ (models_loaded_gen g w Hm) Hbatch H2)
    as [(e' & g' & E & _) | (nx & s & g' & E & Hnx & Hs & Hl & Hf & ->)]; [discriminate |].
  injection E as -> ->. clear H2. cbn [fst snd] in H.
  rewrite (bind_lift _ _ _ _ (cat_shape x nx n (BATCH_SIZE cfg) [d] Hxs Hnx)) in H.
  rewrite bind_modify in H.
  assert (Hso : shape (unsqueeze_last s) = [BATCH_SIZE cfg; 1%nat])
    by (unfold unsqueeze_last; cbn [shape]; rewrite Hs; reflexivity).
  rewrite (bind_lift _ _ _ _ (cat_shape obj (unsqueeze_last s) n (BATCH_SIZE cfg) [1%nat]
                                Hos Hso)) in H.
  rewrite bind_modify in H.
  assert (Hne' : data (mkTensor [(n + BATCH_SIZE cfg)%nat; 1%nat]
                         (data obj ++ data (unsqueeze_last s))) <> []).
  { cbn [data]. destruct (data obj); [contradiction | discriminate]. }
  destruct (tensor_max_nonempty _ Hne') as [m Hmax].
  rewrite (bind_lift _ _ _ _ Hmax) in H.
  rewrite (bind_global _ _ h) in H by exact Hh.
  rewrite bind_modify in H. unfold modify in H. injection H as <- <-.
  right. split; [reflexivity |]. split; [| split; [| split]].
  - revert Hm. apply models_loaded_eq; reflexivity.
  - do 3 eexists. cbn [train_x train_obj set_state_dict set_best_observed set_train_obj
                       set_train_x]. split; [reflexivity |]. split; [reflexivity |].
    split; [reflexivity |]. split; [reflexivity | exact Hne'].
  - eexists. reflexivity.
  - eexists. reflexivity.
Qed.

(** In[12] goes through when both models are bound and at least one
    initial point is asked for. *)
Lemma gen_initial_data_outcome (n : nat) w :
  models_loaded w ->
  exists x s,
    unnormalize (mkTensor [n; d] (fst (uniform rt (n * d) (gen w)))) bounds = Ok x /\
    shape x = [n; d] /\ shape s = [n] /\ List.length (data s) = n /\
    Forall is_score (data s) /\
    gen_initial_data rt n w
    = (match tensor_max (unsqueeze_last s) with
       | Ok m => Ok (x, unsqueeze_last s, m)
       | Raise e => Raise e
       end,
       set_decoded (decoded w ++ [x]) (set_gen (snd (uniform rt (n * d) (gen w))) w)).
Proof.
  intros Hm.
  destruct (unnormalize_ok (mkTensor [n; d] (fst (uniform rt (n * d) (gen w)))) n eq_refl)
    as (x & Hx & Hxs).
  destruct (evaluate_total x n (set_gen (snd (uniform rt (n * d) (gen w))) w)
              (models_loaded_gen _ w Hm) Hxs) as (s & Hev & Hs).
  destruct (evaluate_ok _ _ _ _ Hev) as (b & Hb & Hl & Hf).
  rewrite Hs in Hb. injection Hb as <-.
  exists x, s. repeat split; try assumption.
  unfold gen_initial_data, torch_rand.
  unfold bind at 1. unfold bind at 1. unfold sample, ret.
  unfold bind at 1. unfold lift at 1. rewrite Hx.
  unfold bind at 1. rewrite Hev.
  unfold bind, lift, ret. destruct (tensor_max (unsqueeze_last s)); reflexivity.
Qed.

Lemma bo_init_ready (cfg : Config) w w' :
  models_loaded w -> bo_init rt cfg w = (Ok tt, w') ->
  round_ready (set_state_dict None w').
Proof.
  intros Hm H. pose proof H as H0. apply bo_init_ok in H.
  destruct H as (x & s & m & Hx & Hev & Hmax & ->).
  pose proof (unnormalize_shape _ _ _ Hx) as Hxs. cbn [shape] in Hxs.
  destruct (evaluate_rows x s (n_init cfg) w Hev Hm Hxs) as (Hs & _ & _).
  split; [| split; [| split]].
  - revert Hm. apply models_loaded_eq; reflexivity.
  - exists x, (unsqueeze_last s), (n_init cfg). cbn.
    split; [reflexivity |]. split; [reflexivity |]. split; [exact Hxs |].
    split; [rewrite Hs; reflexivity |].
    apply (tensor_max_data _ _ Hmax).
  - eexists. reflexivity.
  - eexists. reflexivity.
Qed.

Lemma bo_run_ready (cfg : Config) (k : nat) w w' :
  models_loaded w -> optimizer_returns_batch rt ->
  bo_run rt cfg k w = (Ok tt, w') -> round_ready w'.
Proof.
  intros Hm Hbatch H. apply bo_run_ok in H. destruct H as (w0 & Hinit & Hloop).
  pose proof (bo_init_ready _ _ _ Hm Hinit) as Hready.
  revert Hloop.
  apply (bo_loop_invariant cfg (fun _ w1 => round_ready w1) ) with (j := 0%nat);
    [| exact Hready].
  intros j w1 w2 Hr Hstep.
  destruct (bo_iteration_outcome _ _ _ _ Hr Hbatch Hstep) as [(e & E & _) | [_ Hr']];
    [discriminate | exact Hr'].
Qed.

Lemma bo_init_runs (cfg : Config) w :
  models_loaded w -> (0 < n_init cfg)%nat -> exists w', bo_init rt cfg w = (Ok tt, w').
Proof.
  intros Hm Hn. unfold bo_init. rewrite !bind_modify.
  destruct (gen_initial_data_outcome (n_init cfg) _
              (models_loaded_eq w (set_best_observed [] (set_gen (manual_seed rt (seed cfg)) w))
                 eq_refl eq_refl Hm))
    as (x & s & _ & _ & _ & Hl & _ & Hrun).
  destruct (tensor_max_nonempty (unsqueeze_last s)) as [m Hmax].
  { cbn [unsqueeze_last data]. destruct (data s); [cbn in Hl; lia | discriminate]. }
  rewrite Hmax in Hrun.
  unfold bind at 1. rewrite Hrun. rewrite !bind_modify.
  erewrite bind_global by reflexivity.
  eexists. reflexivity.
Qed.

Lemma bo_loop_runs (cfg : Config) (k : nat) w :
  library_succeeds rt -> optimizer_returns_batch rt -> round_ready w ->
  exists w', bo_loop rt cfg k w = (Ok tt, w').
Proof.
  intros Hlib Hbatch. revert w. induction k as [|k IH]; intros w Hr.
  - exists w. reflexivity.
  - cbn [bo_loop]. destruct (bo_iteration rt cfg w) as [r w1] eqn:E.
    destruct (bo_iteration_outcome _ _ _ _ Hr Hbatch E) as [(e & _ & He & _) | [-> Hr']].
    + destruct (Hlib e He).
    + destruct (IH w1 Hr') as [w' Hw']. exists w'.
      unfold bind at 1. rewrite E. exact Hw'.
Qed.

Lemma bo_run_runs (cfg : Config) (k : nat) w :
  library_succeeds rt -> optimizer_returns_batch rt ->
  models_loaded w -> (0 < n_init cfg)%nat ->
  exists w', bo_run rt cfg k w = (Ok tt, w').
Proof.
  intros Hlib Hbatch Hm Hn.
  destruct (bo_init_runs cfg w Hm Hn) as [w0 H0].
  destruct (bo_loop_runs cfg k _ Hlib Hbatch (bo_init_ready _ _ _ Hm H0)) as [w' Hw'].
  exists w'. unfold bo_run. unfold bind at 1. rewrite H0.
  unfold bind at 1, modify at 1. exact Hw'.
Qed.

(** *** The progress panels *)

Lemma slice_rows_ok (m : nat) (x sub : Tensor) :
  slice_rows m x = Ok sub ->
  exists n c, shape x = [n; c] /\ shape sub = [Nat.min m n; c] /\
              data sub = firstn (Nat.min m n * c) (data x).
Proof.
  unfold slice_rows. destruct (shape x) as [|n [|c [|? ?]]]; try discriminate.
  intros H. injection H as <-. exists n, c. repeat split.
Qed.

Lemma select_row_ok (b : nat) (x row : Tensor) :
  select_row b x = Ok row ->
  exists n rest, shape x = n :: rest /\ (b < n)%nat /\ shape row = rest /\
                 data row = firstn (numel rest) (skipn (b * numel rest) (data x)).
Proof.
  unfold select_row. destruct (shape x) as [|n rest]; [discriminate |].
  destruct (Nat.ltb b n) eqn:E; [| discriminate].
  intros H. injection H as <-. apply Nat.ltb_lt in E. exists n, rest. repeat split. exact E.
Qed.

Lemma view_row (t : Tensor) :
  view t [1%Z; (-1)%Z] = Ok (mkTensor [1%nat; numel (shape t)] (data t)).
Proof.
  unfold view, infer_size, count_infer, fill_infer.
  cbn [known_size filter map]. change (-1 =? -1)%Z with true.
  change (1 =? -1)%Z with false. change (1 <? 0)%Z with false.
  cbn [List.length]. change (Z.to_nat 1 * 1)%nat with 1%nat.
  change (Nat.eqb 1 0) with false. cbv iota.
  rewrite Nat.mod_1_r, Nat.div_1_r. reflexivity.
Qed.

Lemma incl_firstn {A} (k : nat) (l : list A) : incl (firstn k l) l.
Proof.
  intros a Ha. rewrite <- (firstn_skipn k l). apply in_or_app. left. exact Ha.
Qed.

Lemma incl_skipn {A} (k : nat) (l : list A) : incl (skipn k l) l.
Proof.
  intros a Ha. rewrite <- (firstn_skipn k l). apply in_or_app. right. exact Ha.
Qed.

Lemma decode_world (x : Tensor) (r : Res Tensor) w w' :
  decode rt x w = (r, w') -> w' = set_decoded (decoded w ++ [x]) w.
Proof. unfold decode. intros H. repeat step_all; reflexivity. Qed.

(** A batch made of rows of [x]. *)
Lemma rows_of_slice (m : nat) (x sub : Tensor) :
  slice_rows m x = Ok sub ->
  (forall n c, shape x = [n; c] -> exists n', shape sub = [n'; c]) /\
  incl (data sub) (data x).
Proof.
  intros H. apply slice_rows_ok in H. destruct H as (n & c & Hx & Hs & Hd). split.
  - intros n0 c0 E. rewrite Hx in E. injection E as <- <-. eexists. exact Hs.
  - rewrite Hd. apply incl_firstn.
Qed.

Lemma rows_of_row (b : nat) (x row0 row : Tensor) :
  select_row b x = Ok row0 -> view row0 [1%Z; (-1)%Z] = Ok row ->
  (forall n c, shape x = [n; c] -> exists n', shape row = [n'; c]) /\
  incl (data row) (data x).
Proof.
  intros H Hv. apply select_row_ok in H. destruct H as (n & rest & Hx & _ & Hs & Hd).
  rewrite view_row in Hv. injection Hv as <-. cbn [shape data]. split.
  - intros n0 c0 E. rewrite Hx in E. injection E as -> ->. rewrite Hs.
    exists 1%nat. unfold numel. cbn [fold_right]. rewrite Nat.mul_1_r. reflexivity.
  - rewrite Hd. intros a Ha. apply (incl_skipn (b * numel rest)).
    apply (incl_firstn (numel rest)). exact Ha.
Qed.

(** Whatever its outcome, a panel changes nothing but the log, and what
    it decodes is made of rows of [train_x]. *)
Lemma plot_panel_world (m : nat) (r : Res Tensor) w w' :
  plot_panel rt m w = (r, w') ->
  exists extra,
    w' = set_decoded (decoded w ++ extra) w /\
    forall x, train_x w = Some x ->
      Forall (fun t => (forall n c, shape x = [n; c] -> exists n', shape t = [n'; c]) /\
                       incl (data t) (data x)) extra.
Proof.
  unfold plot_panel. intros H.
  assert (Hnil : forall v : World rt, v = set_decoded (decoded v ++ []) v).
  { intros [g dl c v tx to bo sd]. unfold set_decoded. cbn. rewrite app_nil_r. reflexivity. }
  apply bind_inv in H. destruct H as [(e & H & _) | (x & w1 & Hx & H)].
  { apply global_inv in H. destruct H as [-> _]. exists []. split; [apply Hnil | constructor]. }
  apply global_inv in Hx. destruct Hx as [-> Hx].
  destruct (train_x w) as [x0 |] eqn:Etx; [injection Hx as <- | discriminate].
  apply bind_inv in H. destruct H as [(e & H & _) | (sub & w1 & Hsub & H)].
  { apply lift_inv in H. destruct H as [_ ->]. exists []. split; [apply Hnil | constructor]. }
  apply lift_inv in Hsub. destruct Hsub as [Hsub ->].
  pose proof (rows_of_slice _ _ _ Hsub) as Rsub.
  assert (Hone : exists extra,
             set_decoded (decoded w ++ [sub]) w = set_decoded (decoded w ++ extra) w /\
             forall x0, Some x = Some x0 ->
               Forall (fun t => (forall n c, shape x0 = [n; c] -> exists n', shape t = [n'; c]) /\
                                incl (data t) (data x0)) extra).
  { exists [sub]. split; [reflexivity |]. intros x0 E. injection E as <-.
    constructor; [exact Rsub | constructor]. }
  apply bind_inv in H. destruct H as [(e & H & _) | (s & w1 & Hev & H)].
  { apply evaluate_world in H. subst w'. exact Hone. }
  apply evaluate_world in Hev. subst w1.
  apply bind_inv in H. destruct H as [(e & H & _) | (b & w1 & Hb & H)].
  { apply lift_inv in H. destruct H as [_ ->]. exact Hone. }
  apply lift_inv in Hb. destruct Hb as [Hb ->].
  apply bind_inv in H. destruct H as [(e & H & _) | (x' & w1 & Hx' & H)].
  { apply global_inv in H. destruct H as [-> _]. exact Hone. }
  apply global_inv in Hx'. destruct Hx' as [-> Hx']. cbn [train_x set_decoded] in Hx'.
  rewrite Etx in Hx'. injection Hx' as ->.
  apply bind_inv in H. destruct H as [(e & H & _) | (row0 & w1 & Hrow0 & H)].
  { apply lift_inv in H. destruct H as [_ ->]. exact Hone. }
  apply lift_inv in Hrow0. destruct Hrow0 as [Hrow0 ->].
  apply bind_inv in H. destruct H as [(e & H & _) | (row & w1 & Hrow & H)].
  { apply lift_inv in H. destruct H as [_ ->]. exact Hone. }
  apply lift_inv in Hrow. destruct Hrow as [Hrow ->].
  pose proof (rows_of_row _ _ _ _ Hrow0 Hrow) as Rrow.
  assert (Htwo : forall v, v = set_decoded (decoded (set_decoded (decoded w ++ [sub]) w) ++ [row])
                                 (set_decoded (decoded w ++ [sub]) w) ->
             exists extra,
               v = set_decoded (decoded w ++ extra) w /\
               forall x0, Some x = Some x0 ->
                 Forall (fun t => (forall n c, shape x0 = [n; c] -> exists n', shape t = [n'; c]) /\
                                  incl (data t) (data x0)) extra).
  { intros v ->. exists [sub; row]. split.
    - unfold set_decoded. cbn. rewrite <- app_assoc. reflexivity.
    - intros x0 E. injection E as <-.
      constructor; [exact Rsub | constructor; [exact Rrow | constructor]]. }
  apply bind_inv in H. destruct H as [(e & H & _) | (img & w1 & Himg & H)].
  { apply decode_world in H. apply Htwo. exact H. }
  apply decode_world in Himg. apply ret_inv in H. destruct H as [_ ->].
  apply Htwo. exact Himg.
Qed.

Lemma plot_panels_world (ms : list nat) (r : Res (list Tensor)) w w' :
  plot_panels rt ms w = (r, w') ->
  exists extra,
    w' = set_decoded (decoded w ++ extra) w /\
    forall x, train_x w = Some x ->
      Forall (fun t => (forall n c, shape x = [n; c] -> exists n', shape t = [n'; c]) /\
                       incl (data t) (data x)) extra.
Proof.
  revert r w w'. induction ms as [|m ms IH]; intros r w w' H.
  - cbn [plot_panels] in H. apply ret_inv in H. destruct H as [_ ->].
    exists []. split; [| constructor].
    destruct w as [g dl c v tx to bo sd]. unfold set_decoded. cbn. rewrite app_nil_r.
    reflexivity.
  - cbn [plot_panels] in H.
    apply bind_inv in H. destruct H as [(e & H & _) | (img & w1 & Hp & H)].
    { exact (plot_panel_world _ _ _ _ H). }
    destruct (plot_panel_world _ _ _ _ Hp) as (ex1 & -> & F1).
    apply bind_inv in H. destruct H as [(e & H & _) | (imgs & w2 & Hps & H)].
    + destruct (IH _ _ _ H) as (ex2 & -> & F2). exists (ex1 ++ ex2). split.
      * unfold set_decoded. cbn. rewrite <- app_assoc. reflexivity.
      * intros x Hx. apply Forall_app. split; [exact (F1 x Hx) | exact (F2 x Hx)].
    + destruct (IH _ _ _ Hps) as (ex2 & -> & F2). apply ret_inv in H. destruct H as [_ ->].
      exists (ex1 ++ ex2). split.
      * unfold set_decoded. cbn. rewrite <- app_assoc. reflexivity.
      * intros x Hx. apply Forall_app. split; [exact (F1 x Hx) | exact (F2 x Hx)].
Qed.

(** The points of the dataset lie in the search space. *)
Lemma train_x_in_domain (cfg : Config) (k : nat) w w' :
  uniform_in_unit_interval rt -> optimizer_within_bounds rt ->
  bo_run rt cfg k w = (Ok tt, w') ->
  exists x, train_x w' = Some x /\ in_domain x.
Proof.
  intros Hu Hopt H. apply bo_run_ok in H. destruct H as (w0 & Hinit & Hloop).
  apply bo_init_ok in Hinit. destruct Hinit as (x & s & m & Hx & _ & _ & ->).
  revert Hloop.
  apply (bo_loop_invariant cfg (fun _ w1 => exists x, train_x w1 = Some x /\ in_domain x))
    with (j := 0%nat).
  - clear - Hopt. intros j w1 w2 (x & Hx & (n & Hn) & Hd) H.
    apply bo_iteration_ok in H.
    destruct H as (x0 & obj0 & sd & h0 & model & acq & g1 & res & g2 & new_x & s & x' & obj'
                   & m' & Hx0 & _ & _ & _ & _ & Hopt' & Hun & _ & Hcat & _ & _ & ->).
    rewrite Hx in Hx0. injection Hx0 as <-. destruct res as [cand v].
    pose proof (unnormalize_within _ _ (Hopt _ _ _ _ _ _ _ _ Hopt') Hun) as Hw.
    apply within_bounds_entries in Hw. destruct Hw as [(q & Hq) Hnew].
    apply cat_ok in Hcat. destruct Hcat as (Hdata & n1 & n2 & sh & E1 & E2 & E3).
    exists x'. split; [reflexivity |]. split.
    + rewrite Hn in E1. injection E1 as <- <-. eexists. exact E3.
    + rewrite Hdata. apply Forall_app. split; [exact Hd | exact Hnew].
  - exists x. split; [reflexivity |].
    apply within_bounds_entries. apply (unnormalize_within _ _ (uniform_within _ _ _ Hu) Hx).
Qed.

End Facts.

(** ** The small instance meets what the script relies on *)

Lemma toy_uniform : uniform_in_unit_interval Toy.rt.
Proof.
  intros n g. cbn. induction n as [|n IH]; simpl; constructor; [lra | exact IH].
Qed.

Lemma toy_optimizer_batch : optimizer_returns_batch Toy.rt.
Proof. intros acq b q r s g cand v g' H. cbn in H. injection H as <- _ _. reflexivity. Qed.

Lemma toy_optimizer_bounds : optimizer_within_bounds Toy.rt.
Proof.
  intros acq q r s g cand v g' H. cbn in H. injection H as <- _ _.
  unfold within. change (last (shape unit_cube) 0%nat) with d. cbn [shape data].
  split; [eexists; reflexivity |].
  intros i Hi.
  assert (Hk : (i mod d < d)%nat) by (apply Nat.mod_upper_bound; discriminate).
  destruct (unit_cube_bounds _ Hk) as [-> ->].
  rewrite nth_repeat_lt by (rewrite repeat_length in Hi; exact Hi). lra.
Qed.

Lemma toy_run :
  script_upto Toy.rt Toy.env Toy.cfg 2 (initial_world Toy.rt 0%nat) = (Ok tt, toy_final_world).
Proof.
  unfold toy_final_world.
  rewrite (surjective_pairing (script_upto Toy.rt Toy.env Toy.cfg 2 (initial_world Toy.rt 0%nat))) at 1.
  apply (f_equal2 pair); [vm_compute; reflexivity | reflexivity].
Qed.

Lemma toy_models_loaded : models_loaded toy_loaded_world.
Proof.
  split; [exists blank_Net | exists blank_VAE]; (split; [reflexivity | repeat split]).
Qed.

Lemma toy_history :
  exists obj h, train_obj toy_final_world = Some obj /\ best_observed toy_final_world = Some h.
Proof.
  destruct (script_upto_ok _ _ _ _ _ _ toy_run) as (w1 & _ & _ & Hrun & _).
  destruct (best_history_invariant _ _ _ _ _ Hrun) as (obj & h & m & Ho & Hh & _).
  exists obj, (h ++ [m]). split; assumption.
Qed.

(** ** The claims *)

Lemma bo_run_intro (rt : Runtime) (cfg : Config) (k : nat) (w w0 : World rt)
      (o : Res unit * World rt) :
  bo_init rt cfg w = (Ok tt, w0) ->
  bo_loop rt cfg k (set_state_dict None w0) = o ->
  bo_run rt cfg k w = o.
Proof.
  intros Hi Hl. unfold bo_run. unfold bind at 1. rewrite Hi.
  unfold bind at 1, modify at 1. exact Hl.
Qed.

Lemma firstn_prefix {A} (l rows : list A) : firstn (List.length l) (l ++ rows) = l.
Proof.
  rewrite firstn_app, firstn_all, Nat.sub_diag. cbn [firstn]. apply app_nil_r.
Qed.

Lemma toy_tensors_well_formed : library_tensors_well_formed Toy.rt.
Proof.
  split.
  - intros n g. cbn. apply repeat_length.
  - intros acq b q r s g cand v g' H. cbn in H. injection H as <- _ _.
    unfold well_formed, numel. cbn [data shape fold_right].
    rewrite repeat_length, Nat.mul_1_r. reflexivity.
Qed.

(** The dataset after [k] rounds, entry by entry: shapes and numbers of
    entries. *)
Lemma dataset_entries_invariant (rt : Runtime) (cfg : Config) (k : nat) (w w' : World rt) :
  library_tensors_well_formed rt -> optimizer_returns_batch rt -> models_loaded w ->
  bo_run rt cfg k w = (Ok tt, w') ->
  exists x obj,
    train_x w' = Some x /\ train_obj w' = Some obj /\
    shape x = [(n_init cfg + k * BATCH_SIZE cfg)%nat; d] /\
    shape obj = [(n_init cfg + k * BATCH_SIZE cfg)%nat; 1%nat] /\
    List.length (data x) = ((n_init cfg + k * BATCH_SIZE cfg) * d)%nat /\
    List.length (data obj) = (n_init cfg + k * BATCH_SIZE cfg)%nat.
Proof.
  intros [Hrand Hcand] Hopt Hm H. apply bo_run_ok in H. destruct H as (w0 & Hinit & Hloop).
  apply bo_init_ok in Hinit. destruct Hinit as (x & s & m & Hun & Hev & _ & ->).
  pose proof (unnormalize_shape _ _ _ Hun) as Hx. cbn [shape] in Hx.
  destruct (evaluate_rows rt _ _ _ _ Hev Hm Hx) as (Hs & Hls & _).
  rewrite (unnormalize_eq
             (mkTensor [n_init cfg; d]
                (fst (uniform rt (n_init cfg * d) (manual_seed rt (seed cfg)))))
             (n_init cfg) eq_refl) in Hun.
  injection Hun as Hun.
  assert (Hlx : List.length (data x) = (n_init cfg * d)%nat).
  { rewrite <- Hun. cbn [data]. rewrite length_map_columns. apply Hrand. }
  assert (G : models_loaded w' /\ exists x obj,
    train_x w' = Some x /\ train_obj w' = Some obj /\
    shape x = [(n_init cfg + (k + 0) * BATCH_SIZE cfg)%nat; d] /\
    shape obj = [(n_init cfg + (k + 0) * BATCH_SIZE cfg)%nat; 1%nat] /\
    List.length (data x) = ((n_init cfg + (k + 0) * BATCH_SIZE cfg) * d)%nat /\
    List.length (data obj) = (n_init cfg + (k + 0) * BATCH_SIZE cfg)%nat).
  2:{ rewrite Nat.add_0_r in G. apply G. }
  revert Hloop.
  apply (bo_loop_invariant rt cfg (fun j w1 =>
    models_loaded w1 /\ exists x obj,
      train_x w1 = Some x /\ train_obj w1 = Some obj /\
      shape x = [(n_init cfg + j * BATCH_SIZE cfg)%nat; d] /\
      shape obj = [(n_init cfg + j * BATCH_SIZE cfg)%nat; 1%nat] /\
      List.length (data x) = ((n_init cfg + j * BATCH_SIZE cfg) * d)%nat /\
      List.length (data obj) = (n_init cfg + j * BATCH_SIZE cfg)%nat)).
  - clear - Hopt Hcand.
    intros j w w' (Hm & x & obj & Hx & Hobj & Hsx & Hso & Hlx & Hlo) H.
    apply bo_iteration_ok in H.
    destruct H as (x0 & obj0 & sd & h0 & model & acq & g1 & res & g2 & new_x & s & x' & obj'
                   & m' & Hx0 & Hobj0 & _ & _ & _ & Hcall & Hun & Hev & Hcx & Hco & _ & ->).
    rewrite Hx in Hx0. injection Hx0 as <-. rewrite Hobj in Hobj0. injection Hobj0 as <-.
    destruct res as [cand v]. pose proof (Hcand _ _ _ _ _ _ _ _ _ Hcall) as Hwf.
    apply Hopt in Hcall. cbn [fst] in Hun.
    change (last (shape unit_cube) 0%nat) with d in Hcall.
    unfold well_formed in Hwf. rewrite Hcall in Hwf. unfold numel in Hwf.
    cbn [fold_right] in Hwf. rewrite Nat.mul_1_r in Hwf.
    pose proof (unnormalize_shape _ _ _ Hun) as Hnx. rewrite Hcall in Hnx.
    destruct (evaluate_rows rt _ _ _ _ Hev Hm Hnx) as (Hs & Hls & _).
    rewrite (unnormalize_eq _ _ Hcall) in Hun. injection Hun as Hun.
    assert (Hlnx : List.length (data new_x) = (BATCH_SIZE cfg * d)%nat).
    { rewrite <- Hun. cbn [data]. rewrite length_map_columns. exact Hwf. }
    apply cat_ok in Hcx, Hco.
    destruct Hcx as (Dx & n1 & m1 & s1 & E1 & E2 & E3).
    destruct Hco as (Do & n2 & m2 & s2 & F1 & F2 & F3).
    rewrite Hsx in E1. injection E1 as <- <-. rewrite Hnx in E2. injection E2 as <-.
    rewrite Hso in F1. injection F1 as <- <-.
    unfold unsqueeze_last in F2. cbn [shape] in F2. rewrite Hs in F2. injection F2 as <-.
    split; [exact Hm |]. exists x', obj'. cbn [train_x train_obj].
    split; [reflexivity |]. split; [reflexivity |].
    rewrite E3, F3, Dx, Do, !length_app, Hlx, Hlo, Hlnx. cbn [unsqueeze_last data].
    rewrite Hls.
    split; [f_equal; simpl; lia |]. split; [f_equal; simpl; lia |]. split; nia.
  - split; [revert Hm; apply models_loaded_eq; reflexivity |].
    exists x, (unsqueeze_last s). cbn [train_x train_obj set_state_dict].
    split; [reflexivity |]. split; [reflexivity |].
    split; [rewrite Hx; f_equal; simpl; lia |].
    split; [cbn [unsqueeze_last shape]; rewrite Hs; cbn [app]; f_equal; simpl; lia |].
    split; [rewrite Hlx; simpl; lia |].
    cbn [unsqueeze_last data]. rewrite Hls. simpl. lia.
Qed.

(** C1: after [k] completed rounds of the loop the dataset holds exactly
    [n_init + k * BATCH_SIZE] latent vectors of 20 entries and as many
    scores, by its shape and by the number of its entries; the dataset
    after any earlier round [j] is its first [n_init + j * BATCH_SIZE]
    rows, so every round appends [BATCH_SIZE] rows and none is ever
    removed or changed. *)
Theorem dataset_size_after_iterations
        (rt : Runtime) (env : Env) (cfg : Config) (k : nat) (w0 w : World rt) :
  library_tensors_well_formed rt ->
  optimizer_returns_batch rt ->
  script_upto rt env cfg k w0 = (Ok tt, w) ->
  exists x obj,
    train_x w = Some x /\ train_obj w = Some obj /\
    shape x = [(n_init cfg + k * BATCH_SIZE cfg)%nat; d] /\
    shape obj = [(n_init cfg + k * BATCH_SIZE cfg)%nat; 1%nat] /\
    List.length (data x) = ((n_init cfg + k * BATCH_SIZE cfg) * d)%nat /\
    List.length (data obj) = (n_init cfg + k * BATCH_SIZE cfg)%nat /\
    forall j, (j <= k)%nat ->
      exists wj xj objj,
        script_upto rt env cfg j w0 = (Ok tt, wj) /\
        train_x wj = Some xj /\ train_obj wj = Some objj /\
        shape xj = [(n_init cfg + j * BATCH_SIZE cfg)%nat; d] /\
        shape objj = [(n_init cfg + j * BATCH_SIZE cfg)%nat; 1%nat] /\
        data xj = firstn ((n_init cfg + j * BATCH_SIZE cfg) * d) (data x) /\
        data objj = firstn (n_init cfg + j * BATCH_SIZE cfg) (data obj).
Proof.
  intros Hwf Hopt H. apply script_upto_ok in H. destruct H as (w1 & _ & Hm & Hrun & Hall).
  destruct (dataset_entries_invariant rt cfg k w1 w Hwf Hopt Hm Hrun)
    as (x & obj & Hx & Hobj & Sx & So & Lx & Lo).
  exists x, obj. repeat (split; [assumption |]).
  intros j Hj. apply bo_run_ok in Hrun. destruct Hrun as (wi & Hinit & Hloop).
  replace k with (j + (k - j))%nat in Hloop by lia.
  apply bo_loop_split in Hloop. destruct Hloop as (wj & Hj1 & Hj2).
  pose proof (bo_run_intro rt cfg j w1 wi _ Hinit Hj1) as Hrunj.
  destruct (dataset_entries_invariant rt cfg j w1 wj Hwf Hopt Hm Hrunj)
    as (xj & objj & Hxj & Hobjj & Sxj & Soj & Lxj & Loj).
  destruct (bo_loop_extends rt cfg (k - j) wj w xj objj Hxj Hobjj Hj2)
    as (x' & obj' & Hx' & Hobj' & [rx Ex] & [ro Eo]).
  rewrite Hx in Hx'. injection Hx' as <-. rewrite Hobj in Hobj'. injection Hobj' as <-.
  exists wj, xj, objj. rewrite Hall.
  split; [exact Hrunj |]. split; [exact Hxj |]. split; [exact Hobjj |].
  split; [exact Sxj |]. split; [exact Soj |].
  rewrite Ex, Eo, <- Lxj, <- Loj, !firstn_prefix. split; reflexivity.
Qed.

Lemma dataset_size_witness :
  exists x obj,
    train_x toy_final_world = Some x /\ train_obj toy_final_world = Some obj /\
    shape x = [11%nat; d] /\ shape obj = [11; 1]%nat /\
    List.length (data x) = 220%nat /\ List.length (data obj) = 11%nat.
Proof.
  destruct (dataset_size_after_iterations Toy.rt Toy.env Toy.cfg 2
              (initial_world Toy.rt 0%nat) toy_final_world
              toy_tensors_well_formed toy_optimizer_batch toy_run)
    as (x & obj & Hx & Hobj & Sx & So & Lx & Lo & _).
  exists x, obj. repeat split; assumption.
Defined.

(** C2: at whatever point a run ends, normally or with an exception, the
    history of the best observed value does not decrease:
    [best_observed[i] <= best_observed[i+1]] for every valid [i]. *)
Theorem best_observed_nondecreasing
        (rt : Runtime) (env : Env) (cfg : Config) (k : nat) (g : Gen rt)
        (r : Res unit) (w : World rt) (h : list R) :
  script_upto rt env cfg k (initial_world rt g) = (r, w) ->
  best_observed w = Some h ->
  forall i, (S i < List.length h)%nat -> nth i h 0 <= nth (S i) h 0.
Proof.
  intros H Hh.
  destruct (script_upto_sound rt env cfg k r _ w (initial_world_sound rt g) H) as [_ KB].
  destruct (KB h Hh) as [Hn _]. exact Hn.
Qed.

Lemma best_observed_nondecreasing_witness :
  exists h, best_observed toy_final_world = Some h /\
            forall i, (S i < List.length h)%nat -> nth i h 0 <= nth (S i) h 0.
Proof.
  destruct toy_history as (obj & h & _ & Hh). exists h. split; [exact Hh |].
  exact (best_observed_nondecreasing Toy.rt Toy.env Toy.cfg 2 0%nat (Ok tt)
           toy_final_world h toy_run Hh).
Defined.

(** C3: after every round, the last entry of the history of the best
    observed value is the maximum of the scores in the dataset, and the
    history has one entry for the initial batch and one for each completed
    round. *)
Theorem best_observed_last_is_maximum
        (rt : Runtime) (env : Env) (cfg : Config) (k : nat) (w0 w : World rt) :
  script_upto rt env cfg k w0 = (Ok tt, w) ->
  exists obj h,
    train_obj w = Some obj /\ best_observed w = Some h /\
    List.length h = (1 + k)%nat /\
    In (last h 0) (data obj) /\ Forall (fun v => v <= last h 0) (data obj).
Proof.
  intros H. apply script_upto_ok in H. destruct H as (w1 & _ & _ & Hrun & _).
  destruct (best_history_invariant rt cfg k w1 w Hrun)
    as (obj & h & m & Hobj & Hh & [Hin Hall] & _ & Hlen).
  exists obj, (h ++ [m]). rewrite last_last, length_app, Hlen. cbn [List.length].
  split; [exact Hobj |]. split; [exact Hh |]. split; [lia |]. split; assumption.
Qed.

Lemma best_observed_last_is_maximum_witness :
  exists obj h,
    train_obj toy_final_world = Some obj /\ best_observed toy_final_world = Some h /\
    List.length h = 3%nat /\
    In (last h 0) (data obj) /\ Forall (fun v => v <= last h 0) (data obj).
Proof.
  exact (best_observed_last_is_maximum Toy.rt Toy.env Toy.cfg 2
           (initial_world Toy.rt 0%nat) toy_final_world toy_run).
Defined.



(** C5: two runs with the same libraries, the same files and environment
    and the same constants (the seed among them) agree on their outcome, on
    the batches evaluated, on the dataset and on the history, whatever
    state the random generator was in when each run started. *)
Theorem runs_with_one_seed_agree (rt : Runtime) (env : Env) (g1 g2 : Gen rt) :
  (forall cfg k,
      outcomes_agree (script_upto rt env cfg k (initial_world rt g1))
                     (script_upto rt env cfg k (initial_world rt g2))) /\
  outcomes_agree (script rt env (initial_world rt g1)) (script rt env (initial_world rt g2)).
Proof.
  assert (G : forall cfg k,
      outcomes_agree (script_upto rt env cfg k (initial_world rt g1))
                     (script_upto rt env cfg k (initial_world rt g2))).
  2:{ split; [exact G | apply G]. }
  intros cfg k. unfold outcomes_agree.
  destruct (script_upto rt env cfg k (initial_world rt g1)) as [r1 w1] eqn:E1.
  destruct (script_upto rt env cfg k (initial_world rt g2)) as [r2 w2] eqn:E2.
  apply script_upto_inv in E1, E2. cbn [fst snd].
  destruct (pretrained_cnn env) as [net | e].
  - destruct (pretrained_vae env) as [vae | e].
    + destruct E1 as (wa & Sa & Ca & Va & Ha & _). destruct E2 as (wb & Sb & Cb & Vb & Hb & _).
      assert (Sab : same_results wa wb).
      { destruct Sa as (A1 & A2 & A3 & A4 & A5). destruct Sb as (B1 & B2 & B3 & B4 & B5).
        unfold same_results. cbn in *. repeat split; congruence. }
      rewrite (bo_run_seeded rt cfg k wa wb Sab) in Ha by congruence.
      rewrite Ha in Hb. injection Hb as <- <-. repeat split.
    + destruct E1 as (-> & A1 & A2 & A3 & A4 & A5). destruct E2 as (-> & B1 & B2 & B3 & B4 & B5).
      cbn in *. repeat split; congruence.
  - destruct E1 as (-> & A1 & A2 & A3 & A4 & A5). destruct E2 as (-> & B1 & B2 & B3 & B4 & B5).
    cbn in *. repeat split; congruence.
Qed.

(** C6: the acquisition function of every round is built from the model
    and the best score alone; no sampler and no number of samples is
    passed on, so the estimator falls back on the library's default. *)
Theorem acquisition_built_without_sampler
        (rt : Runtime) (model : GP rt) (s : list nat) (v : R) (l : list R) :
  make_qEI rt model (mkTensor s (v :: l))
  = Ok (qExpectedImprovement model (fold_left Rmax l v) None).
Proof. reflexivity. Qed.

Lemma location_unresolved_raises (env : Env) :
  location_unresolved env ->
  get_pretrained_dir env
  = Raise (FileNotFoundError "Could not figure out location of pretrained models.").
Proof.
  intros (He & Hb & Ht). unfold get_pretrained_dir. rewrite He.
  apply String.eqb_neq in Hb, Ht. rewrite Hb, Ht. reflexivity.
Qed.

(** C7: when the location of the pretrained models cannot be resolved, or
    a weights file is missing, the script stops with a configuration error
    before In[12]: nothing was decoded, and neither the dataset nor the
    history nor the carried model state was ever bound. *)
Theorem configuration_error_aborts (rt : Runtime) (env : Env) (g : Gen rt) :
  location_unresolved env \/ weights_missing env ->
  exists e w,
    script rt env (initial_world rt g) = (Raise e, w) /\
    configuration_error e /\ no_results w.
Proof.
  intros Hcfg.
  assert (Hfail : (exists e, pretrained_cnn env = Raise e) \/
                  (exists e, pretrained_vae env = Raise e)).
  { destruct Hcfg as [Hloc | (dir & Hdir & [Hc | Hv])].
    - left. unfold pretrained_cnn. rewrite (location_unresolved_raises _ Hloc).
      eexists. reflexivity.
    - left. unfold pretrained_cnn, torch_load. rewrite Hdir. cbn [res_bind]. rewrite Hc.
      eexists. reflexivity.
    - right. unfold pretrained_vae, torch_load. rewrite Hdir. cbn [res_bind]. rewrite Hv.
      eexists. reflexivity. }
  unfold script.
  destruct (script_upto rt env (script_config env) (N_BATCH (script_config env))
              (initial_world rt g)) as [r w] eqn:E.
  apply script_upto_inv in E.
  assert (Hno : same_results (initial_world rt g) w -> no_results w).
  { intros (A1 & A2 & A3 & A4 & A5). unfold no_results. cbn in *. auto. }
  destruct (pretrained_cnn env) as [net | e] eqn:Ec.
  - destruct (pretrained_vae env) as [vae | e] eqn:Ev.
    + destruct Hfail as [[e He] | [e He]]; discriminate.
    + destruct E as [-> Hs]. exists e, w. split; [reflexivity |].
      split; [apply (pretrained_vae_error env e Ev) | apply Hno; exact Hs].
  - destruct E as [-> Hs]. exists e, w. split; [reflexivity |].
    split; [apply (pretrained_cnn_error env e Ec) | apply Hno; exact Hs].
Qed.

Lemma configuration_error_aborts_witness :
  exists e w,
    script Toy.rt Toy.env_elsewhere (initial_world Toy.rt 0%nat) = (Raise e, w) /\
    configuration_error e /\ no_results w.
Proof.
  apply (configuration_error_aborts Toy.rt Toy.env_elsewhere 0%nat).
  left. unfold location_unresolved. cbn.
  split; [reflexivity |]. split; discriminate.
Defined.

(** C9: with both models loaded, the objective applied to an empty batch
    of latent vectors (no rows, [d] columns) returns an empty vector of
    scores, not an exception. *)
Theorem evaluate_empty_batch (rt : Runtime) (w : World rt) :
  models_loaded w ->
  evaluate rt empty_batch w
  = (Ok (mkTensor [0%nat] []), set_decoded (decoded w ++ [empty_batch]) w).
Proof.
  intros Hm.
  destruct (evaluate_total rt empty_batch 0 w Hm eq_refl) as (s & He & Hs).
  rewrite He. f_equal. f_equal.
  destruct (evaluate_ok rt _ _ _ _ He) as (b & Hb & Hl & _).
  rewrite Hs in Hb. injection Hb as <-.
  destruct s as [sh da]. cbn in *. subst sh.
  destruct da; [reflexivity | discriminate].
Qed.

Lemma evaluate_empty_batch_witness :
  evaluate Toy.rt empty_batch toy_loaded_world
  = (Ok (mkTensor [0%nat] []),
     set_decoded (decoded toy_loaded_world ++ [empty_batch]) toy_loaded_world).
Proof. exact (evaluate_empty_batch Toy.rt toy_loaded_world toy_models_loaded). Defined.

(** C10: every score the objective returns lies in (0, 1], and so does, at
    whatever point a run ends, every entry of the score column of the
    dataset and of the history of the best observed value. *)
Theorem scores_in_unit_interval (rt : Runtime) (env : Env) :
  (forall x w s w', score_image rt x w = (Ok s, w') ->
                    Forall (fun v => 0 < v <= 1) (data s)) /\
  (forall x w s w', evaluate rt x w = (Ok s, w') ->
                    Forall (fun v => 0 < v <= 1) (data s)) /\
  (forall cfg k g r w,
      script_upto rt env cfg k (initial_world rt g) = (r, w) ->
      (forall obj, train_obj w = Some obj -> Forall (fun v => 0 < v <= 1) (data obj)) /\
      (forall h, best_observed w = Some h -> Forall (fun v => 0 < v <= 1) h)).
Proof.
  split; [| split].
  - intros x w s w' H. apply score_image_ok in H. destruct H as (_ & b & _ & _ & H). exact H.
  - intros x w s w' H. apply evaluate_ok in H. destruct H as (b & _ & _ & H). exact H.
  - intros cfg k g r w H.
    destruct (script_upto_sound rt env cfg k r _ w (initial_world_sound rt g) H) as [KT KB].
    split; [exact KT |]. intros h Hh. destruct (KB h Hh) as (_ & Hs & _). exact Hs.
Qed.

Lemma scores_in_unit_interval_witness :
  exists obj h,
    train_obj toy_final_world = Some obj /\ best_observed toy_final_world = Some h /\
    Forall (fun v => 0 < v <= 1) (data obj) /\ Forall (fun v => 0 < v <= 1) h.
Proof.
  destruct toy_history as (obj & h & Ho & Hh). exists obj, h.
  destruct (proj2 (proj2 (scores_in_unit_interval Toy.rt Toy.env)) Toy.cfg 2%nat 0%nat
              (Ok tt) toy_final_world toy_run) as [KT KB].
  split; [exact Ho |]. split; [exact Hh |]. split; [apply KT; exact Ho | apply KB; exact Hh].
Defined.

(** ** Further properties of the code *)

(** *** The location of the pretrained models *)

(** X1: [get_pretrained_dir] raises exactly when the environment variable
    is not set and the last component of the working directory is neither
    [botorch] nor [tutorials]; the exception is then the
    [FileNotFoundError] of line 76. *)
Theorem get_pretrained_dir_raises_iff (env : Env) :
  ((exists e, get_pretrained_dir env = Raise e) <-> location_unresolved env) /\
  (forall e, get_pretrained_dir env = Raise e ->
             e = FileNotFoundError "Could not figure out location of pretrained models.").
Proof.
  split; [split |].
  - intros [e H]. unfold get_pretrained_dir in H. unfold location_unresolved.
    destruct (environ env "PRETRAINED_LOCATION"); [discriminate |].
    destruct (String.eqb (basename (getcwd env)) "botorch") eqn:Eb; [discriminate |].
    destruct (String.eqb (basename (getcwd env)) "tutorials") eqn:Et; [discriminate |].
    apply String.eqb_neq in Eb, Et. auto.
  - intros H. eexists. apply (location_unresolved_raises _ H).
  - intros e H. unfold get_pretrained_dir in H.
    destruct (environ env "PRETRAINED_LOCATION"); [discriminate |].
    destruct (String.eqb (basename (getcwd env)) "botorch"); [discriminate |].
    destruct (String.eqb (basename (getcwd env)) "tutorials"); [discriminate |].
    injection H as <-. reflexivity.
Qed.

Lemma string_app_assoc (a b c : string) : ((a ++ b) ++ c)%string = (a ++ (b ++ c))%string.
Proof. induction a as [|x a IH]; simpl; [reflexivity | rewrite IH; reflexivity]. Qed.

Lemma basename_from_app (p : string) :
  forall acc s, basename_from acc (p ++ String "/" s) = basename_from EmptyString s.
Proof.
  induction p as [|c p IH]; intros acc s; simpl; [reflexivity |].
  destruct (Ascii.eqb c "/"); apply IH.
Qed.

Lemma ends_with_sep_app (p : string) (c : ascii) (s : string) :
  ends_with_sep (p ++ String c s) = ends_with_sep (String c s).
Proof.
  induction p as [|x p IH]; [reflexivity |].
  cbn [append]. rewrite <- IH.
  destruct (p ++ String c s)%string eqn:E; [| reflexivity].
  destruct p; discriminate.
Qed.

Lemma eqb_app_nonempty (p : string) (c : ascii) (s : string) :
  String.eqb (p ++ String c s) EmptyString = false.
Proof. destruct p; reflexivity. Qed.

(** X2: run from a folder [.../tutorials] with the variable unset, the
    weights paths of In[5] and In[6] are
    [.../tutorials/pretrained_models/mnist_cnn.pt] and [mnist_vae.pt] there;
    run from a folder [.../botorch], they are
    [.../botorch/tutorials/pretrained_models/mnist_cnn.pt] and
    [mnist_vae.pt]; with the variable set to a directory that ends in a
    slash, they are the two files of that directory, wherever the script
    runs. *)
Theorem pretrained_paths (env : Env) (parent : string) :
  (environ env "PRETRAINED_LOCATION" = None ->
   getcwd env = (parent ++ "/tutorials")%string ->
   exists dir, get_pretrained_dir env = Ok dir /\
     path_join dir "mnist_cnn.pt" = (parent ++ "/tutorials/pretrained_models/mnist_cnn.pt")%string /\
     path_join dir "mnist_vae.pt" = (parent ++ "/tutorials/pretrained_models/mnist_vae.pt")%string) /\
  (environ env "PRETRAINED_LOCATION" = None ->
   getcwd env = (parent ++ "/botorch")%string ->
   exists dir, get_pretrained_dir env = Ok dir /\
     path_join dir "mnist_cnn.pt"
     = (parent ++ "/botorch/tutorials/pretrained_models/mnist_cnn.pt")%string /\
     path_join dir "mnist_vae.pt"
     = (parent ++ "/botorch/tutorials/pretrained_models/mnist_vae.pt")%string) /\
  (environ env "PRETRAINED_LOCATION" = Some (parent ++ "/")%string ->
   exists dir, get_pretrained_dir env = Ok dir /\
     path_join dir "mnist_cnn.pt" = (parent ++ "/mnist_cnn.pt")%string /\
     path_join dir "mnist_vae.pt" = (parent ++ "/mnist_vae.pt")%string).
Proof.
  assert (Hjoin : forall (c : ascii) (t name : string),
             ends_with_sep (String c t) = true -> starts_with_sep name = false ->
             path_join (parent ++ String c t) name = (parent ++ (String c t ++ name))%string).
  { intros c t name Hq Hn. unfold path_join. rewrite Hn.
    rewrite (ends_with_sep_app parent c t), Hq, orb_true_r.
    apply string_app_assoc. }
  split; [| split].
  - intros Hvar Hcwd. exists (parent ++ "/tutorials/pretrained_models/")%string.
    split; [| rewrite !Hjoin by reflexivity; split; reflexivity].
    unfold get_pretrained_dir. rewrite Hvar, Hcwd. unfold basename.
    rewrite basename_from_app. cbn [basename_from Ascii.eqb append String.eqb].
    simpl. unfold path_join. cbn [starts_with_sep Ascii.eqb].
    rewrite eqb_app_nonempty, (ends_with_sep_app parent "/" "tutorials"). simpl.
    rewrite string_app_assoc. reflexivity.
  - intros Hvar Hcwd. exists (parent ++ "/botorch/tutorials/pretrained_models/")%string.
    split; [| rewrite !Hjoin by reflexivity; split; reflexivity].
    unfold get_pretrained_dir. rewrite Hvar, Hcwd. unfold basename.
    rewrite basename_from_app. cbn [basename_from Ascii.eqb append String.eqb].
    simpl. unfold path_join. cbn [starts_with_sep Ascii.eqb].
    rewrite eqb_app_nonempty, (ends_with_sep_app parent "/" "botorch"). simpl.
    rewrite string_app_assoc. reflexivity.
  - intros Hvar. exists (parent ++ "/")%string.
    split; [| rewrite !Hjoin by reflexivity; split; reflexivity].
    unfold get_pretrained_dir. rewrite Hvar. reflexivity.
Qed.

Lemma pretrained_paths_witness :
  exists dir, get_pretrained_dir Toy.env = Ok dir /\
    path_join dir "mnist_cnn.pt"
    = "/home/user/botorch/tutorials/pretrained_models/mnist_cnn.pt"%string /\
    path_join dir "mnist_vae.pt"
    = "/home/user/botorch/tutorials/pretrained_models/mnist_vae.pt"%string.
Proof.
  exact (proj1 (pretrained_paths Toy.env "/home/user/botorch") eq_refl eq_refl).
Defined.

(** *** The scoring function *)

Lemma nth_tensor_map (f : R -> R) (l : list R) (i : nat) :
  (i < List.length l)%nat -> nth i (map f l) 0 = f (nth i l 0).
Proof.
  intros Hi. rewrite (nth_indep _ 0 (f 0)) by (rewrite length_map; exact Hi).
  apply map_nth.
Qed.

Lemma score_value_one (a : R) : exp (-2 * (a - 3) ^ 2) = 1 <-> a = 3.
Proof.
  split; intros H.
  - rewrite <- exp_0 in H. apply exp_inv in H.
    assert (E : (a - 3) * (a - 3) = 0) by (simpl in H; lra).
    apply Rmult_integral in E. lra.
  - subst a. replace (-2 * (3 - 3) ^ 2) with 0 by (simpl; ring). apply exp_0.
Qed.

Lemma score_value_le (a b : R) :
  Rabs (a - 3) <= Rabs (b - 3) -> exp (-2 * (b - 3) ^ 2) <= exp (-2 * (a - 3) ^ 2).
Proof.
  intros H. apply Rsqr_le_abs_1 in H. rewrite <- !Rsqr_pow2.
  destruct H as [H | H].
  - left. apply exp_increasing. lra.
  - rewrite H. lra.
Qed.

(** X3: [score] keeps the shape of its argument; each entry of the result
    lies between 0 and 1, it is 1 where the argument is 3, and of two
    entries the one whose argument is at least as near to 3 is at least as
    large: no argument scores better than 3. *)
Theorem score_prefers_three (y : Tensor) :
  shape (score y) = shape y /\
  List.length (data (score y)) = List.length (data y) /\
  forall i, (i < List.length (data y))%nat ->
    0 <= nth i (data (score y)) 0 <= 1 /\
    (nth i (data y) 0 = 3 -> nth i (data (score y)) 0 = 1) /\
    forall j, (j < List.length (data y))%nat ->
      Rabs (nth i (data y) 0 - 3) <= Rabs (nth j (data y) 0 - 3) ->
      nth j (data (score y)) 0 <= nth i (data (score y)) 0.
Proof.
  unfold score, tensor_map. cbn [shape data].
  split; [reflexivity |]. split; [apply length_map |].
  intros i Hi. rewrite (nth_tensor_map _ _ _ Hi).
  split; [| split].
  - split; [left; apply exp_pos |]. rewrite <- exp_0.
    pose proof (pow2_ge_0 (nth i (data y) 0 - 3)) as Hp.
    destruct (Req_dec ((nth i (data y) 0 - 3) ^ 2) 0) as [E | E].
    + rewrite E, Rmult_0_r. lra.
    + left. apply exp_increasing. lra.
  - apply score_value_one.
  - intros j Hj. rewrite (nth_tensor_map _ _ _ Hj). apply score_value_le.
Qed.

Lemma reward_three : reward 3 = 1.
Proof. unfold reward. apply score_value_one. simpl. lra. Qed.

Lemma reward_off_three (k : nat) : k <> 3%nat -> reward k <= exp (-2).
Proof.
  intros Hk. unfold reward.
  assert (H : 1 <= (INR k - 3) ^ 2).
  { destruct (Nat.lt_ge_cases k 3) as [Hlt | Hge].
    - assert (Hk2 : INR k <= INR 2) by (apply le_INR; lia). simpl in *. nra.
    - assert (Hk4 : INR 4 <= INR k) by (apply le_INR; lia). simpl in *. nra. }
  destruct (Req_dec (-2 * (INR k - 3) ^ 2) (-2)) as [E | E].
  - rewrite E. lra.
  - left. apply exp_increasing. lra.
Qed.

Lemma reward_floor (k : nat) : (k < 10)%nat -> exp (-72) <= reward k.
Proof.
  intros Hk. unfold reward.
  assert (H : (INR k - 3) ^ 2 <= 36).
  { assert (0 <= INR k) by apply pos_INR.
    assert (Hk9 : INR k <= INR 9) by (apply le_INR; lia). simpl in *. nra. }
  destruct (Req_dec (-2 * (INR k - 3) ^ 2) (-72)) as [E | E].
  - rewrite E. lra.
  - left. apply exp_increasing. lra.
Qed.

Lemma nth_expected_score (b : nat) (p : list R) (s : Tensor) (r : nat) :
  expected_score (mkTensor [b; 10%nat] p) = Ok s -> (r < b)%nat ->
  nth r (data s) 0 = expectation p r.
Proof.
  intros H Hr. rewrite (expected_score_rows _ b) in H by reflexivity.
  injection H as <-. cbn [data].
  rewrite (nth_indep _ 0 (expectation p 0)) by (rewrite length_map, length_seq; exact Hr).
  rewrite map_nth, seq_nth by exact Hr. reflexivity.
Qed.

(** Ten probabilities and their weighted sum, spelled out. *)
Lemma expectation_unfold (q : nat -> R) (rw : nat -> R) :
  sum_list (map (fun k => q k * rw k) (seq 0 10))
  = q 0%nat * rw 0%nat + q 1%nat * rw 1%nat + q 2%nat * rw 2%nat + q 3%nat * rw 3%nat
    + q 4%nat * rw 4%nat + q 5%nat * rw 5%nat + q 6%nat * rw 6%nat + q 7%nat * rw 7%nat
    + q 8%nat * rw 8%nat + q 9%nat * rw 9%nat.
Proof. cbn [seq map sum_list fold_right]. ring. Qed.

Lemma weighted_reward_bounds (q : nat -> R) :
  (forall k, (k < 10)%nat -> 0 <= q k) ->
  sum_list (map q (seq 0 10)) = 1 ->
  q 3%nat + exp (-72) * (1 - q 3%nat)
  <= sum_list (map (fun k => q k * reward k) (seq 0 10))
  <= q 3%nat + exp (-2) * (1 - q 3%nat).
Proof.
  intros Hq Hsum. rewrite expectation_unfold.
  assert (Hs : q 0%nat + q 1%nat + q 2%nat + q 3%nat + q 4%nat + q 5%nat + q 6%nat
               + q 7%nat + q 8%nat + q 9%nat = 1).
  { rewrite <- Hsum. cbn [seq map sum_list fold_right]. ring. }
  rewrite reward_three.
  assert (B : forall k, (k < 10)%nat -> k <> 3%nat ->
                q k * exp (-72) <= q k * reward k <= q k * exp (-2)).
  { intros k Hk Hne. pose proof (Hq k Hk). pose proof (reward_off_three k Hne).
    pose proof (reward_floor k Hk). split; apply Rmult_le_compat_l; assumption. }
  pose proof (B 0%nat ltac:(lia) ltac:(lia)). pose proof (B 1%nat ltac:(lia) ltac:(lia)).
  pose proof (B 2%nat ltac:(lia) ltac:(lia)). pose proof (B 4%nat ltac:(lia) ltac:(lia)).
  pose proof (B 5%nat ltac:(lia) ltac:(lia)). pose proof (B 6%nat ltac:(lia) ltac:(lia)).
  pose proof (B 7%nat ltac:(lia) ltac:(lia)). pose proof (B 8%nat ltac:(lia) ltac:(lia)).
  pose proof (B 9%nat ltac:(lia) ltac:(lia)).
  split; nra.
Qed.

(** X4: on a row of class probabilities (non-negative, of sum 1) the score
    differs from the probability [p3] the classifier gives to the digit 3
    by little: it lies between [p3] and [p3 + exp(-2) * (1 - p3)]. *)
Theorem score_tracks_probability_of_three (b : nat) (p : list R) (s : Tensor) (r : nat) :
  expected_score (mkTensor [b; 10%nat] p) = Ok s ->
  (r < b)%nat ->
  (forall k, (k < 10)%nat -> 0 <= get2 10 p r k) ->
  sum_list (map (get2 10 p r) (seq 0 10)) = 1 ->
  get2 10 p r 3 <= nth r (data s) 0 <= get2 10 p r 3 + exp (-2) * (1 - get2 10 p r 3).
Proof.
  intros H Hr Hq Hsum. rewrite (nth_expected_score b p s r H Hr). unfold expectation.
  destruct (weighted_reward_bounds (get2 10 p r) Hq Hsum) as [Hlo Hhi].
  split; [| exact Hhi].
  pose proof (exp_pos (-72)). pose proof (Hq 3%nat ltac:(lia)).
  assert (get2 10 p r 3 <= 1).
  { rewrite <- Hsum. cbn [seq map sum_list fold_right].
    pose proof (Hq 0%nat ltac:(lia)). pose proof (Hq 1%nat ltac:(lia)).
    pose proof (Hq 2%nat ltac:(lia)). pose proof (Hq 4%nat ltac:(lia)).
    pose proof (Hq 5%nat ltac:(lia)). pose proof (Hq 6%nat ltac:(lia)).
    pose proof (Hq 7%nat ltac:(lia)). pose proof (Hq 8%nat ltac:(lia)).
    pose proof (Hq 9%nat ltac:(lia)). lra. }
  nra.
Qed.

Lemma score_tracks_probability_of_three_witness :
  get2 10 (data (one_hot 3)) 0 3 <= nth 0 [reward 3] 0
  <= get2 10 (data (one_hot 3)) 0 3 + exp (-2) * (1 - get2 10 (data (one_hot 3)) 0 3).
Proof.
  apply (score_tracks_probability_of_three 1 (data (one_hot 3)) (mkTensor [1%nat] [reward 3]) 0).
  - apply (expected_score_one_hot 3). lia.
  - lia.
  - intros k Hk. do 10 (destruct k as [|k]; [unfold get2; simpl; lra |]). lia.
  - unfold get2. simpl. lra.
Defined.

(** *** Softmax rows *)

Lemma softmax_sum_one (y : nat -> R) (c : nat) :
  (0 < c)%nat ->
  sum_list (map (fun k => exp (y k - ln (sum_list (map (fun j => exp (y j)) (seq 0 c)))))
              (seq 0 c)) = 1.
Proof.
  intros Hc. set (total := sum_list (map (fun j => exp (y j)) (seq 0 c))).
  assert (Htotal : 0 < total).
  { unfold total. destruct c as [|c]; [lia |].
    pose proof (weighted_sum_bounds (fun j => exp (y j)) (fun _ => 1) 0 (seq 1 c)
                  (fun k => exp_pos (y k))
                  (fun _ => conj Rlt_0_1 (Rle_refl 1))) as [Hpos _].
    change (seq 0 (S c)) with (0%nat :: seq 1 c).
    erewrite map_ext in Hpos; [exact Hpos |]. intros k. simpl. ring. }
  erewrite map_ext with (g := fun k => exp (y k) * / total).
  2:{ intros k. unfold Rminus. rewrite exp_plus, exp_Ropp, exp_ln by exact Htotal. reflexivity. }
  rewrite (sum_list_scale (fun k => exp (y k))). fold total. field. lra.
Qed.

Lemma softmax_entry_lt_one (y : nat -> R) (k : nat) :
  (k < 10)%nat ->
  exp (y k - ln (sum_list (map (fun j => exp (y j)) (seq 0 10)))) < 1.
Proof.
  intros Hk. pose proof (softmax_sum_one y 10 ltac:(lia)) as Hsum.
  set (q := fun k => exp (y k - ln (sum_list (map (fun j => exp (y j)) (seq 0 10))))) in *.
  change (q k < 1).
  assert (Hq : forall j, 0 < q j) by (intros j; apply exp_pos).
  cbn [seq map sum_list fold_right] in Hsum.
  pose proof (Hq 0%nat). pose proof (Hq 1%nat). pose proof (Hq 2%nat). pose proof (Hq 3%nat).
  pose proof (Hq 4%nat). pose proof (Hq 5%nat). pose proof (Hq 6%nat). pose proof (Hq 7%nat).
  pose proof (Hq 8%nat). pose proof (Hq 9%nat).
  do 10 (destruct k as [|k]; [lra |]). lia.
Qed.

Lemma softmax_expectation_strict (y : nat -> R) :
  exp (-72)
  < sum_list (map (fun k =>
       exp (y k - ln (sum_list (map (fun j => exp (y j)) (seq 0 10)))) * reward k) (seq 0 10))
  < 1.
Proof.
  set (q := fun k => exp (y k - ln (sum_list (map (fun j => exp (y j)) (seq 0 10))))).
  assert (Hq : forall k, 0 < q k) by (intros k; apply exp_pos).
  destruct (weighted_reward_bounds q (fun k _ => Rlt_le _ _ (Hq k))
              (softmax_sum_one y 10 ltac:(lia))) as [Hlo Hhi].
  pose proof (softmax_entry_lt_one y 3 ltac:(lia)) as H3. fold (q 3%nat) in H3.
  pose proof (Hq 3%nat) as H3'. pose proof (exp_pos (-72)) as He.
  assert (He72 : exp (-72) < 1) by (rewrite <- exp_0; apply exp_increasing; lra).
  assert (He2 : exp (-2) < 1) by (rewrite <- exp_0; apply exp_increasing; lra).
  pose proof (exp_pos (-2)).
  change (exp (-72) < sum_list (map (fun k => q k * reward k) (seq 0 10)) < 1).
  split; nra.
Qed.

(** The scores of a batch of log-softmax rows, entry by entry. *)
Lemma expected_score_softmax_data (y logp s : Tensor) :
  log_softmax y = Ok logp ->
  expected_score (torch_exp logp) = Ok s ->
  exists b, shape y = [b; 10%nat] /\
    data s = map (fun r => sum_list (map (fun k =>
                    exp (get2 10 (data y) r k
                         - ln (sum_list (map (fun j => exp (get2 10 (data y) r j)) (seq 0 10))))
                    * reward k) (seq 0 10))) (seq 0 b).
Proof.
  intros Hl Hs. apply log_softmax_ok in Hl. destruct Hl as (b & c & Hy & ->).
  destruct (expected_score_shape _ _ Hs) as [b' Hb']. cbn in Hb'.
  injection Hb' as -> ->.
  rewrite (expected_score_rows _ b') in Hs by reflexivity.
  injection Hs as <-. exists b'. split; [exact Hy |]. cbn [data].
  apply map_seq_ext. intros r Hr. unfold expectation. f_equal.
  apply map_seq_ext. intros k Hk. f_equal. unfold get2 at 1. unfold torch_exp, tensor_map.
  cbn [data].
  rewrite nth_tensor_map by (rewrite length_tabulate2; nia).
  unfold tabulate2. rewrite nth_tabulate_from by lia. reflexivity.
Qed.

(** X5: a score returned by [score_image] is never below exp(-72), the
    reward of the digit 9, and never above 1, the reward of the digit 3. *)
Theorem score_image_bounds
        (rt : Runtime) (x s : Tensor) (w w' : World rt) :
  score_image rt x w = (Ok s, w') ->
  Forall (fun v => exp (-72) <= v <= 1) (data s).
Proof.
  unfold score_image. intros H.
  apply bind_ok in H. destruct H as (cnn & w1 & _ & H).
  apply bind_ok in H. destruct H as (logp & w2 & Hf & H).
  apply lift_ok in Hf. destruct Hf as [Hf _]. apply lift_ok in H. destruct H as [H _].
  apply Net_forward_log_softmax in Hf. destruct Hf as [y Hy].
  destruct (expected_score_softmax_data _ _ _ Hy H) as (b & _ & ->).
  apply Forall_map_seq. intros r _.
  destruct (softmax_expectation_strict (fun k => get2 10 (data y) r k)) as [Hlo Hhi].
  split; left; assumption.
Qed.

Lemma toy_score_image :
  exists s, score_image Toy.rt (Toy.zeros [2; 1; 28; 28]%nat) toy_loaded_world
            = (Ok s, toy_loaded_world).
Proof.
  destruct (Net_forward_shape Toy.rt blank_Net (Toy.zeros [2; 1; 28; 28]%nat) 2)
    as (logp & Hl & Hs); [repeat split | reflexivity |].
  eexists. unfold score_image, bind, global, lift. cbn [cnn_model toy_loaded_world].
  rewrite Hl. cbn zeta. rewrite (expected_score_rows (torch_exp logp) 2 Hs). reflexivity.
Qed.

Lemma score_image_bounds_witness :
  exists s, score_image Toy.rt (Toy.zeros [2; 1; 28; 28]%nat) toy_loaded_world
            = (Ok s, toy_loaded_world)
            /\ Forall (fun v => exp (-72) <= v <= 1) (data s).
Proof.
  destruct toy_score_image as [s Hs]. exists s. split; [exact Hs |].
  exact (score_image_bounds Toy.rt _ s _ _ Hs).
Defined.

(** *** The classifier *)

(** X6: on [n] images of 28 x 28 pixels, [Net.forward] returns [n] rows of
    ten log-probabilities: [10 * n] entries, none of them positive. *)
Theorem Net_forward_log_probabilities
        (rt : Runtime) (net : Net) (x : Tensor) (n : nat) :
  Net_architecture net -> shape x = [n; 1; 28; 28]%nat ->
  exists logp,
    Net_forward rt net x = Ok logp /\ shape logp = [n; 10%nat] /\
    List.length (data logp) = (n * 10)%nat /\
    forall r k, (r < n)%nat -> (k < 10)%nat -> get2 10 (data logp) r k <= 0.
Proof.
  intros Ha Hx. destruct (Net_forward_shape rt net x n Ha Hx) as (logp & Hf & Hs).
  exists logp. split; [exact Hf |]. split; [exact Hs |].
  apply Net_forward_log_softmax in Hf. destruct Hf as [y Hy].
  apply log_softmax_ok in Hy. destruct Hy as (b & c & Hy & ->).
  cbn [shape] in Hs. injection Hs as -> ->. cbn [data].
  split; [apply length_tabulate2 |].
  intros r k Hr Hk. rewrite get2_tabulate2 by assumption.
  pose proof (softmax_entry_lt_one (fun k => get2 10 (data y) r k) k Hk) as Hlt.
  cbv beta in Hlt. rewrite <- exp_0 in Hlt. apply exp_lt_inv in Hlt. left. exact Hlt.
Qed.

Lemma Net_forward_log_probabilities_witness :
  exists logp,
    Net_forward Toy.rt blank_Net (Toy.zeros [2; 1; 28; 28]%nat) = Ok logp /\
    shape logp = [2; 10]%nat /\
    List.length (data logp) = (2 * 10)%nat /\
    forall r k, (r < 2)%nat -> (k < 10)%nat -> get2 10 (data logp) r k <= 0.
Proof.
  apply (Net_forward_log_probabilities Toy.rt blank_Net (Toy.zeros [2; 1; 28; 28]%nat) 2).
  - repeat split.
  - reflexivity.
Defined.

Lemma pool_half (a : nat) : (2 <= a)%nat -> ((a - 2) / 2 + 1 = a / 2)%nat.
Proof.
  intros Ha. replace a with (1 * 2 + (a - 2))%nat at 2 by lia.
  rewrite Nat.div_add_l by discriminate. lia.
Qed.

Lemma half_le (a b : nat) : (2 * b <= a)%nat -> (b <= a / 2)%nat.
Proof. intros H. apply Nat.div_le_lower_bound; lia. Qed.

Lemma half_lt (a b : nat) : (a < 2 * b)%nat -> (a / 2 < b)%nat.
Proof. intros H. apply Nat.Div0.div_lt_upper_bound; lia. Qed.

(** [x.view(-1, 4 * 4 * 50)] regroups the entries in rows of 800, when
    their number is a multiple of 800. *)
Lemma view_rows_of_800 (t : Tensor) :
  view t [(-1)%Z; (4 * 4 * 50)%Z]
  = if Nat.eqb (numel (shape t) mod 800) 0
    then Ok (mkTensor [(numel (shape t) / 800)%nat; 800%nat] (data t))
    else Raise (RuntimeError "shape is invalid for input size").
Proof.
  unfold view, infer_size, count_infer, fill_infer.
  change (4 * 4 * 50)%Z with 800%Z.
  cbn [known_size filter map]. change (-1 =? -1)%Z with true.
  change (800 =? -1)%Z with false. change (800 <? 0)%Z with false.
  cbn [List.length]. change (Z.to_nat 800 * 1)%nat with 800%nat.
  change (Nat.eqb 800 0) with false. cbv iota.
  destruct (Nat.eqb (numel (shape t) mod 800) 0); reflexivity.
Qed.

(** The two convolutions and poolings of [Net.forward] on images of
    [h x v] pixels, both at least 16. *)
Lemma Net_features_shape (rt : Runtime) (net : Net) (x : Tensor) (n h v : nat) :
  Net_architecture net -> shape x = [n; 1; h; v]%nat -> (16 <= h)%nat -> (16 <= v)%nat ->
  exists f,
    shape f = [n; 50; ((h - 4) / 2 - 4) / 2; ((v - 4) / 2 - 4) / 2]%nat /\
    Net_forward rt net x
    = (y <-- view f [(-1)%Z; (4 * 4 * 50)%Z] ;;
       y <-- linear rt (fc1 net) y ;;
       let y := relu y in
       y <-- linear rt (fc2 net) y ;;
       log_softmax y)%res.
Proof.
  intros (H1 & H2 & H3 & H4) Hx Hh Hv. unfold Net_forward.
  rewrite (conv2d_shape rt _ _ _ _ _ _ _ _ Hx H1) by lia. cbn [res_bind].
  rewrite (max_pool2d_shape rt _ n 20 (h - 5 + 1) (v - 5 + 1) 2 2) by (reflexivity || lia).
  cbn [res_bind].
  replace (h - 5 + 1)%nat with (h - 4)%nat by lia.
  replace (v - 5 + 1)%nat with (v - 4)%nat by lia.
  rewrite !pool_half by lia.
  pose proof (half_le (h - 4) 6 ltac:(lia)) as Ph.
  pose proof (half_le (v - 4) 6 ltac:(lia)) as Pv.
  rewrite (conv2d_shape rt _ _ n 20 50 5 ((h - 4) / 2) ((v - 4) / 2))
    by (reflexivity || exact H2 || lia).
  cbn [res_bind].
  rewrite (max_pool2d_shape rt _ n 50 ((h - 4) / 2 - 5 + 1) ((v - 4) / 2 - 5 + 1) 2 2)
    by (reflexivity || lia).
  cbn [res_bind].
  replace ((h - 4) / 2 - 5 + 1)%nat with ((h - 4) / 2 - 4)%nat by lia.
  replace ((v - 4) / 2 - 5 + 1)%nat with ((v - 4) / 2 - 4)%nat by lia.
  rewrite !pool_half by lia.
  eexists. split; [| reflexivity]. reflexivity.
Qed.

(** X7: [Net.forward] does not check the size of the images.  On [n]
    images of [h x v] pixels, both at least 16, the flattening
    [view(-1, 800)] regroups the [50 * ((h-4)/2-4)/2 * ((v-4)/2-4)/2]
    features of each image in rows of 800: the call returns one row of
    log-probabilities for every 800 features of the batch when their
    number is a multiple of 800, and raises a RuntimeError otherwise.
    Smaller images always raise a RuntimeError. *)
Theorem Net_forward_image_size
        (rt : Runtime) (net : Net) (x : Tensor) (n h v : nat) :
  Net_architecture net -> shape x = [n; 1; h; v]%nat ->
  ((16 <= h)%nat -> (16 <= v)%nat ->
   let features := (n * (50 * (((h - 4) / 2 - 4) / 2 * (((v - 4) / 2 - 4) / 2))))%nat in
   if Nat.eqb (features mod 800) 0
   then exists logp, Net_forward rt net x = Ok logp
                     /\ shape logp = [(features / 800)%nat; 10%nat]
   else Net_forward rt net x = Raise (RuntimeError "shape is invalid for input size")) /\
  ((h < 16)%nat \/ (v < 16)%nat -> exists msg, Net_forward rt net x = Raise (RuntimeError msg)).
Proof.
  intros Ha Hx. split.
  - intros Hh Hv features.
    destruct (Net_features_shape rt net x n h v Ha Hx Hh Hv) as (f & Hf & Hrun).
    rewrite Hrun. clear Hrun.
    destruct Ha as (_ & _ & H3 & H4).
    rewrite view_rows_of_800, Hf.
    replace (numel [n; 50; ((h - 4) / 2 - 4) / 2; ((v - 4) / 2 - 4) / 2]%nat) with features
      by (unfold numel, features; cbn [fold_right]; lia).
    destruct (Nat.eqb (features mod 800) 0); [| reflexivity].
    cbn [res_bind].
    rewrite (linear_shape rt _ _ (features / 800) 800 500) by (reflexivity || exact H3).
    cbn [res_bind].
    rewrite (linear_shape rt _ _ (features / 800) 500 10) by (reflexivity || exact H4).
    cbn [res_bind]. unfold log_softmax. cbn [shape]. eexists. split; reflexivity.
  - intros Hsmall. destruct Ha as (H1 & H2 & _ & _).
    unfold conv_dims in H1, H2.
    injection H1 as I1 O1 K1 S1. injection H2 as I2 O2 K2 S2.
    unfold Net_forward. unfold conv2d at 1. rewrite Hx, I1, K1, S1, O1.
    cbn [Nat.eqb andb].
    destruct (Nat.leb 5 h) eqn:Eh; [| eexists; reflexivity].
    destruct (Nat.leb 5 v) eqn:Ev; [| eexists; reflexivity].
    apply Nat.leb_le in Eh, Ev. cbn [andb Nat.leb res_bind]. rewrite !Nat.div_1_r.
    unfold max_pool2d at 1. cbn [relu tensor_map shape].
    destruct (Nat.leb 2 (h - 5 + 1)) eqn:Fh; [| eexists; reflexivity].
    destruct (Nat.leb 2 (v - 5 + 1)) eqn:Fv; [| eexists; reflexivity].
    apply Nat.leb_le in Fh, Fv. cbn [andb Nat.leb res_bind].
    replace (h - 5 + 1)%nat with (h - 4)%nat by lia.
    replace (v - 5 + 1)%nat with (v - 4)%nat by lia.
    rewrite !pool_half by lia.
    unfold conv2d. cbn [relu tensor_map shape]. rewrite I2, K2, S2, O2.
    cbn [Nat.eqb andb].
    destruct (Nat.leb 5 ((h - 4) / 2)) eqn:Gh; [| eexists; reflexivity].
    destruct (Nat.leb 5 ((v - 4) / 2)) eqn:Gv; [| eexists; reflexivity].
    apply Nat.leb_le in Gh, Gv. cbn [andb Nat.leb res_bind]. rewrite !Nat.div_1_r.
    unfold max_pool2d. cbn [relu tensor_map shape].
    assert (Hpool : (Nat.leb 2 ((h - 4) / 2 - 5 + 1) && Nat.leb 2 ((v - 4) / 2 - 5 + 1)
                     && Nat.leb 1 2 = false)%bool).
    { destruct Hsmall as [Hs | Hs].
      - pose proof (half_lt (h - 4) 6 ltac:(lia)).
        replace (Nat.leb 2 ((h - 4) / 2 - 5 + 1)) with false
          by (symmetry; apply Nat.leb_gt; lia).
        reflexivity.
      - pose proof (half_lt (v - 4) 6 ltac:(lia)).
        replace (Nat.leb 2 ((v - 4) / 2 - 5 + 1)) with false
          by (symmetry; apply Nat.leb_gt; lia).
        destruct (Nat.leb 2 ((h - 4) / 2 - 5 + 1)); reflexivity. }
    rewrite Hpool. eexists. reflexivity.
Qed.

Lemma Net_forward_image_size_witness :
  (exists logp, Net_forward Toy.rt blank_Net (Toy.zeros [16; 1; 32; 32]%nat) = Ok logp
                /\ shape logp = [25; 10]%nat) /\
  Net_forward Toy.rt blank_Net (Toy.zeros [3; 1; 32; 32]%nat)
  = Raise (RuntimeError "shape is invalid for input size") /\
  exists msg, Net_forward Toy.rt blank_Net (Toy.zeros [3; 1; 15; 28]%nat)
              = Raise (RuntimeError msg).
Proof.
  assert (Ha : Net_architecture blank_Net) by (repeat split).
  assert (H32 : (16 <= 32)%nat) by lia.
  assert (H15 : (15 < 16)%nat) by lia.
  split; [| split].
  - exact (proj1 (Net_forward_image_size Toy.rt blank_Net (Toy.zeros [16; 1; 32; 32]%nat)
                    16 32 32 Ha eq_refl) H32 H32).
  - exact (proj1 (Net_forward_image_size Toy.rt blank_Net (Toy.zeros [3; 1; 32; 32]%nat)
                    3 32 32 Ha eq_refl) H32 H32).
  - exact (proj2 (Net_forward_image_size Toy.rt blank_Net (Toy.zeros [3; 1; 15; 28]%nat)
                    3 15 28 Ha eq_refl) (or_introl H15)).
Defined.

(** *** The decoder *)

Lemma sigmoid_range (v : R) : 0 < / (1 + exp (- v)) < 1.
Proof.
  pose proof (exp_pos (- v)) as He.
  split.
  - apply Rinv_0_lt_compat. lra.
  - rewrite <- Rinv_1 at 2. apply Rinv_lt_contravar; lra.
Qed.

(** X8: with the decoder bound, [decode] maps a batch of [n] latent
    vectors of width 20 to [n] images of shape 1 x 28 x 28 whose pixels lie
    between 0 and 1; it changes nothing but the log of decoded batches. *)
Theorem decode_images
        (rt : Runtime) (x : Tensor) (n : nat) (w : World rt) (vae : VAE) :
  vae_model w = Some vae -> VAE_architecture vae -> shape x = [n; d] ->
  exists img,
    decode rt x w = (Ok img, set_decoded (decoded w ++ [x]) w) /\
    shape img = [n; 1; 28; 28]%nat /\
    Forall (fun v => 0 <= v <= 1) (data img).
Proof.
  intros Hvae [H3 H4] Hx.
  unfold decode, bind, modify, global, lift. cbn [vae_model set_decoded]. rewrite Hvae.
  unfold VAE_decode.
  rewrite (linear_shape rt _ _ n 20 400 Hx H3). cbn [res_bind].
  rewrite (linear_shape rt _ _ n 400 784) by (reflexivity || exact H4). cbn [res_bind].
  unfold size0. rewrite Hx. rewrite (view_images _ n) by reflexivity.
  eexists. split; [reflexivity |]. split; [reflexivity |].
  cbn [data sigmoid tensor_map]. apply Forall_forall. intros v Hv.
  apply in_map_iff in Hv. destruct Hv as (u & <- & _).
  destruct (sigmoid_range u) as [Hlo Hhi]. split; left; assumption.
Qed.

Lemma decode_images_witness :
  exists img,
    decode Toy.rt (Toy.zeros [2%nat; d]) toy_loaded_world
    = (Ok img, set_decoded (decoded toy_loaded_world ++ [Toy.zeros [2%nat; d]])
                 toy_loaded_world) /\
    shape img = [2; 1; 28; 28]%nat /\
    Forall (fun v => 0 <= v <= 1) (data img).
Proof.
  apply (decode_images Toy.rt (Toy.zeros [2%nat; d]) 2 toy_loaded_world blank_VAE).
  - reflexivity.
  - split; reflexivity.
  - reflexivity.
Defined.

(** X9: [decode] needs a batch of latent vectors of width 20: a matrix of
    another width is refused by the first layer of the decoder, and a
    single latent vector of shape [20], without a batch dimension, is
    decoded to 784 pixels that the final [view(20, 1, 28, 28)] refuses.
    Both are RuntimeErrors. *)
Theorem decode_rejects
        (rt : Runtime) (x : Tensor) (w : World rt) (vae : VAE) :
  vae_model w = Some vae -> VAE_architecture vae ->
  (forall n c, shape x = [n; c] -> c <> d ->
     fst (decode rt x w)
     = Raise (RuntimeError "mat1 and mat2 shapes cannot be multiplied")) /\
  (shape x = [d] ->
     fst (decode rt x w) = Raise (RuntimeError "shape is invalid for input size")).
Proof.
  intros Hvae [H3 H4]. unfold linear_dims in H3, H4.
  injection H3 as I3 O3. injection H4 as I4 O4.
  split.
  - intros n c Hx Hc.
    unfold decode, bind, modify, global, lift. cbn [vae_model set_decoded]. rewrite Hvae.
    unfold VAE_decode. unfold linear at 1. rewrite Hx. cbn [last]. rewrite I3.
    replace (Nat.eqb c 20) with false by (symmetry; apply Nat.eqb_neq; exact Hc).
    reflexivity.
  - intros Hx.
    unfold decode, bind, modify, global, lift. cbn [vae_model set_decoded]. rewrite Hvae.
    unfold VAE_decode, linear. rewrite Hx. cbn [last removelast app]. rewrite I3, O3.
    change (Nat.eqb d 20) with true. cbn [res_bind relu tensor_map shape last removelast app].
    rewrite I4, O4. cbn [Nat.eqb res_bind].
    unfold size0. rewrite Hx. reflexivity.
Qed.

Lemma decode_rejects_witness :
  fst (decode Toy.rt (Toy.zeros [2; 19]%nat) toy_loaded_world)
  = Raise (RuntimeError "mat1 and mat2 shapes cannot be multiplied") /\
  fst (decode Toy.rt (Toy.zeros [d]) toy_loaded_world)
  = Raise (RuntimeError "shape is invalid for input size").
Proof.
  assert (Ha : VAE_architecture blank_VAE) by (split; reflexivity).
  split.
  - apply (proj1 (decode_rejects Toy.rt (Toy.zeros [2; 19]%nat) toy_loaded_world blank_VAE
                    eq_refl Ha) 2%nat 19%nat eq_refl).
    unfold d. discriminate.
  - exact (proj2 (decode_rejects Toy.rt (Toy.zeros [d]) toy_loaded_world blank_VAE
                    eq_refl Ha) eq_refl).
Defined.

(** *** The initial batch and the BO step *)

(** X10: with both models bound, [gen_initial_data(n)] returns [n] points
    of the search space, their [n] scores and the largest of them when
    [n] is positive.  For [n = 0] it decodes and scores the empty batch
    and then raises the RuntimeError of [max()] on an empty tensor. *)
Theorem gen_initial_data_needs_a_point (rt : Runtime) (n : nat) (w : World rt) :
  models_loaded w ->
  (n = 0%nat ->
   exists w',
     gen_initial_data rt n w
     = (Raise (RuntimeError
                 "max(): Expected reduction dim to be specified for input.numel() == 0"), w')
     /\ List.length (decoded w') = S (List.length (decoded w))) /\
  ((0 < n)%nat ->
   exists x obj m w',
     gen_initial_data rt n w = (Ok (x, obj, m), w') /\
     shape x = [n; d] /\ shape obj = [n; 1%nat] /\ List.length (data obj) = n /\
     Forall is_score (data obj) /\ is_max m (data obj) /\
     decoded w' = decoded w ++ [x]).
Proof.
  intros Hm.
  destruct (gen_initial_data_outcome rt n w Hm) as (x & s & _ & Hx & Hs & Hl & Hf & Hrun).
  split.
  - intros ->. eexists. split.
    + rewrite Hrun. unfold tensor_max, unsqueeze_last. cbn [data].
      destruct (data s); [reflexivity | discriminate].
    + cbn [decoded set_decoded]. rewrite length_app. cbn [List.length]. lia.
  - intros Hn.
    destruct (tensor_max_nonempty (unsqueeze_last s)) as [m Hmax].
    { cbn [unsqueeze_last data]. destruct (data s); [cbn in Hl; lia | discriminate]. }
    rewrite Hmax in Hrun.
    exists x, (unsqueeze_last s), m. eexists. split; [exact Hrun |].
    split; [exact Hx |]. split; [cbn [unsqueeze_last shape]; rewrite Hs; reflexivity |].
    split; [exact Hl |]. split; [exact Hf |].
    split; [apply tensor_max_is_max; exact Hmax | reflexivity].
Qed.

Lemma gen_initial_data_needs_a_point_witness :
  (exists w',
     gen_initial_data Toy.rt 0 toy_loaded_world
     = (Raise (RuntimeError
                 "max(): Expected reduction dim to be specified for input.numel() == 0"), w')
     /\ List.length (decoded w') = S (List.length (decoded toy_loaded_world))) /\
  (exists x obj m w',
     gen_initial_data Toy.rt 5 toy_loaded_world = (Ok (x, obj, m), w') /\
     shape x = [5%nat; d] /\ shape obj = [5; 1]%nat /\ List.length (data obj) = 5%nat /\
     Forall is_score (data obj) /\ is_max m (data obj) /\
     decoded w' = decoded toy_loaded_world ++ [x]).
Proof.
  assert (H5 : (0 < 5)%nat) by lia.
  split.
  - exact (proj1 (gen_initial_data_needs_a_point Toy.rt 0 toy_loaded_world toy_models_loaded)
             eq_refl).
  - exact (proj2 (gen_initial_data_needs_a_point Toy.rt 5 toy_loaded_world toy_models_loaded)
             H5).
Defined.

(** X11: with both models bound and an optimiser that returns
    [BATCH_SIZE] candidates, [optimize_acqf_and_get_observation] fails
    exactly when [optimize_acqf] does, with the same exception and before
    anything is decoded.  Otherwise it maps the candidates to the search
    space, decodes and scores them once, and returns the [BATCH_SIZE]
    points with a column of [BATCH_SIZE] scores; the acquisition value the
    optimiser reports is dropped. *)
Theorem observation_follows_optimizer
        (rt : Runtime) (cfg : Config) (acq : qEI (GP rt)) (w : World rt) :
  models_loaded w -> optimizer_returns_batch rt ->
  match optimize_acqf rt acq unit_cube (BATCH_SIZE cfg) (NUM_RESTARTS cfg) (RAW_SAMPLES cfg)
          (gen w) with
  | (Raise e, g) =>
      optimize_acqf_and_get_observation rt cfg acq w = (Raise e, set_gen g w)
  | (Ok (cand, _), g) =>
      exists new_x new_obj,
        optimize_acqf_and_get_observation rt cfg acq w
        = (Ok (new_x, new_obj), set_decoded (decoded w ++ [new_x]) (set_gen g w)) /\
        unnormalize cand bounds = Ok new_x /\
        shape new_x = [BATCH_SIZE cfg; d] /\ shape new_obj = [BATCH_SIZE cfg; 1%nat] /\
        List.length (data new_obj) = BATCH_SIZE cfg /\ Forall is_score (data new_obj)
  end.
Proof.
  intros Hm Hbatch.
  destruct (optimize_acqf rt acq unit_cube (BATCH_SIZE cfg) (NUM_RESTARTS cfg)
              (RAW_SAMPLES cfg) (gen w)) as [[[cand v] | e] g] eqn:E.
  - pose proof (Hbatch _ _ _ _ _ _ _ _ _ E) as Hc.
    change (last (shape unit_cube) 0%nat) with d in Hc.
    destruct (unnormalize_ok cand _ Hc) as (x & Hx & Hxs).
    destruct (evaluate_total rt x _ (set_gen g w) (models_loaded_gen rt g w Hm) Hxs)
      as (s & Hev & Hs).
    destruct (evaluate_ok rt _ _ _ _ Hev) as (b & Hb & Hl & Hf).
    rewrite Hs in Hb. injection Hb as <-.
    exists x, (unsqueeze_last s). split; [| split; [exact Hx | split; [exact Hxs |]]].
    + unfold optimize_acqf_and_get_observation.
      unfold bind at 1. unfold call. rewrite E. cbn [fst snd].
      unfold bind at 1. unfold lift at 1. rewrite Hx.
      unfold bind at 1. rewrite Hev. reflexivity.
    + split; [cbn [unsqueeze_last shape]; rewrite Hs; reflexivity |].
      split; assumption.
  - unfold optimize_acqf_and_get_observation.
    unfold bind at 1. unfold call. rewrite E. reflexivity.
Qed.

Lemma stalled_optimizer_batch : optimizer_returns_batch stalled_rt.
Proof. intros acq b q r s g cand v g' H. cbn in H. discriminate. Qed.

Lemma stalled_models_loaded : models_loaded stalled_world.
Proof.
  split; [exists blank_Net | exists blank_VAE]; (split; [reflexivity | repeat split]).
Qed.

Lemma observation_follows_optimizer_witness :
  (exists new_x new_obj,
     optimize_acqf_and_get_observation Toy.rt Toy.cfg (qExpectedImprovement tt 0 None)
       toy_loaded_world
     = (Ok (new_x, new_obj),
        set_decoded (decoded toy_loaded_world ++ [new_x]) (@set_gen Toy.rt 1%nat toy_loaded_world)) /\
     unnormalize (mkTensor [3%nat; d] (repeat (1 / 4) (3 * d))) bounds = Ok new_x /\
     shape new_x = [3%nat; d] /\ shape new_obj = [3; 1]%nat /\
     List.length (data new_obj) = 3%nat /\ Forall is_score (data new_obj)) /\
  optimize_acqf_and_get_observation stalled_rt Toy.cfg (qExpectedImprovement tt 0 None)
    stalled_world
  = (Raise (LibraryError "optimize_acqf gave up"), @set_gen stalled_rt 1%nat stalled_world).
Proof.
  split.
  - exact (observation_follows_optimizer Toy.rt Toy.cfg (qExpectedImprovement tt 0 None)
             toy_loaded_world toy_models_loaded toy_optimizer_batch).
  - exact (observation_follows_optimizer stalled_rt Toy.cfg (qExpectedImprovement tt 0 None)
             stalled_world stalled_models_loaded stalled_optimizer_batch).
Defined.

(** *** Rounds that fail, and runs that cannot *)

Lemma bo_loop_app (rt : Runtime) (cfg : Config) (j i : nat) (w w1 : World rt) :
  bo_loop rt cfg j w = (Ok tt, w1) ->
  bo_loop rt cfg (j + i) w = bo_loop rt cfg i w1.
Proof.
  revert w. induction j as [|j IH]; intros w H.
  - cbn [bo_loop] in H. unfold ret in H. injection H as <-. reflexivity.
  - change (S j + i)%nat with (S (j + i)). cbn [bo_loop] in *.
    unfold bind at 1. unfold bind at 1 in H.
    destruct (bo_iteration rt cfg w) as [[[] | e] w0]; [| discriminate].
    apply IH. exact H.
Qed.

Lemma bo_run_next (rt : Runtime) (cfg : Config) (j : nat) (w w1 : World rt) :
  bo_run rt cfg j w = (Ok tt, w1) ->
  bo_run rt cfg (S j) w = (bo_iteration rt cfg ;;; ret tt) w1.
Proof.
  intros H. apply bo_run_ok in H. destruct H as (w0 & Hinit & Hloop).
  rewrite (bo_run_intro rt cfg (S j) w w0 _ Hinit eq_refl).
  rewrite <- Nat.add_1_r. rewrite (bo_loop_app rt cfg j 1 _ _ Hloop). reflexivity.
Qed.

(** X12: a round of the loop can fail only in a call into gpytorch or
    botorch (building, restoring or fitting the model, or optimising the
    acquisition function), and a round that fails leaves the log, the
    dataset, the history and the carried model state as the round before
    left them: nothing is half appended. *)
Theorem failed_round_keeps_results
        (rt : Runtime) (cfg : Config) (j : nat) (e : Exc) (w w1 w2 : World rt) :
  models_loaded w -> optimizer_returns_batch rt ->
  bo_run rt cfg j w = (Ok tt, w1) ->
  bo_run rt cfg (S j) w = (Raise e, w2) ->
  library_raises rt e /\ same_results w1 w2.
Proof.
  intros Hm Hbatch Hj HS.
  pose proof (bo_run_ready rt cfg j w w1 Hm Hbatch Hj) as Hready.
  rewrite (bo_run_next rt cfg j w w1 Hj) in HS.
  apply bind_inv in HS. destruct HS as [(e' & Hstep & E) | (u & w3 & _ & Hret)].
  - injection E as <-.
    destruct (bo_iteration_outcome rt cfg _ _ _ Hready Hbatch Hstep)
      as [(e' & E & Hlib & Hsame & _) | [E _]]; [| discriminate].
    injection E as <-. split; assumption.
  - unfold ret in Hret. discriminate.
Qed.

Lemma stalled_run_0 :
  bo_run stalled_rt Toy.cfg 0 stalled_world
  = (Ok tt, snd (bo_run stalled_rt Toy.cfg 0 stalled_world)).
Proof.
  rewrite (surjective_pairing (bo_run stalled_rt Toy.cfg 0 stalled_world)) at 1.
  apply (f_equal2 pair); [vm_compute; reflexivity | reflexivity].
Qed.

Lemma stalled_run_1 :
  bo_run stalled_rt Toy.cfg 1 stalled_world
  = (Raise (LibraryError "optimize_acqf gave up"),
     snd (bo_run stalled_rt Toy.cfg 1 stalled_world)).
Proof.
  rewrite (surjective_pairing (bo_run stalled_rt Toy.cfg 1 stalled_world)) at 1.
  apply (f_equal2 pair); [vm_compute; reflexivity | reflexivity].
Qed.

Lemma failed_round_keeps_results_witness :
  library_raises stalled_rt (LibraryError "optimize_acqf gave up") /\
  same_results (snd (bo_run stalled_rt Toy.cfg 0 stalled_world))
               (snd (bo_run stalled_rt Toy.cfg 1 stalled_world)).
Proof.
  exact (failed_round_keeps_results stalled_rt Toy.cfg 0 _ stalled_world _ _
           stalled_models_loaded stalled_optimizer_batch stalled_run_0 stalled_run_1).
Defined.

Lemma script_upto_runs (rt : Runtime) (env : Env) (cfg : Config) (k : nat)
      (net : Net) (vae : VAE) (w : World rt) :
  pretrained_cnn env = Ok net -> pretrained_vae env = Ok vae ->
  library_succeeds rt -> optimizer_returns_batch rt -> (0 < n_init cfg)%nat ->
  exists w', script_upto rt env cfg k w = (Ok tt, w').
Proof.
  intros Hc Hv Hlib Hbatch Hn.
  destruct (script_upto rt env cfg k w) as [r w'] eqn:E.
  pose proof (script_upto_inv rt env cfg k w r w' E) as H. rewrite Hc, Hv in H.
  destruct H as (w1 & _ & Hcnn & Hvae & Hrun & _).
  assert (Hm : models_loaded w1).
  { split; [exists net | exists vae]; (split; [assumption |]).
    - exact (pretrained_cnn_architecture env net Hc).
    - exact (pretrained_vae_architecture env vae Hv). }
  destruct (bo_run_runs rt cfg k w1 Hlib Hbatch Hm Hn) as [w'' Hw''].
  rewrite Hw'' in Hrun. injection Hrun as <- <-. exists w''. reflexivity.
Qed.


Lemma toy_pretrained :
  exists net vae, pretrained_cnn Toy.env = Ok net /\ pretrained_vae Toy.env = Ok vae.
Proof.
  pose proof (script_upto_inv _ _ _ _ _ _ _ toy_run) as H.
  destruct (pretrained_cnn Toy.env) as [net | e].
  - destruct (pretrained_vae Toy.env) as [vae | e].
    + exists net, vae. split; reflexivity.
    + destruct H as [H _]. discriminate.
  - destruct H as [H _]. discriminate.
Qed.

Lemma toy_library_succeeds : library_succeeds Toy.rt.
Proof.
  intros e [(x & y & H) | [(m & sd & H) | [(m & g & H) | (acq & b & q & r & s & g & H)]]];
    cbn in H; discriminate.
Qed.


Lemma is_max_unique (m m' : R) (l : list R) : is_max m l -> is_max m' l -> m = m'.
Proof.
  intros [Hin Hall] [Hin' Hall']. rewrite Forall_forall in Hall, Hall'.
  apply Rle_antisym; [apply Hall' | apply Hall]; assumption.
Qed.

(** X14: the incumbent a round hands to [qExpectedImprovement] is the last
    entry of [best_observed], although the loop recomputes it from
    [train_obj]: the candidates the round decodes are those [optimize_acqf]
    returns for this acquisition function, and the model state carried to
    the next round is that of the model it was built on. *)
Theorem acquisition_uses_best_observed
        (rt : Runtime) (cfg : Config) (k : nat) (w w1 w2 : World rt) :
  bo_run rt cfg k w = (Ok tt, w1) ->
  bo_iteration rt cfg w1 = (Ok tt, w2) ->
  exists h model g res new_x,
    best_observed w1 = Some h /\
    optimize_acqf rt (qExpectedImprovement model (last h 0) None) unit_cube
      (BATCH_SIZE cfg) (NUM_RESTARTS cfg) (RAW_SAMPLES cfg) g = (Ok res, gen w2) /\
    unnormalize (fst res) bounds = Ok new_x /\
    decoded w2 = decoded w1 ++ [new_x] /\
    state_dict w2 = Some (Some (gp_state_dict rt model)).
Proof.
  intros Hrun Hstep.
  destruct (best_history_invariant rt cfg k w w1 Hrun) as (obj & h & m & Hobj & Hh & Hmax & _).
  apply bo_iteration_ok in Hstep.
  destruct Hstep as (x0 & obj0 & sd & h0 & model & acq & g1 & res & g2 & new_x & s & x' & obj'
                     & m' & _ & Hobj0 & _ & _ & Hacq & Hopt & Hun & _ & _ & _ & _ & ->).
  rewrite Hobj in Hobj0. injection Hobj0 as <-.
  unfold make_qEI in Hacq. destruct (tensor_max obj) as [bf |] eqn:Hbf; [| discriminate].
  cbn [res_bind] in Hacq. injection Hacq as <-.
  apply tensor_max_is_max in Hbf. rewrite (is_max_unique _ _ _ Hbf Hmax) in Hopt.
  exists (h ++ [m]), model, g1, res, new_x. rewrite last_last.
  split; [exact Hh |]. split; [exact Hopt |]. split; [exact Hun |]. split; reflexivity.
Qed.

Lemma toy_run_1 :
  bo_run Toy.rt Toy.cfg 1 toy_loaded_world
  = (Ok tt, snd (bo_run Toy.rt Toy.cfg 1 toy_loaded_world)).
Proof.
  rewrite (surjective_pairing (bo_run Toy.rt Toy.cfg 1 toy_loaded_world)) at 1.
  apply (f_equal2 pair); [vm_compute; reflexivity | reflexivity].
Qed.

Lemma toy_round_2 :
  bo_iteration Toy.rt Toy.cfg (snd (bo_run Toy.rt Toy.cfg 1 toy_loaded_world))
  = (Ok tt, snd (bo_iteration Toy.rt Toy.cfg (snd (bo_run Toy.rt Toy.cfg 1 toy_loaded_world)))).
Proof.
  rewrite (surjective_pairing
             (bo_iteration Toy.rt Toy.cfg (snd (bo_run Toy.rt Toy.cfg 1 toy_loaded_world)))) at 1.
  apply (f_equal2 pair); [vm_compute; reflexivity | reflexivity].
Qed.

Lemma acquisition_uses_best_observed_witness :
  exists h model g res new_x,
    best_observed (snd (bo_run Toy.rt Toy.cfg 1 toy_loaded_world)) = Some h /\
    optimize_acqf Toy.rt (qExpectedImprovement model (last h 0) None) unit_cube
      (BATCH_SIZE Toy.cfg) (NUM_RESTARTS Toy.cfg) (RAW_SAMPLES Toy.cfg) g
    = (Ok res,
       gen (snd (bo_iteration Toy.rt Toy.cfg (snd (bo_run Toy.rt Toy.cfg 1 toy_loaded_world)))))
    /\
    unnormalize (fst res) bounds = Ok new_x /\
    decoded (snd (bo_iteration Toy.rt Toy.cfg (snd (bo_run Toy.rt Toy.cfg 1 toy_loaded_world))))
    = decoded (snd (bo_run Toy.rt Toy.cfg 1 toy_loaded_world)) ++ [new_x] /\
    state_dict (snd (bo_iteration Toy.rt Toy.cfg (snd (bo_run Toy.rt Toy.cfg 1 toy_loaded_world))))
    = Some (Some (gp_state_dict Toy.rt model)).
Proof.
  exact (acquisition_uses_best_observed Toy.rt Toy.cfg 1 toy_loaded_world _ _
           toy_run_1 toy_round_2).
Defined.

Lemma evaluate_models (rt : Runtime) (x : Tensor) (w1 w2 : World rt) :
  cnn_model w1 = cnn_model w2 -> vae_model w1 = vae_model w2 ->
  fst (evaluate rt x w1) = fst (evaluate rt x w2).
Proof.
  intros Hc Hv. unfold evaluate, decode, score_image, bind, modify, global, lift.
  cbn [vae_model cnn_model set_decoded]. rewrite Hv.
  destruct (vae_model w2) as [vae |]; [| reflexivity].
  destruct (VAE_decode rt vae x) as [dec |]; [| reflexivity].
  destruct (size0 x) as [n |]; [| reflexivity].
  destruct (view dec _) as [img |]; [| reflexivity].
  cbn [vae_model cnn_model set_decoded]. rewrite Hc.
  destruct (cnn_model w2) as [net |]; [| reflexivity].
  destruct (Net_forward rt net img) as [logp |]; [| reflexivity].
  destruct (expected_score (torch_exp logp)); reflexivity.
Qed.

(** X15: the dataset is the record of the objective's calls.  The
    objective is called once for the initial batch and once in every
    round, and on nothing else: after [k] rounds the log of decoded
    batches has grown by [1 + k] batches, the rows of [train_x] are
    exactly the rows of these batches, in the order they were decoded, and
    [train_obj] holds, in the same order, the scores the objective gives
    to these batches. *)
Theorem dataset_is_the_decoded_batches
        (rt : Runtime) (env : Env) (cfg : Config) (k : nat) (w0 w : World rt) :
  script_upto rt env cfg k w0 = (Ok tt, w) ->
  exists batches scores x obj,
    decoded w = decoded w0 ++ batches /\ List.length batches = S k /\
    Forall2 (fun b s => fst (evaluate rt b w) = Ok s) batches scores /\
    train_x w = Some x /\ data x = List.concat (map data batches) /\
    train_obj w = Some obj /\ data obj = List.concat (map data scores).
Proof.
  intros H. apply script_upto_ok in H. destruct H as (w1 & (Hd & _) & _ & Hrun & _).
  rewrite <- Hd. clear Hd w0.
  apply bo_run_ok in Hrun. destruct Hrun as (wi & Hinit & Hloop).
  apply bo_init_ok in Hinit. destruct Hinit as (x & s & m & _ & Hev & _ & ->).
  assert (Hinv : exists batches scores x obj,
             decoded w = decoded w1 ++ batches /\ List.length batches = S (k + 0) /\
             Forall2 (fun b s => exists wr, cnn_model wr = cnn_model w1 /\
                                            vae_model wr = vae_model w1 /\
                                            fst (evaluate rt b wr) = Ok s) batches scores /\
             train_x w = Some x /\ data x = List.concat (map data batches) /\
             train_obj w = Some obj /\ data obj = List.concat (map data scores) /\
             cnn_model w = cnn_model w1 /\ vae_model w = vae_model w1).
  { revert Hloop.
    apply (bo_loop_invariant rt cfg (fun j w2 =>
      exists batches scores x obj,
        decoded w2 = decoded w1 ++ batches /\ List.length batches = S j /\
        Forall2 (fun b s => exists wr, cnn_model wr = cnn_model w1 /\
                                       vae_model wr = vae_model w1 /\
                                       fst (evaluate rt b wr) = Ok s) batches scores /\
        train_x w2 = Some x /\ data x = List.concat (map data batches) /\
        train_obj w2 = Some obj /\ data obj = List.concat (map data scores) /\
        cnn_model w2 = cnn_model w1 /\ vae_model w2 = vae_model w1)).
    - clear. intros j w2 w3
        (batches & scores & x & obj & Hd & Hl & Hall & Hx & Hdata & Hobj & Hsc & Hc & Hv) H.
      apply bo_iteration_ok in H.
      destruct H as (x0 & obj0 & sd & h0 & model & acq & g1 & res & g2 & new_x & s & x' & obj'
                     & m' & Hx0 & Hobj0 & _ & _ & _ & _ & _ & Hev & Hcat & Hcat' & _ & ->).
      rewrite Hx in Hx0. injection Hx0 as <-. rewrite Hobj in Hobj0. injection Hobj0 as <-.
      apply cat_ok in Hcat. destruct Hcat as [Hcat _].
      apply cat_ok in Hcat'. destruct Hcat' as [Hcat' _].
      exists (batches ++ [new_x]), (scores ++ [s]), x', obj'.
      cbn [decoded train_x train_obj cnn_model vae_model].
      split; [rewrite Hd, app_assoc; reflexivity |].
      split; [rewrite length_app; cbn [List.length]; lia |].
      split.
      { apply Forall2_app; [exact Hall |]. constructor; [| constructor].
        destruct Hev as (wr & Hc' & Hv' & Hr). exists wr. repeat split; congruence. }
      split; [reflexivity |].
      split.
      { rewrite Hcat, Hdata, map_app, concat_app. cbn [map List.concat].
        rewrite app_nil_r. reflexivity. }
      split; [reflexivity |].
      split; [| split; assumption].
      rewrite Hcat', Hsc, map_app, concat_app. cbn [map List.concat unsqueeze_last data].
      rewrite app_nil_r. reflexivity.
    - exists [x], [s], x, (unsqueeze_last s). cbn.
      split; [reflexivity |]. split; [reflexivity |].
      split; [constructor; [exact Hev | constructor] |].
      split; [reflexivity |]. split; [rewrite app_nil_r; reflexivity |].
      split; [reflexivity |]. split; [rewrite app_nil_r; reflexivity |].
      split; reflexivity. }
  destruct Hinv as (batches & scores & x' & obj & Hd & Hl & Hall & Hx & Hdata & Hobj & Hsc
                    & Hc & Hv).
  exists batches, scores, x', obj. rewrite Nat.add_0_r in Hl.
  repeat (split; [assumption |]). split; [| repeat split; assumption].
  revert Hall. apply Forall2_impl. intros b sc (wr & Hc' & Hv' & Hr).
  rewrite <- Hr. apply evaluate_models; congruence.
Qed.

Lemma dataset_is_the_decoded_batches_witness :
  exists batches scores x obj,
    decoded toy_final_world = decoded (initial_world Toy.rt 0%nat) ++ batches /\
    List.length batches = 3%nat /\
    Forall2 (fun b s => fst (evaluate Toy.rt b toy_final_world) = Ok s) batches scores /\
    train_x toy_final_world = Some x /\ data x = List.concat (map data batches) /\
    train_obj toy_final_world = Some obj /\ data obj = List.concat (map data scores).
Proof.
  exact (dataset_is_the_decoded_batches Toy.rt Toy.env Toy.cfg 2 (initial_world Toy.rt 0%nat)
           toy_final_world toy_run).
Defined.

(** X16: the sizes of a complete run.  Unless the environment variable
    SMOKE_TEST is set to a non-empty string, the script runs 25 rounds of
    3 points after 5 initial ones and ends with 80 evaluated points and 26
    entries in [best_observed]; with SMOKE_TEST set to any non-empty
    string it runs 3 rounds of 2 points and ends with 11 points and 4
    entries. *)
Theorem script_sizes (rt : Runtime) (env : Env) (w0 w : World rt) :
  optimizer_returns_batch rt ->
  script rt env w0 = (Ok tt, w) ->
  (SMOKE_TEST env = true <->
   exists v, environ env "SMOKE_TEST" = Some v /\ v <> EmptyString) /\
  exists x obj h,
    train_x w = Some x /\ train_obj w = Some obj /\ best_observed w = Some h /\
    if SMOKE_TEST env
    then shape x = [11; 20]%nat /\ shape obj = [11; 1]%nat /\ List.length h = 4%nat
    else shape x = [80; 20]%nat /\ shape obj = [80; 1]%nat /\ List.length h = 26%nat.
Proof.
  intros Hbatch H. split.
  - unfold SMOKE_TEST. destruct (environ env "SMOKE_TEST") as [v |].
    + destruct (String.eqb v EmptyString) eqn:E; cbn [negb]; split.
      * discriminate.
      * intros (v' & E' & Hne). injection E' as <-. apply String.eqb_eq in E. contradiction.
      * intros _. exists v. split; [reflexivity |]. apply String.eqb_neq. exact E.
      * reflexivity.
    + split; [discriminate | intros (v & E & _); discriminate].
  - unfold script in H.
    destruct (script_upto_ok rt env _ _ _ _ H) as (w1 & _ & Hm & Hrun & _).
    destruct (dataset_size_invariant rt _ _ _ _ Hbatch Hm Hrun) as (x & obj & Hx & Hobj & Hxs & Hos).
    destruct (best_history_invariant rt _ _ _ _ Hrun) as (obj' & h & m & _ & Hh & _ & _ & Hl).
    exists x, obj, (h ++ [m]). split; [exact Hx |]. split; [exact Hobj |]. split; [exact Hh |].
    rewrite length_app, Hl. revert Hxs Hos. unfold script_config.
    destruct (SMOKE_TEST env); cbn; intros -> ->; repeat split.
Qed.

Lemma toy_script_runs :
  exists w, script Toy.rt Toy.env (initial_world Toy.rt 0%nat) = (Ok tt, w).
Proof.
  destruct toy_pretrained as (net & vae & Hc & Hv).
  apply (script_upto_runs Toy.rt Toy.env _ _ net vae _ Hc Hv toy_library_succeeds
           toy_optimizer_batch).
  cbn. lia.
Qed.

Lemma script_sizes_witness :
  exists w x obj h,
    script Toy.rt Toy.env (initial_world Toy.rt 0%nat) = (Ok tt, w) /\
    train_x w = Some x /\ train_obj w = Some obj /\ best_observed w = Some h /\
    shape x = [80; 20]%nat /\ shape obj = [80; 1]%nat /\ List.length h = 26%nat.
Proof.
  destruct toy_script_runs as [w Hw].
  destruct (script_sizes Toy.rt Toy.env _ w toy_optimizer_batch Hw)
    as (_ & x & obj & h & Hx & Hobj & Hh & Hsizes).
  exists w, x, obj, h. repeat split; try assumption; apply Hsizes.
Defined.

(** *** The encoder side of the VAE *)

Lemma view_rows_of_784 (t : Tensor) :
  view t [(-1)%Z; 784%Z]
  = if Nat.eqb (numel (shape t) mod 784) 0
    then Ok (mkTensor [(numel (shape t) / 784)%nat; 784%nat] (data t))
    else Raise (RuntimeError "shape is invalid for input size").
Proof.
  unfold view, infer_size, count_infer, fill_infer.
  cbn [known_size filter map]. change (-1 =? -1)%Z with true.
  change (784 =? -1)%Z with false. change (784 <? 0)%Z with false.
  cbn [List.length]. change (Z.to_nat 784 * 1)%nat with 784%nat.
  change (Nat.eqb 784 0) with false. cbv iota.
  destruct (Nat.eqb (numel (shape t) mod 784) 0); reflexivity.
Qed.

Lemma VAE_decode_pixels (rt : Runtime) (vae : VAE) (z : Tensor) (n : nat) :
  VAE_architecture vae -> shape z = [n; 20%nat] ->
  exists dec, VAE_decode rt vae z = Ok dec /\ shape dec = [n; 784%nat] /\
              Forall (fun v => 0 < v < 1) (data dec).
Proof.
  intros [H3 H4] Hz. unfold VAE_decode.
  rewrite (linear_shape rt _ _ _ _ _ Hz H3). cbn [res_bind].
  rewrite (linear_shape rt _ _ n 400 784) by (reflexivity || exact H4).
  cbn [res_bind]. eexists. split; [reflexivity |]. split; [reflexivity |].
  cbn [data sigmoid tensor_map]. apply Forall_forall. intros v Hv.
  apply in_map_iff in Hv. destruct Hv as (u & <- & _). apply sigmoid_range.
Qed.

(** X17: [VAE.forward] accepts any input whose number of entries is a
    multiple of 784 and treats it as [n] flattened images: it returns a
    reconstruction of shape [n x 784] with pixels between 0 and 1, and
    the mean and log-variance of shape [n x 20]; it changes nothing
    but the state of the random generator.  Any other input raises a
    RuntimeError before a random number is drawn. *)
Theorem VAE_forward_shapes
        (rt : Runtime) (randn : nat -> Gen rt -> list R * Gen rt)
        (vae : VAE) (x : Tensor) (w : World rt) :
  VAE_dims vae ->
  (forall n, numel (shape x) = (n * 784)%nat ->
     exists recon mu logvar g,
       VAE_forward rt randn vae x w = (Ok (recon, mu, logvar), set_gen g w) /\
       shape recon = [n; 784%nat] /\ shape mu = [n; 20%nat] /\ shape logvar = [n; 20%nat] /\
       Forall (fun v => 0 <= v <= 1) (data recon)) /\
  (numel (shape x) mod 784 <> 0%nat ->
     VAE_forward rt randn vae x w
     = (Raise (RuntimeError "shape is invalid for input size"), w)).
Proof.
  intros (H1 & H21 & H22 & Ha). split.
  - intros n Hn. unfold VAE_forward.
    unfold bind at 1. unfold lift at 1. rewrite view_rows_of_784, Hn.
    rewrite Nat.Div0.mod_mul, Nat.div_mul by discriminate. cbn [Nat.eqb].
    unfold bind at 1. unfold lift at 1. unfold VAE_encode.
    rewrite (linear_shape rt _ _ n 784 400) by (reflexivity || exact H1). cbn [res_bind].
    rewrite (linear_shape rt _ _ n 400 20) by (reflexivity || exact H21). cbn [res_bind].
    rewrite (linear_shape rt _ _ n 400 20) by (reflexivity || exact H22). cbn [res_bind].
    cbn [fst snd].
    unfold bind at 1. unfold VAE_reparameterize, randn_like.
    unfold bind at 1. unfold bind at 1. unfold sample, ret.
    unfold bind at 1. unfold lift at 1. unfold tensor_mul.
    cbn [shape torch_exp tensor_map]. rewrite shape_eqb_refl.
    unfold lift at 1. unfold tensor_add. cbn [shape]. rewrite shape_eqb_refl.
    match goal with
    | |- context [VAE_decode rt vae ?z] =>
        destruct (VAE_decode_pixels rt vae z n Ha eq_refl) as (dec & Hdec & Hs & Hpix)
    end.
    unfold bind at 1. unfold lift at 1. rewrite Hdec.
    do 4 eexists. split; [reflexivity |].
    split; [exact Hs |]. split; [reflexivity |]. split; [reflexivity |].
    revert Hpix. apply Forall_impl. intros v [Hlo Hhi]. split; left; assumption.
  - intros Hn. unfold VAE_forward.
    unfold bind at 1. unfold lift at 1. rewrite view_rows_of_784.
    replace (Nat.eqb (numel (shape x) mod 784) 0) with false
      by (symmetry; apply Nat.eqb_neq; exact Hn).
    reflexivity.
Qed.

Lemma VAE_forward_shapes_witness :
  (exists recon mu logvar g,
     VAE_forward Toy.rt (fun n g => (repeat 0 n, S g)) blank_VAE
       (Toy.zeros [2; 1; 28; 28]%nat) toy_loaded_world
     = (Ok (recon, mu, logvar), set_gen g toy_loaded_world) /\
     shape recon = [2; 784]%nat /\ shape mu = [2; 20]%nat /\ shape logvar = [2; 20]%nat /\
     Forall (fun v => 0 <= v <= 1) (data recon)) /\
  VAE_forward Toy.rt (fun n g => (repeat 0 n, S g)) blank_VAE
    (Toy.zeros [2; 1; 28; 27]%nat) toy_loaded_world
  = (Raise (RuntimeError "shape is invalid for input size"), toy_loaded_world).
Proof.
  assert (Hd : VAE_dims blank_VAE) by (repeat split).
  split.
  - exact (proj1 (VAE_forward_shapes Toy.rt (fun n g => (repeat 0 n, S g)) blank_VAE
                    (Toy.zeros [2; 1; 28; 28]%nat) toy_loaded_world Hd) 2%nat eq_refl).
  - apply (proj2 (VAE_forward_shapes Toy.rt (fun n g => (repeat 0 n, S g)) blank_VAE
                    (Toy.zeros [2; 1; 28; 27]%nat) toy_loaded_world Hd)).
    vm_compute. discriminate.
Defined.

(** *** The history, entry by entry *)

(** X18: every entry of [best_observed] is the best score among the
    points evaluated up to its round: entry [j] is the maximum of the
    first [n_init + j * BATCH_SIZE] scores of [train_obj]. *)
Theorem best_observed_are_prefix_maxima
        (rt : Runtime) (env : Env) (cfg : Config) (k : nat) (w0 w : World rt) :
  optimizer_returns_batch rt ->
  script_upto rt env cfg k w0 = (Ok tt, w) ->
  exists obj h,
    train_obj w = Some obj /\ best_observed w = Some h /\ List.length h = S k /\
    forall j, (j <= k)%nat ->
      is_max (nth j h 0) (firstn (n_init cfg + j * BATCH_SIZE cfg) (data obj)).
Proof.
  intros Hbatch H. apply script_upto_ok in H. destruct H as (w1 & _ & Hm & Hrun & _).
  apply bo_run_ok in Hrun. destruct Hrun as (wi & Hinit & Hloop).
  apply bo_init_ok in Hinit. destruct Hinit as (x & s & m & Hx & Hev & Hmax & ->).
  pose proof (unnormalize_shape _ _ _ Hx) as Hxs. cbn [shape] in Hxs.
  destruct (evaluate_rows rt x s (n_init cfg) w1 Hev Hm Hxs) as (_ & Hl & _).
  assert (Hinv : models_loaded w /\ exists obj h,
             train_obj w = Some obj /\ best_observed w = Some h /\
             List.length h = S (k + 0) /\
             List.length (data obj) = (n_init cfg + (k + 0) * BATCH_SIZE cfg)%nat /\
             forall i, (i <= k + 0)%nat ->
               is_max (nth i h 0) (firstn (n_init cfg + i * BATCH_SIZE cfg) (data obj))).
  { revert Hloop.
    apply (bo_loop_invariant rt cfg (fun j w2 =>
      models_loaded w2 /\ exists obj h,
        train_obj w2 = Some obj /\ best_observed w2 = Some h /\
        List.length h = S j /\
        List.length (data obj) = (n_init cfg + j * BATCH_SIZE cfg)%nat /\
        forall i, (i <= j)%nat ->
          is_max (nth i h 0) (firstn (n_init cfg + i * BATCH_SIZE cfg) (data obj)))).
    - clear - Hbatch. intros j w2 w3 (Hm & obj & h & Hobj & Hh & Hlh & Hlo & Hpre) H.
      apply bo_iteration_ok in H.
      destruct H as (x0 & obj0 & sd & h0 & model & acq & g1 & res & g2 & new_x & s & x' & obj'
                     & m' & _ & Hobj0 & _ & Hh0 & _ & Hopt & Hun & Hev & _ & Hcat & Hmax & ->).
      rewrite Hobj in Hobj0. injection Hobj0 as <-. rewrite Hh in Hh0. injection Hh0 as <-.
      destruct res as [cand v]. pose proof (Hbatch _ _ _ _ _ _ _ _ _ Hopt) as Hc.
      change (last (shape unit_cube) 0%nat) with d in Hc.
      pose proof (unnormalize_shape _ _ _ Hun) as Hnx. cbn [fst] in Hnx. rewrite Hc in Hnx.
      destruct (evaluate_rows rt new_x s (BATCH_SIZE cfg) w2 Hev Hm Hnx) as (_ & Hls & _).
      apply cat_ok in Hcat. destruct Hcat as [Hcat _]. cbn [unsqueeze_last data] in Hcat.
      apply tensor_max_is_max in Hmax.
      split; [revert Hm; apply models_loaded_eq; reflexivity |].
      exists obj', (h ++ [m']). cbn [train_obj best_observed].
      split; [reflexivity |]. split; [reflexivity |].
      split; [rewrite length_app; cbn [List.length]; lia |].
      split; [rewrite Hcat, length_app, Hlo, Hls; lia |].
      intros i Hi. destruct (Nat.eq_dec i (S j)) as [-> | Hne].
      + rewrite app_nth2 by lia. rewrite Hlh, Nat.sub_diag. cbn [nth].
        rewrite firstn_all2; [exact Hmax |].
        rewrite Hcat, length_app, Hlo, Hls. lia.
      + rewrite app_nth1 by lia. rewrite Hcat, firstn_app.
        replace (n_init cfg + i * BATCH_SIZE cfg - List.length (data obj))%nat with 0%nat
          by (rewrite Hlo; nia).
        cbn [firstn]. rewrite app_nil_r. apply Hpre. lia.
    - split; [revert Hm; apply models_loaded_eq; reflexivity |].
      exists (unsqueeze_last s), [m]. cbn [train_obj best_observed set_state_dict].
      split; [reflexivity |]. split; [reflexivity |]. split; [reflexivity |].
      split; [cbn [unsqueeze_last data]; rewrite Hl; lia |].
      intros i Hi. assert (i = 0%nat) as -> by lia. cbn [nth].
      rewrite firstn_all2 by (cbn [unsqueeze_last data]; rewrite Hl; lia).
      apply tensor_max_is_max. exact Hmax. }
  destruct Hinv as (_ & obj & h & Hobj & Hh & Hlh & _ & Hpre).
  rewrite Nat.add_0_r in Hlh, Hpre.
  exists obj, h. repeat split; try assumption; apply Hpre; assumption.
Qed.

Lemma best_observed_are_prefix_maxima_witness :
  exists obj h,
    train_obj toy_final_world = Some obj /\ best_observed toy_final_world = Some h /\
    List.length h = 3%nat /\
    forall j, (j <= 2)%nat ->
      is_max (nth j h 0) (firstn (n_init Toy.cfg + j * BATCH_SIZE Toy.cfg) (data obj)).
Proof.
  exact (best_observed_are_prefix_maxima Toy.rt Toy.env Toy.cfg 2 (initial_world Toy.rt 0%nat)
           toy_final_world toy_optimizer_batch toy_run).
Defined.

(** *** What the run never touches *)

Lemma keeps_bind {rt A B} (m : M rt A) (f : A -> M rt B) :
  keeps_models m -> (forall a, keeps_models (f a)) -> keeps_models (bind m f).
Proof.
  intros Hm Hf w r w' H. apply bind_inv in H.
  destruct H as [(e & H & _) | (a & w1 & H1 & H2)].
  - exact (Hm _ _ _ H).
  - destruct (Hm _ _ _ H1) as [E1 E2]. destruct (Hf a _ _ _ H2) as [F1 F2].
    split; congruence.
Qed.

Lemma keeps_ret {rt A} (a : A) : keeps_models (@ret rt A a).
Proof. intros w r w' H. apply ret_inv in H. destruct H as [_ ->]. split; reflexivity. Qed.

Lemma keeps_lift {rt A} (r : Res A) : keeps_models (@lift rt A r).
Proof. intros w r' w' H. apply lift_inv in H. destruct H as [_ ->]. split; reflexivity. Qed.

Lemma keeps_global {rt A} (name : string) (field : World rt -> option A) :
  keeps_models (global name field).
Proof. intros w r w' H. apply global_inv in H. destruct H as [-> _]. split; reflexivity. Qed.

Lemma keeps_sample {rt A} (f : Gen rt -> A * Gen rt) : keeps_models (sample f).
Proof. intros w r w' H. apply sample_inv in H. destruct H as [_ ->]. split; reflexivity. Qed.

Lemma keeps_call {rt A} (f : Gen rt -> Res A * Gen rt) : keeps_models (call f).
Proof. intros w r w' H. apply call_inv in H. destruct H as [_ ->]. split; reflexivity. Qed.

Lemma keeps_modify {rt} (f : World rt -> World rt) :
  (forall w, cnn_model (f w) = cnn_model w /\ vae_model (f w) = vae_model w) ->
  keeps_models (modify f).
Proof. intros Hf w r w' H. apply modify_inv in H. destruct H as [_ ->]. apply Hf. Qed.

Create HintDb keeps.
#[local] Hint Resolve keeps_ret keeps_lift keeps_global keeps_sample keeps_call : keeps.

Ltac keeps :=
  repeat first
    [ apply keeps_bind; [| intros ? ]
    | solve [ auto with keeps ]
    | apply keeps_modify; intros ?; split; reflexivity
    | match goal with
      | |- keeps_models (match ?s with Some _ => _ | None => _ end) => destruct s
      end ].

Lemma keeps_bo_init (rt : Runtime) (cfg : Config) : keeps_models (bo_init rt cfg).
Proof. unfold bo_init. keeps. Qed.

Lemma keeps_bo_iteration (rt : Runtime) (cfg : Config) : keeps_models (bo_iteration rt cfg).
Proof.
  unfold bo_iteration. keeps.
Qed.

Lemma keeps_bo_loop (rt : Runtime) (cfg : Config) (k : nat) : keeps_models (bo_loop rt cfg k).
Proof.
  induction k as [|k IH]; cbn [bo_loop]; [apply keeps_ret |].
  apply keeps_bind; [apply keeps_bo_iteration | intros _; exact IH].
Qed.

Lemma keeps_bo_run (rt : Runtime) (cfg : Config) (k : nat) : keeps_models (bo_run rt cfg k).
Proof.
  unfold bo_run. apply keeps_bind; [apply keeps_bo_init | intros _].
  apply keeps_bind; [| intros _; apply keeps_bo_loop].
  apply keeps_modify. intros w. split; reflexivity.
Qed.

(** X19: the run uses the classifier and the decoder and never changes
    them.  Once both weight files are loaded, the globals [cnn_model] and
    [vae_model] hold, at whatever point the run ends or fails, the models
    that the files determine. *)
Theorem models_never_change
        (rt : Runtime) (env : Env) (cfg : Config) (k : nat) (net : Net) (vae : VAE)
        (r : Res unit) (w0 w : World rt) :
  pretrained_cnn env = Ok net -> pretrained_vae env = Ok vae ->
  script_upto rt env cfg k w0 = (r, w) ->
  cnn_model w = Some net /\ vae_model w = Some vae.
Proof.
  intros Hc Hv H. apply script_upto_inv in H. rewrite Hc, Hv in H.
  destruct H as (w1 & _ & Hcnn & Hvae & Hrun & _).
  destruct (keeps_bo_run rt cfg k _ _ _ Hrun) as [-> ->]. split; assumption.
Qed.

Lemma models_never_change_witness :
  exists net vae,
    pretrained_cnn Toy.env = Ok net /\ pretrained_vae Toy.env = Ok vae /\
    cnn_model toy_final_world = Some net /\ vae_model toy_final_world = Some vae.
Proof.
  destruct toy_pretrained as (net & vae & Hc & Hv). exists net, vae.
  split; [exact Hc |]. split; [exact Hv |].
  exact (models_never_change Toy.rt Toy.env Toy.cfg 2 net vae (Ok tt)
           (initial_world Toy.rt 0%nat) toy_final_world Hc Hv toy_run).
Defined.

(** *** The progress panels of In[14] *)








(** X21: the indices of the panels.  In a complete run they are 4, 11,
    22, 41, 60 and 79 for the 80 points of [train_x] (4, 4, 5, 7, 8 and 10
    for 11 points under SMOKE_TEST): every panel looks at fewer points
    than were evaluated, the first at 4 of the 5 initial points and the
    last at all but the last point. *)
Theorem panel_indices (rt : Runtime) (env : Env) (w0 w : World rt) :
  optimizer_returns_batch rt ->
  script rt env w0 = (Ok tt, w) ->
  inds (script_config env)
  = (if SMOKE_TEST env then [4; 4; 5; 7; 8; 10] else [4; 11; 22; 41; 60; 79])%nat /\
  exists x rows,
    train_x w = Some x /\ shape x = [rows; d] /\
    Forall (fun m => (0 < m < rows)%nat) (inds (script_config env)) /\
    hd 0%nat (inds (script_config env)) = (n_init (script_config env) - 1)%nat /\
    last (inds (script_config env)) 0%nat = (rows - 1)%nat.
Proof.
  intros Hbatch H. unfold script in H.
  destruct (script_upto_ok rt env _ _ _ _ H) as (w1 & _ & Hm & Hrun & _).
  destruct (dataset_size_invariant rt _ _ _ _ Hbatch Hm Hrun) as (x & obj & Hx & _ & Hxs & _).
  revert Hxs. unfold script_config, inds, percentages.
  destruct (SMOKE_TEST env); cbn [negb N_BATCH BATCH_SIZE n_init]; intros Hxs.
  - split; [reflexivity |]. exists x, 11%nat.
    split; [exact Hx |]. split; [exact Hxs |].
    split; [| split; reflexivity].
    repeat constructor; cbn; lia.
  - split; [reflexivity |]. exists x, 80%nat.
    split; [exact Hx |]. split; [exact Hxs |].
    split; [| split; reflexivity].
    repeat constructor; cbn; lia.
Qed.

Lemma panel_indices_witness :
  exists w x rows,
    script Toy.rt Toy.env (initial_world Toy.rt 0%nat) = (Ok tt, w) /\
    inds (script_config Toy.env) = [4; 11; 22; 41; 60; 79]%nat /\
    train_x w = Some x /\ shape x = [rows; d] /\
    Forall (fun m => (0 < m < rows)%nat) (inds (script_config Toy.env)) /\
    hd 0%nat (inds (script_config Toy.env)) = (n_init (script_config Toy.env) - 1)%nat /\
    last (inds (script_config Toy.env)) 0%nat = (rows - 1)%nat.
Proof.
  destruct toy_script_runs as [w Hw].
  destruct (panel_indices Toy.rt Toy.env _ w toy_optimizer_batch Hw)
    as (Hi & x & rows & Hx & Hxs & Hall & Hhd & Hlast).
  exists w, x, rows. repeat split; assumption.
Defined.

Lemma rows_in_domain (x t : Tensor) :
  in_domain x ->
  (forall n c, shape x = [n; c] -> exists n', shape t = [n'; c]) /\ incl (data t) (data x) ->
  in_domain t.
Proof.
  intros [(n & Hn) Hd] [Hs Hincl]. split; [exact (Hs _ _ Hn) |].
  rewrite Forall_forall in *. intros v Hv. apply Hd, Hincl, Hv.
Qed.

(** X22: the panels of In[14] stay in the search space.  Whatever the
    outcome of the cell, every batch it decodes is made of rows of
    [train_x]: it has 20 columns and entries in [-6, 6], as every batch
    decoded before; and the cell changes neither the dataset nor the
    history. *)
Theorem plot_cell_in_domain
        (rt : Runtime) (env : Env) (cfg : Config) (k : nat) (g : Gen rt)
        (r : Res (list Tensor)) (w w' : World rt) :
  uniform_in_unit_interval rt -> optimizer_within_bounds rt ->
  script_upto rt env cfg k (initial_world rt g) = (Ok tt, w) ->
  plot_cell rt cfg w = (r, w') ->
  Forall in_domain (decoded w') /\
  train_x w' = train_x w /\ train_obj w' = train_obj w /\ best_observed w' = best_observed w.
Proof.
  intros Hu Hopt Hrun Hplot.
  assert (Hlog : Forall in_domain (decoded w)).
  { pose proof (script_upto_log rt env cfg k _ _ _ Hu Hopt Hrun (Forall_nil _)) as Hl.
    revert Hl. apply Forall_impl. intros t Ht. apply within_bounds_entries. exact Ht. }
  destruct (script_upto_ok rt env _ _ _ _ Hrun) as (w1 & _ & _ & Hbo & _).
  destruct (train_x_in_domain rt cfg k w1 w Hu Hopt Hbo) as (x & Hx & Hdom).
  unfold plot_cell in Hplot.
  destruct (plot_panels_world rt _ _ _ _ Hplot) as (extra & -> & Hextra).
  split; [| repeat split].
  cbn [decoded set_decoded]. apply Forall_app. split; [exact Hlog |].
  specialize (Hextra x Hx). revert Hextra. apply Forall_impl.
  intros t Ht. exact (rows_in_domain x t Hdom Ht).
Qed.

Lemma plot_cell_in_domain_witness :
  Forall in_domain (decoded (snd (plot_cell Toy.rt Toy.cfg toy_final_world))) /\
  train_x (snd (plot_cell Toy.rt Toy.cfg toy_final_world)) = train_x toy_final_world /\
  train_obj (snd (plot_cell Toy.rt Toy.cfg toy_final_world)) = train_obj toy_final_world /\
  best_observed (snd (plot_cell Toy.rt Toy.cfg toy_final_world))
  = best_observed toy_final_world.
Proof.
  exact (plot_cell_in_domain Toy.rt Toy.env Toy.cfg 2 0%nat
           (fst (plot_cell Toy.rt Toy.cfg toy_final_world)) toy_final_world
           (snd (plot_cell Toy.rt Toy.cfg toy_final_world))
           toy_uniform toy_optimizer_bounds toy_run
           (surjective_pairing (plot_cell Toy.rt Toy.cfg toy_final_world))).
Defined.
